(** * The scene model of the component canvas (src/app.js)

    The editor keeps a forest of boxes ([files]), a list of arrows between
    boxes ([connections]), the selection and an undo history in module-level
    variables that the pointer and keyboard handlers mutate.

    Embedding.  A JavaScript object is identified by reference, so every
    object carries a reference [ref].  The scalar fields of the objects
    (name, position, size, flags, properties) live in a [heap] indexed by
    reference; the [children] arrays, which give the ownership structure, are
    the lists of a rose tree [node].  A field read [file.x] is
    [x (hp (oid file))], an identity test [a === b] compares references, and a
    write to a scalar field is a heap update, visible through every alias.
    Numbers are integers ([Z]): the handlers only add, subtract and compare
    coordinates.  A missing field ([undefined]) is [None]. *)

From Stdlib Require Import ZArith List String Bool Lia Arith Permutation.
Import ListNotations.

Set Implicit Arguments.

(** ** Objects *)

Definition ref := nat.

Record prop := { prop_name : string; prop_value : string }.

(** The scalar fields of a box.  [createNewComponent] fills all of them; the
    event-box literals of [createHookFromInput] and [createTriggerFromInput]
    have no [expanded] field (read as falsy) and set [isEventBox]. *)
Record object := {
  name : string;
  x : option Z;
  y : option Z;
  w : option Z;
  h : option Z;
  expanded : bool;
  type : string;
  isEventBox : bool;
  props : list prop
}.

(** The ownership structure.  [children = None] is an object without a
    [children] field: the event boxes are created that way. *)
Unset Elimination Schemes.
Inductive node : Type := Node { oid : ref; children : option (list node) }.
Set Elimination Schemes.

Definition heap := ref -> object.

Definition upd (hp : heap) (r : ref) (o : object) : heap :=
  fun r' => if Nat.eqb r' r then o else hp r'.

(** An arrow.  [cref] is the identity of the connection object, [id] its
    [Date.now()] stamp; the cached end points are recomputed at every render
    and are left out. *)
Record connection := { cref : ref; id : Z; from : ref; to : ref }.

(** ** Induction over the forest *)

Section node_induction.
Variable P : node -> Prop.
Hypothesis P_leaf : forall r, P (Node r None).
Hypothesis P_inner : forall r l, Forall P l -> P (Node r (Some l)).

Fixpoint node_ind (n : node) : P n :=
  match n with
  | Node r None => P_leaf r
  | Node r (Some l) =>
      P_inner r
        ((fix all (l : list node) : Forall P l :=
            match l with
            | [] => Forall_nil P
            | c :: l' => Forall_cons c (node_ind c) (all l')
            end) l)
  end.
End node_induction.

(** ** Loops with an early return *)

(** [for (const a of l) { const r = f(a); if (r) return r; } return null] *)
Fixpoint findFirst {A B : Type} (f : A -> option B) (l : list A) : option B :=
  match l with
  | [] => None
  | a :: rest =>
      match f a with
      | Some r => Some r
      | None => findFirst f rest
      end
  end.

(** [for (let i = l.length - 1; i >= 0; i--) { const r = f(l[i]); if (r) return r; } return null] *)
Fixpoint findLast {A B : Type} (f : A -> option B) (l : list A) : option B :=
  match l with
  | [] => None
  | a :: rest =>
      match findLast f rest with
      | Some r => Some r
      | None => f a
      end
  end.

(** ** Hit testing *)

(** The box test shared by [findFileAtPosition] and [findDropTarget]:
    all four fields defined and the point within the closed rectangle. *)
Definition contains (o : object) (mx my : Z) : bool :=
  match x o, y o, w o, h o with
  | Some fx, Some fy, Some fw, Some fh =>
      (fx <=? mx)%Z && (mx <=? fx + fw)%Z && (fy <=? my)%Z && (my <=? fy + fh)%Z
  | _, _, _, _ => false
  end.

Definition nonEmpty (c : option (list node)) : bool :=
  match c with
  | Some (_ :: _) => true
  | _ => false
  end.

Section Traversals.
Variable hp : heap.
Variable connections : list connection.

(** [getParentComponent]: the [from] end of the first arrow that points to
    the event box. *)
Definition getParentComponent (eventBox : node) : option ref :=
  if isEventBox (hp (oid eventBox)) then
    match find (fun conn => Nat.eqb (to conn) (oid eventBox)) connections with
    | Some conn => Some (from conn)
    | None => None
    end
  else None.

(** The guard at the head of the loop of [findFileAtPosition]: an event box
    whose owner is collapsed is skipped. *)
Definition hiddenEventBox (file : node) : bool :=
  isEventBox (hp (oid file)) &&
  match getParentComponent file with
  | Some parentComponent => negb (expanded (hp parentComponent))
  | None => false
  end.

Variables mx my : Z.

(** One iteration of the loop of [findFileAtPosition]; [nested] stands for
    the recursive call on [file.children]. *)
Definition hitStep (nested : node -> option node) (file : node) : option node :=
  if hiddenEventBox file then None
  else
    match (if nonEmpty (children file) then nested file else None) with
    | Some found => Some found
    | None => if contains (hp (oid file)) mx my then Some file else None
    end.

Fixpoint findFileAtPosition_children (file : node) : option node :=
  match children file with
  | Some l => findLast (hitStep findFileAtPosition_children) l
  | None => None
  end.

Definition findFileAtPosition (list : list node) : option node :=
  findLast (hitStep findFileAtPosition_children) list.

(** [isDescendantOf(potentialChild, potentialParent)] *)
Fixpoint isDescendantOf (potentialChild : ref) (potentialParent : node) : bool :=
  match children potentialParent with
  | None => false
  | Some l =>
      existsb (fun child =>
                 Nat.eqb (oid child) potentialChild
                 || isDescendantOf potentialChild child) l
  end.

Variable draggedFile : node.

(** The two loops of [findDropTarget] after the event-box guard. *)
Definition dropNested (nested : node -> option node) (file : node) : option node :=
  if negb (Nat.eqb (oid file) (oid draggedFile))
     && nonEmpty (children file)
     && negb (isEventBox (hp (oid file)))
  then nested file
  else None.

Definition dropHere (file : node) : option node :=
  if negb (Nat.eqb (oid file) (oid draggedFile))
     && negb (isEventBox (hp (oid file)))
     && contains (hp (oid file)) mx my
     && negb (isDescendantOf (oid file) draggedFile)
  then Some file
  else None.

Definition dropLoops (nested : node -> option node) (list : list node) : option node :=
  match findFirst (dropNested nested) list with
  | Some found => Some found
  | None => findFirst dropHere list
  end.

Fixpoint findDropTarget_children (file : node) : option node :=
  if isEventBox (hp (oid draggedFile)) then None
  else
    match children file with
    | Some l => dropLoops findDropTarget_children l
    | None => None
    end.

Definition findDropTarget (list : list node) : option node :=
  if isEventBox (hp (oid draggedFile)) then None
  else dropLoops findDropTarget_children list.

End Traversals.

(** ** The forest as a list of objects *)

(** [flattenComponents] of [reconstructConnections]: every component, then
    its descendants, in list order. *)
Fixpoint flattenComponent (component : node) : list node :=
  component ::
  match children component with
  | Some l => flat_map flattenComponent l
  | None => []
  end.

Definition flattenComponents (componentList : list node) : list node :=
  flat_map flattenComponent componentList.

(** The references of the objects placed in a forest, one entry for each
    place where an object sits in a list. *)
Definition refs (l : list node) : list ref := map oid (flattenComponents l).

Definition findNode (r : ref) (l : list node) : option node :=
  find (fun n => Nat.eqb (oid n) r) (flattenComponents l).

(** [list.indexOf(target)] and [list.includes(target)] *)
Fixpoint indexOf (target : ref) (l : list node) : option nat :=
  match l with
  | [] => None
  | file :: rest =>
      if Nat.eqb (oid file) target then Some 0
      else option_map S (indexOf target rest)
  end.

Definition includes (l : list node) (target : ref) : bool :=
  existsb (fun file => Nat.eqb (oid file) target) l.

(** [list.splice(index, 1)] *)
Definition splice1 {A : Type} (index : nat) (l : list A) : list A :=
  firstn index l ++ skipn (S index) l.

(** A write to the [children] array of the object [p], seen through every
    place where [p] sits. *)
Fixpoint withChildren (p : ref) (f : option (list node) -> option (list node))
    (n : node) : node :=
  if Nat.eqb (oid n) p then Node (oid n) (f (children n))
  else Node (oid n) (option_map (map (withChildren p f)) (children n)).

Definition setChildren (p : ref) (l : list node) : list node -> list node :=
  map (withChildren p (fun _ => Some l)).

Definition pushChild (p : ref) (child : node) : list node -> list node :=
  map (withChildren p (option_map (fun l => l ++ [child]))).

(** ** The module-level variables *)

(** What [reconstructConnections] reads of a serialised end point. *)
Record endpoint := {
  e_name : string; e_x : option Z; e_y : option Z; e_type : string
}.

Record savedConnection := { s_id : Z; s_from : endpoint; s_to : endpoint }.

(** A history entry, the [state] object of [saveState]. *)
Record state := {
  st_files : list node;
  st_connections : list savedConnection;
  st_selectedFile : option ref;
  st_selectedChild : option ref;
  st_multiSelectedFiles : list ref
}.

Record scene := {
  store : heap;
  next : ref;
  files : list node;
  draggingFile : option ref;
  currentDropTarget : option ref;
  offsetX : option Z;
  offsetY : option Z;
  selectedFile : option ref;
  selectedChild : option ref;
  hoveredFile : option ref;
  multiSelectedFiles : list ref;
  isAreaSelecting : bool;
  selectionAreaStart : Z * Z;
  selectionAreaEnd : Z * Z;
  connections : list connection;
  isConnecting : bool;
  connectionStart : option ref;
  tempConnectionEnd : Z * Z;
  selectedConnection : option connection;
  hoveredConnection : option connection;
  history : list state
}.

Definition maxHistorySize : nat := 30.

(** Field updates. *)
Definition set_store (v : heap) (s : scene) : scene :=
  {| store := v; next := next s; files := files s;
     draggingFile := draggingFile s;
     currentDropTarget := currentDropTarget s; offsetX := offsetX s;
     offsetY := offsetY s; selectedFile := selectedFile s;
     selectedChild := selectedChild s; hoveredFile := hoveredFile s;
     multiSelectedFiles := multiSelectedFiles s;
     isAreaSelecting := isAreaSelecting s;
     selectionAreaStart := selectionAreaStart s;
     selectionAreaEnd := selectionAreaEnd s; connections := connections s;
     isConnecting := isConnecting s; connectionStart := connectionStart s;
     tempConnectionEnd := tempConnectionEnd s;
     selectedConnection := selectedConnection s;
     hoveredConnection := hoveredConnection s; history := history s |}.

Definition set_next (v : ref) (s : scene) : scene :=
  {| store := store s; next := v; files := files s;
     draggingFile := draggingFile s;
     currentDropTarget := currentDropTarget s; offsetX := offsetX s;
     offsetY := offsetY s; selectedFile := selectedFile s;
     selectedChild := selectedChild s; hoveredFile := hoveredFile s;
     multiSelectedFiles := multiSelectedFiles s;
     isAreaSelecting := isAreaSelecting s;
     selectionAreaStart := selectionAreaStart s;
     selectionAreaEnd := selectionAreaEnd s; connections := connections s;
     isConnecting := isConnecting s; connectionStart := connectionStart s;
     tempConnectionEnd := tempConnectionEnd s;
     selectedConnection := selectedConnection s;
     hoveredConnection := hoveredConnection s; history := history s |}.

Definition set_files (v : list node) (s : scene) : scene :=
  {| store := store s; next := next s; files := v;
     draggingFile := draggingFile s;
     currentDropTarget := currentDropTarget s; offsetX := offsetX s;
     offsetY := offsetY s; selectedFile := selectedFile s;
     selectedChild := selectedChild s; hoveredFile := hoveredFile s;
     multiSelectedFiles := multiSelectedFiles s;
     isAreaSelecting := isAreaSelecting s;
     selectionAreaStart := selectionAreaStart s;
     selectionAreaEnd := selectionAreaEnd s; connections := connections s;
     isConnecting := isConnecting s; connectionStart := connectionStart s;
     tempConnectionEnd := tempConnectionEnd s;
     selectedConnection := selectedConnection s;
     hoveredConnection := hoveredConnection s; history := history s |}.

Definition set_draggingFile (v : option ref) (s : scene) : scene :=
  {| store := store s; next := next s; files := files s; draggingFile := v;
     currentDropTarget := currentDropTarget s; offsetX := offsetX s;
     offsetY := offsetY s; selectedFile := selectedFile s;
     selectedChild := selectedChild s; hoveredFile := hoveredFile s;
     multiSelectedFiles := multiSelectedFiles s;
     isAreaSelecting := isAreaSelecting s;
     selectionAreaStart := selectionAreaStart s;
     selectionAreaEnd := selectionAreaEnd s; connections := connections s;
     isConnecting := isConnecting s; connectionStart := connectionStart s;
     tempConnectionEnd := tempConnectionEnd s;
     selectedConnection := selectedConnection s;
     hoveredConnection := hoveredConnection s; history := history s |}.

Definition set_currentDropTarget (v : option ref) (s : scene) : scene :=
  {| store := store s; next := next s; files := files s;
     draggingFile := draggingFile s; currentDropTarget := v;
     offsetX := offsetX s; offsetY := offsetY s;
     selectedFile := selectedFile s; selectedChild := selectedChild s;
     hoveredFile := hoveredFile s;
     multiSelectedFiles := multiSelectedFiles s;
     isAreaSelecting := isAreaSelecting s;
     selectionAreaStart := selectionAreaStart s;
     selectionAreaEnd := selectionAreaEnd s; connections := connections s;
     isConnecting := isConnecting s; connectionStart := connectionStart s;
     tempConnectionEnd := tempConnectionEnd s;
     selectedConnection := selectedConnection s;
     hoveredConnection := hoveredConnection s; history := history s |}.

Definition set_offsetX (v : option Z) (s : scene) : scene :=
  {| store := store s; next := next s; files := files s;
     draggingFile := draggingFile s;
     currentDropTarget := currentDropTarget s; offsetX := v;
     offsetY := offsetY s; selectedFile := selectedFile s;
     selectedChild := selectedChild s; hoveredFile := hoveredFile s;
     multiSelectedFiles := multiSelectedFiles s;
     isAreaSelecting := isAreaSelecting s;
     selectionAreaStart := selectionAreaStart s;
     selectionAreaEnd := selectionAreaEnd s; connections := connections s;
     isConnecting := isConnecting s; connectionStart := connectionStart s;
     tempConnectionEnd := tempConnectionEnd s;
     selectedConnection := selectedConnection s;
     hoveredConnection := hoveredConnection s; history := history s |}.

Definition set_offsetY (v : option Z) (s : scene) : scene :=
  {| store := store s; next := next s; files := files s;
     draggingFile := draggingFile s;
     currentDropTarget := currentDropTarget s; offsetX := offsetX s;
     offsetY := v; selectedFile := selectedFile s;
     selectedChild := selectedChild s; hoveredFile := hoveredFile s;
     multiSelectedFiles := multiSelectedFiles s;
     isAreaSelecting := isAreaSelecting s;
     selectionAreaStart := selectionAreaStart s;
     selectionAreaEnd := selectionAreaEnd s; connections := connections s;
     isConnecting := isConnecting s; connectionStart := connectionStart s;
     tempConnectionEnd := tempConnectionEnd s;
     selectedConnection := selectedConnection s;
     hoveredConnection := hoveredConnection s; history := history s |}.

Definition set_selectedFile (v : option ref) (s : scene) : scene :=
  {| store := store s; next := next s; files := files s;
     draggingFile := draggingFile s;
     currentDropTarget := currentDropTarget s; offsetX := offsetX s;
     offsetY := offsetY s; selectedFile := v;
     selectedChild := selectedChild s; hoveredFile := hoveredFile s;
     multiSelectedFiles := multiSelectedFiles s;
     isAreaSelecting := isAreaSelecting s;
     selectionAreaStart := selectionAreaStart s;
     selectionAreaEnd := selectionAreaEnd s; connections := connections s;
     isConnecting := isConnecting s; connectionStart := connectionStart s;
     tempConnectionEnd := tempConnectionEnd s;
     selectedConnection := selectedConnection s;
     hoveredConnection := hoveredConnection s; history := history s |}.

Definition set_selectedChild (v : option ref) (s : scene) : scene :=
  {| store := store s; next := next s; files := files s;
     draggingFile := draggingFile s;
     currentDropTarget := currentDropTarget s; offsetX := offsetX s;
     offsetY := offsetY s; selectedFile := selectedFile s;
     selectedChild := v; hoveredFile := hoveredFile s;
     multiSelectedFiles := multiSelectedFiles s;
     isAreaSelecting := isAreaSelecting s;
     selectionAreaStart := selectionAreaStart s;
     selectionAreaEnd := selectionAreaEnd s; connections := connections s;
     isConnecting := isConnecting s; connectionStart := connectionStart s;
     tempConnectionEnd := tempConnectionEnd s;
     selectedConnection := selectedConnection s;
     hoveredConnection := hoveredConnection s; history := history s |}.

Definition set_hoveredFile (v : option ref) (s : scene) : scene :=
  {| store := store s; next := next s; files := files s;
     draggingFile := draggingFile s;
     currentDropTarget := currentDropTarget s; offsetX := offsetX s;
     offsetY := offsetY s; selectedFile := selectedFile s;
     selectedChild := selectedChild s; hoveredFile := v;
     multiSelectedFiles := multiSelectedFiles s;
     isAreaSelecting := isAreaSelecting s;
     selectionAreaStart := selectionAreaStart s;
     selectionAreaEnd := selectionAreaEnd s; connections := connections s;
     isConnecting := isConnecting s; connectionStart := connectionStart s;
     tempConnectionEnd := tempConnectionEnd s;
     selectedConnection := selectedConnection s;
     hoveredConnection := hoveredConnection s; history := history s |}.

Definition set_multiSelectedFiles (v : list ref) (s : scene) : scene :=
  {| store := store s; next := next s; files := files s;
     draggingFile := draggingFile s;
     currentDropTarget := currentDropTarget s; offsetX := offsetX s;
     offsetY := offsetY s; selectedFile := selectedFile s;
     selectedChild := selectedChild s; hoveredFile := hoveredFile s;
     multiSelectedFiles := v; isAreaSelecting := isAreaSelecting s;
     selectionAreaStart := selectionAreaStart s;
     selectionAreaEnd := selectionAreaEnd s; connections := connections s;
     isConnecting := isConnecting s; connectionStart := connectionStart s;
     tempConnectionEnd := tempConnectionEnd s;
     selectedConnection := selectedConnection s;
     hoveredConnection := hoveredConnection s; history := history s |}.

Definition set_isAreaSelecting (v : bool) (s : scene) : scene :=
  {| store := store s; next := next s; files := files s;
     draggingFile := draggingFile s;
     currentDropTarget := currentDropTarget s; offsetX := offsetX s;
     offsetY := offsetY s; selectedFile := selectedFile s;
     selectedChild := selectedChild s; hoveredFile := hoveredFile s;
     multiSelectedFiles := multiSelectedFiles s; isAreaSelecting := v;
     selectionAreaStart := selectionAreaStart s;
     selectionAreaEnd := selectionAreaEnd s; connections := connections s;
     isConnecting := isConnecting s; connectionStart := connectionStart s;
     tempConnectionEnd := tempConnectionEnd s;
     selectedConnection := selectedConnection s;
     hoveredConnection := hoveredConnection s; history := history s |}.

Definition set_selectionAreaStart (v : Z * Z) (s : scene) : scene :=
  {| store := store s; next := next s; files := files s;
     draggingFile := draggingFile s;
     currentDropTarget := currentDropTarget s; offsetX := offsetX s;
     offsetY := offsetY s; selectedFile := selectedFile s;
     selectedChild := selectedChild s; hoveredFile := hoveredFile s;
     multiSelectedFiles := multiSelectedFiles s;
     isAreaSelecting := isAreaSelecting s; selectionAreaStart := v;
     selectionAreaEnd := selectionAreaEnd s; connections := connections s;
     isConnecting := isConnecting s; connectionStart := connectionStart s;
     tempConnectionEnd := tempConnectionEnd s;
     selectedConnection := selectedConnection s;
     hoveredConnection := hoveredConnection s; history := history s |}.

Definition set_selectionAreaEnd (v : Z * Z) (s : scene) : scene :=
  {| store := store s; next := next s; files := files s;
     draggingFile := draggingFile s;
     currentDropTarget := currentDropTarget s; offsetX := offsetX s;
     offsetY := offsetY s; selectedFile := selectedFile s;
     selectedChild := selectedChild s; hoveredFile := hoveredFile s;
     multiSelectedFiles := multiSelectedFiles s;
     isAreaSelecting := isAreaSelecting s;
     selectionAreaStart := selectionAreaStart s; selectionAreaEnd := v;
     connections := connections s; isConnecting := isConnecting s;
     connectionStart := connectionStart s;
     tempConnectionEnd := tempConnectionEnd s;
     selectedConnection := selectedConnection s;
     hoveredConnection := hoveredConnection s; history := history s |}.

Definition set_connections (v : list connection) (s : scene) : scene :=
  {| store := store s; next := next s; files := files s;
     draggingFile := draggingFile s;
     currentDropTarget := currentDropTarget s; offsetX := offsetX s;
     offsetY := offsetY s; selectedFile := selectedFile s;
     selectedChild := selectedChild s; hoveredFile := hoveredFile s;
     multiSelectedFiles := multiSelectedFiles s;
     isAreaSelecting := isAreaSelecting s;
     selectionAreaStart := selectionAreaStart s;
     selectionAreaEnd := selectionAreaEnd s; connections := v;
     isConnecting := isConnecting s; connectionStart := connectionStart s;
     tempConnectionEnd := tempConnectionEnd s;
     selectedConnection := selectedConnection s;
     hoveredConnection := hoveredConnection s; history := history s |}.

Definition set_isConnecting (v : bool) (s : scene) : scene :=
  {| store := store s; next := next s; files := files s;
     draggingFile := draggingFile s;
     currentDropTarget := currentDropTarget s; offsetX := offsetX s;
     offsetY := offsetY s; selectedFile := selectedFile s;
     selectedChild := selectedChild s; hoveredFile := hoveredFile s;
     multiSelectedFiles := multiSelectedFiles s;
     isAreaSelecting := isAreaSelecting s;
     selectionAreaStart := selectionAreaStart s;
     selectionAreaEnd := selectionAreaEnd s; connections := connections s;
     isConnecting := v; connectionStart := connectionStart s;
     tempConnectionEnd := tempConnectionEnd s;
     selectedConnection := selectedConnection s;
     hoveredConnection := hoveredConnection s; history := history s |}.

Definition set_connectionStart (v : option ref) (s : scene) : scene :=
  {| store := store s; next := next s; files := files s;
     draggingFile := draggingFile s;
     currentDropTarget := currentDropTarget s; offsetX := offsetX s;
     offsetY := offsetY s; selectedFile := selectedFile s;
     selectedChild := selectedChild s; hoveredFile := hoveredFile s;
     multiSelectedFiles := multiSelectedFiles s;
     isAreaSelecting := isAreaSelecting s;
     selectionAreaStart := selectionAreaStart s;
     selectionAreaEnd := selectionAreaEnd s; connections := connections s;
     isConnecting := isConnecting s; connectionStart := v;
     tempConnectionEnd := tempConnectionEnd s;
     selectedConnection := selectedConnection s;
     hoveredConnection := hoveredConnection s; history := history s |}.

Definition set_tempConnectionEnd (v : Z * Z) (s : scene) : scene :=
  {| store := store s; next := next s; files := files s;
     draggingFile := draggingFile s;
     currentDropTarget := currentDropTarget s; offsetX := offsetX s;
     offsetY := offsetY s; selectedFile := selectedFile s;
     selectedChild := selectedChild s; hoveredFile := hoveredFile s;
     multiSelectedFiles := multiSelectedFiles s;
     isAreaSelecting := isAreaSelecting s;
     selectionAreaStart := selectionAreaStart s;
     selectionAreaEnd := selectionAreaEnd s; connections := connections s;
     isConnecting := isConnecting s; connectionStart := connectionStart s;
     tempConnectionEnd := v; selectedConnection := selectedConnection s;
     hoveredConnection := hoveredConnection s; history := history s |}.

Definition set_selectedConnection (v : option connection) (s : scene) : scene :=
  {| store := store s; next := next s; files := files s;
     draggingFile := draggingFile s;
     currentDropTarget := currentDropTarget s; offsetX := offsetX s;
     offsetY := offsetY s; selectedFile := selectedFile s;
     selectedChild := selectedChild s; hoveredFile := hoveredFile s;
     multiSelectedFiles := multiSelectedFiles s;
     isAreaSelecting := isAreaSelecting s;
     selectionAreaStart := selectionAreaStart s;
     selectionAreaEnd := selectionAreaEnd s; connections := connections s;
     isConnecting := isConnecting s; connectionStart := connectionStart s;
     tempConnectionEnd := tempConnectionEnd s; selectedConnection := v;
     hoveredConnection := hoveredConnection s; history := history s |}.

Definition set_hoveredConnection (v : option connection) (s : scene) : scene :=
  {| store := store s; next := next s; files := files s;
     draggingFile := draggingFile s;
     currentDropTarget := currentDropTarget s; offsetX := offsetX s;
     offsetY := offsetY s; selectedFile := selectedFile s;
     selectedChild := selectedChild s; hoveredFile := hoveredFile s;
     multiSelectedFiles := multiSelectedFiles s;
     isAreaSelecting := isAreaSelecting s;
     selectionAreaStart := selectionAreaStart s;
     selectionAreaEnd := selectionAreaEnd s; connections := connections s;
     isConnecting := isConnecting s; connectionStart := connectionStart s;
     tempConnectionEnd := tempConnectionEnd s;
     selectedConnection := selectedConnection s; hoveredConnection := v;
     history := history s |}.

Definition set_history (v : list state) (s : scene) : scene :=
  {| store := store s; next := next s; files := files s;
     draggingFile := draggingFile s;
     currentDropTarget := currentDropTarget s; offsetX := offsetX s;
     offsetY := offsetY s; selectedFile := selectedFile s;
     selectedChild := selectedChild s; hoveredFile := hoveredFile s;
     multiSelectedFiles := multiSelectedFiles s;
     isAreaSelecting := isAreaSelecting s;
     selectionAreaStart := selectionAreaStart s;
     selectionAreaEnd := selectionAreaEnd s; connections := connections s;
     isConnecting := isConnecting s; connectionStart := connectionStart s;
     tempConnectionEnd := tempConnectionEnd s;
     selectedConnection := selectedConnection s;
     hoveredConnection := hoveredConnection s; history := v |}.

(** ** Handlers: state passing with exceptions

    A handler runs on the scene and either returns or throws; what it wrote
    before throwing stays written. *)

Inductive outcome (A : Type) : Type :=
| Returned (a : A)
| Threw.
Arguments Threw {A}.

Definition handler (A : Type) : Type := scene -> outcome A * scene.

Definition ret {A : Type} (a : A) : handler A := fun s => (Returned a, s).

Definition bind {A B : Type} (m : handler A) (k : A -> handler B) : handler B :=
  fun s =>
    match m s with
    | (Returned a, s') => k a s'
    | (Threw, s') => (Threw, s')
    end.

Definition throwTypeError {A : Type} : handler A := fun s => (Threw, s).

Definition gets {A : Type} (f : scene -> A) : handler A := fun s => (Returned (f s), s).

Definition modify (f : scene -> scene) : handler unit := fun s => (Returned tt, f s).

Definition when (b : bool) (m : handler unit) : handler unit :=
  if b then m else ret tt.

Declare Scope handler_scope.
Delimit Scope handler_scope with handler.
Notation "v <- m ;; k" := (bind m (fun v => k))
  (at level 61, m at next level, right associativity) : handler_scope.
Notation "m ;;; k" := (bind m (fun _ => k))
  (at level 61, right associativity) : handler_scope.
Local Open Scope handler_scope.

(** [for (const a of l) body(a)] and [l.forEach(body)] *)
Fixpoint forEach {A : Type} (body : A -> handler unit) (l : list A) : handler unit :=
  match l with
  | [] => ret tt
  | a :: rest => body a ;;; forEach body rest
  end.

(** A fresh object: the allocator hands out the next unused reference. *)
Definition alloc : handler ref :=
  fun s => (Returned (next s), set_next (S (next s)) s).

Definition isSome {A : Type} (o : option A) : bool :=
  match o with Some _ => true | None => false end.

Definition refEq (a b : option ref) : bool :=
  match a, b with
  | Some r, Some r' => Nat.eqb r r'
  | None, None => true
  | _, _ => false
  end.

(** ** Selection utilities *)

Definition clearSelection : handler unit :=
  modify (fun s => set_multiSelectedFiles [] (set_selectedChild None (set_selectedFile None s))).

Definition isComponentSelected (component : ref) : handler bool :=
  gets (fun s => refEq (selectedFile s) (Some component)
                 || existsb (Nat.eqb component) (multiSelectedFiles s)).

Definition addToMultiSelection (component : ref) : handler unit :=
  modify (fun s =>
    let m := if existsb (Nat.eqb component) (multiSelectedFiles s)
             then multiSelectedFiles s
             else multiSelectedFiles s ++ [component] in
    set_selectedChild None (set_selectedFile None (set_multiSelectedFiles m s))).

(** [indexOf] followed by [splice(index, 1)]: the first occurrence goes. *)
Fixpoint removeFirst (component : ref) (l : list ref) : list ref :=
  match l with
  | [] => []
  | r :: rest => if Nat.eqb r component then rest else r :: removeFirst component rest
  end.

Definition removeFromMultiSelection (component : ref) : handler unit :=
  modify (fun s =>
    set_multiSelectedFiles (removeFirst component (multiSelectedFiles s)) s).

Definition optAdd (a b : option Z) : option Z :=
  match a, b with
  | Some u, Some v => Some (u + v)%Z
  | _, _ => None
  end.

Definition optLt (a : option Z) (b : Z) : bool :=
  match a with Some u => (u <? b)%Z | None => false end.

Definition optGt (a : option Z) (b : Z) : bool :=
  match a with Some u => (b <? u)%Z | None => false end.

Definition isInSelectionArea (component : object) (startX startY endX endY : Z) : bool :=
  let minX := Z.min startX endX in
  let maxX := Z.max startX endX in
  let minY := Z.min startY endY in
  let maxY := Z.max startY endY in
  negb (optLt (optAdd (x component) (w component)) minX
        || optGt (x component) maxX
        || optLt (optAdd (y component) (h component)) minY
        || optGt (y component) maxY).

Definition selectComponentsInArea (hp : heap) (components : list node)
    (startX startY endX endY : Z) : list ref :=
  map oid (filter (fun component =>
                     isInSelectionArea (hp (oid component)) startX startY endX endY)
                  (flattenComponents components)).

Definition resetConnectionMode : handler unit :=
  modify (fun s => set_isConnecting false (set_connectionStart None s)).

(** [connections.findIndex(conn => conn.id === connectionId)] followed by
    [connections.splice(connectionIndex, 1)] *)
Fixpoint removeConnection (connectionId : Z) (l : list connection) : list connection :=
  match l with
  | [] => []
  | conn :: rest =>
      if Z.eqb (id conn) connectionId then rest
      else conn :: removeConnection connectionId rest
  end.

(** ** Removal *)

(** The connection clean-up inside [removeFile]. *)
Definition forgetConnections (target : ref) : handler unit :=
  modify (fun s =>
    let s1 := set_connections
                (filter (fun connection =>
                           negb (Nat.eqb (from connection) target)
                           && negb (Nat.eqb (to connection) target))
                        (connections s)) s in
    match selectedConnection s1 with
    | Some c =>
        if Nat.eqb (from c) target || Nat.eqb (to c) target
        then set_selectedConnection None s1
        else s1
    | None => s1
    end).

(** The loop [for (const file of list) if (removeFile(target, file.children)) return true]:
    [inChildren file] stands for the recursive call and returns the object
    with its array as the call left it. *)
Fixpoint removeLoop (inChildren : node -> handler (bool * node)) (l : list node)
    : handler (bool * list node) :=
  match l with
  | [] => ret (false, [])
  | file :: rest =>
      r <- inChildren file ;;
      if fst r then ret (true, snd r :: rest)
      else r' <- removeLoop inChildren rest ;; ret (fst r', file :: snd r')
  end.

Definition removeFrom (inChildren : node -> handler (bool * node)) (target : ref)
    (lst : list node) : handler (bool * list node) :=
  match indexOf target lst with
  | Some index => forgetConnections target ;;; ret (true, splice1 index lst)
  | None => removeLoop inChildren lst
  end.

(** [removeFile(target, file.children)]; without a [children] field,
    [list.indexOf] is read from [undefined] and throws. *)
Fixpoint removeFile_children (target : ref) (file : node) : handler (bool * node) :=
  match children file with
  | None => throwTypeError
  | Some l =>
      r <- removeFrom (removeFile_children target) target l ;;
      ret (fst r, Node (oid file) (Some (snd r)))
  end.

(** [removeFile(target, list)]: the answer and the array after the call. *)
Definition removeFile (target : ref) (lst : list node) : handler (bool * list node) :=
  removeFrom (removeFile_children target) target lst.

(** ** Parent lookup *)

Inductive parentField := Undefined | Null | Obj (p : ref).

(** The result [{ parent, list }]; [inList] is the array the target was found in. *)
Record parentInfo := { parent : parentField; inList : option (list node) }.

Definition notFound : parentInfo := {| parent := Undefined; inList := None |}.

Definition truthy (p : parentField) : bool :=
  match p with Obj _ => true | _ => false end.

Definition parentStep (inChildren : node -> parentInfo) (targetFile : ref)
    (parent0 : parentField) (searchList : list node) (file : node) : option parentInfo :=
  if Nat.eqb (oid file) targetFile
  then Some {| parent := parent0; inList := Some searchList |}
  else if nonEmpty (children file) then
    let found := inChildren file in
    match parent found with
    | Undefined => None
    | _ => Some found
    end
  else None.

Definition parentLoop (inChildren : node -> parentInfo) (targetFile : ref)
    (parent0 : parentField) (searchList : list node) : parentInfo :=
  match findFirst (parentStep inChildren targetFile parent0 searchList) searchList with
  | Some found => found
  | None => notFound
  end.

Fixpoint findParentOfComponent_children (targetFile : ref) (file : node) : parentInfo :=
  match children file with
  | Some l => parentLoop (findParentOfComponent_children targetFile) targetFile (Obj (oid file)) l
  | None => notFound
  end.

(** [findParentOfComponent(targetFile, searchList)] with [parent = null]. *)
Definition findParentOfComponent (targetFile : ref) (searchList : list node) : parentInfo :=
  parentLoop (findParentOfComponent_children targetFile) targetFile Null searchList.

Fixpoint mapM {A B : Type} (f : A -> handler B) (l : list A) : handler (list B) :=
  match l with
  | [] => ret []
  | a :: rest => b <- f a ;; bs <- mapM f rest ;; ret (b :: bs)
  end.

Definition setObject (r : ref) (o : object) : handler unit :=
  modify (fun s => set_store (upd (store s) r o) s).

(** ** History *)

(** [JSON.parse(JSON.stringify(files))]: a new object for every object of the
    forest, with the same fields. *)
Fixpoint cloneComponent (component : node) : handler node :=
  r <- alloc ;;
  o <- gets (fun s => store s (oid component)) ;;
  setObject r o ;;;
  match children component with
  | None => ret (Node r None)
  | Some l => l' <- mapM cloneComponent l ;; ret (Node r (Some l'))
  end.

Definition endpointOf (hp : heap) (r : ref) : endpoint :=
  {| e_name := name (hp r); e_x := x (hp r); e_y := y (hp r); e_type := type (hp r) |}.

Definition saveConnection (hp : heap) (c : connection) : savedConnection :=
  {| s_id := id c; s_from := endpointOf hp (from c); s_to := endpointOf hp (to c) |}.

Definition saveState : handler unit :=
  fs <- gets files ;;
  copies <- mapM cloneComponent fs ;;
  s <- gets (fun s => s) ;;
  let state0 :=
    {| st_files := copies;
       st_connections := map (saveConnection (store s)) (connections s);
       st_selectedFile := selectedFile s;
       st_selectedChild := selectedChild s;
       st_multiSelectedFiles := multiSelectedFiles s |} in
  let pushed := history s ++ [state0] in
  modify (set_history (if Nat.ltb maxHistorySize (List.length pushed) then tl pushed else pushed)).

Definition optZeqb (a b : option Z) : bool :=
  match a, b with
  | Some u, Some v => Z.eqb u v
  | None, None => true
  | _, _ => false
  end.

Definition findComponentByProperties (hp : heap) (allComponents : list node)
    (savedComponent : endpoint) : option node :=
  find (fun component =>
          String.eqb (name (hp (oid component))) (e_name savedComponent)
          && optZeqb (x (hp (oid component))) (e_x savedComponent)
          && optZeqb (y (hp (oid component))) (e_y savedComponent)
          && String.eqb (type (hp (oid component))) (e_type savedComponent))
       allComponents.

(** [reconstructConnections]: an arrow is rebuilt between the first objects
    that match the saved end points, or dropped. *)
Fixpoint reconstructConnections (savedConnections : list savedConnection)
    (loadedFiles : list node) : handler (list connection) :=
  match savedConnections with
  | [] => ret []
  | savedConnection :: rest =>
      hp <- gets store ;;
      let allComponents := flattenComponents loadedFiles in
      match findComponentByProperties hp allComponents (s_from savedConnection),
            findComponentByProperties hp allComponents (s_to savedConnection) with
      | Some fromComponent, Some toComponent =>
          r <- alloc ;;
          others <- reconstructConnections rest loadedFiles ;;
          ret ({| cref := r; id := s_id savedConnection;
                  from := oid fromComponent; to := oid toComponent |} :: others)
      | _, _ => reconstructConnections rest loadedFiles
      end
  end.

(** [history.pop()] *)
Definition pop {A : Type} (l : list A) : option (A * list A) :=
  match rev l with
  | [] => None
  | a :: older => Some (a, rev older)
  end.

(** ** Layout

    The sizes come from text measurement on the canvas.  What the layout
    computes is a parameter: [totalHeight s r] is the height
    [updateParentHeight] stores in the object [r], and [drawnBox s r] is the
    box of [r] once [draw] has run.  Both only write [x], [y], [w], [h]. *)

Record box := { b_x : option Z; b_y : option Z; b_w : option Z; b_h : option Z }.

Definition setBox (o : object) (b : box) : object :=
  {| name := name o; x := b_x b; y := b_y b; w := b_w b; h := b_h b;
     expanded := expanded o; type := type o; isEventBox := isEventBox o;
     props := props o |}.

Definition setPosition (o : object) (px py : option Z) : object :=
  {| name := name o; x := px; y := py; w := w o; h := h o;
     expanded := expanded o; type := type o; isEventBox := isEventBox o;
     props := props o |}.

Definition setHeight (o : object) (v : option Z) : object :=
  {| name := name o; x := x o; y := y o; w := w o; h := v;
     expanded := expanded o; type := type o; isEventBox := isEventBox o;
     props := props o |}.

Definition setExpanded (o : object) (v : bool) : object :=
  {| name := name o; x := x o; y := y o; w := w o; h := h o;
     expanded := v; type := type o; isEventBox := isEventBox o;
     props := props o |}.

(** The object behind a reference that sits in the scene, with its array. *)
Definition withNode (r : ref) (k : node -> handler unit) : handler unit :=
  fs <- gets files ;;
  match findNode r fs with
  | Some n => k n
  | None => ret tt
  end.

Definition optSub (a b : option Z) : option Z :=
  match a, b with
  | Some u, Some v => Some (u - v)%Z
  | _, _ => None
  end.

(** ** The handlers *)

Section Handlers.
Variable totalHeight : scene -> ref -> Z.
Variable drawnBox : scene -> ref -> box.

(** Whether a point is within the tolerance of the routed path of an arrow;
    the routing is floating-point geometry and stays a parameter. *)
Variable onPath : scene -> connection -> Z -> Z -> bool.

Definition updateParentHeight (parentComponent : ref) : handler unit :=
  modify (fun s =>
    set_store (upd (store s) parentComponent
                 (setHeight (store s parentComponent)
                    (Some (totalHeight s parentComponent)))) s).

Fixpoint repositionChildrenInParent (parentComponent : node) : handler unit :=
  updateParentHeight (oid parentComponent) ;;;
  match children parentComponent with
  | Some l =>
      forEach (fun child =>
                 if nonEmpty (children child)
                 then repositionChildrenInParent child
                 else ret tt) l
  | None => ret tt
  end.

(** [updateAllParentHeights]; [file.children.length] throws on an object
    without the field. *)
Fixpoint updateAllParentHeights_file (file : node) : handler unit :=
  e <- gets (fun s => expanded (store s (oid file))) ;;
  if e then
    updateParentHeight (oid file) ;;;
    match children file with
    | None => throwTypeError
    | Some l => forEach updateAllParentHeights_file l
    end
  else ret tt.

Definition updateAllParentHeights (l : list node) : handler unit :=
  forEach updateAllParentHeights_file l.

(** [draw]: the layout pass writes the box of every object. *)
Definition draw : handler unit :=
  modify (fun s => set_store (fun r => setBox (store s r) (drawnBox s r)) s).

Definition findConnectionAtPosition (mx my : Z) : handler (option connection) :=
  gets (fun s => find (fun c => onPath s c mx my) (connections s)).

Definition undo : handler unit :=
  hist <- gets history ;;
  match pop hist with
  | None => ret tt
  | Some (previousState, older) =>
      modify (set_history older) ;;;
      modify (set_files (st_files previousState)) ;;;
      conns <- reconstructConnections (st_connections previousState)
                 (st_files previousState) ;;
      modify (set_connections conns) ;;;
      modify (fun s =>
        set_multiSelectedFiles (st_multiSelectedFiles previousState)
          (set_selectedChild (st_selectedChild previousState)
             (set_selectedFile (st_selectedFile previousState) s))) ;;;
      draw
  end.

(** *** Toggle *)

Definition inToggleArea (o : object) (mx my : Z) : bool :=
  match x o, y o with
  | Some fx, Some fy =>
      (fx + 8 <=? mx)%Z && (mx <=? fx + 8 + 20)%Z
      && (fy + 8 <=? my)%Z && (my <=? fy + 8 + 20)%Z
  | _, _ => false
  end.

Fixpoint toggleAt (mx my : Z) (l : list node) : handler bool :=
  match l with
  | [] => ret false
  | file :: rest =>
      s <- gets (fun s => s) ;;
      if includes (files s) (oid file) && inToggleArea (store s (oid file)) mx my
      then
        let flipped := negb (expanded (store s (oid file))) in
        setObject (oid file) (setExpanded (store s (oid file)) flipped) ;;;
        (if flipped then
           match children file with
           | None => throwTypeError
           | Some (_ :: _) => repositionChildrenInParent file
           | Some [] => ret tt
           end
         else ret tt) ;;;
        fs <- gets files ;;
        updateAllParentHeights fs ;;;
        ret true
      else toggleAt mx my rest
  end.

(** *** Duplication *)

Definition clonedObject (o : object) : object :=
  {| name := name o;
     x := optAdd (x o) (Some 30%Z);
     y := optAdd (y o) (Some 30%Z);
     w := w o; h := h o;
     expanded := expanded o;
     type := type o;
     isEventBox := false;
     props := props o |}.

(** [deepCloneComponent]; [component.children.map] throws on an object
    without the field.  The literal copies no [isEventBox]. *)
Fixpoint deepCloneComponent (component : node) : handler node :=
  match children component with
  | None => throwTypeError
  | Some l =>
      l' <- mapM deepCloneComponent l ;;
      r <- alloc ;;
      o <- gets (fun s => store s (oid component)) ;;
      setObject r (clonedObject o) ;;;
      ret (Node r (Some l'))
  end.

(** [duplicateComponent].  [parentList] is the object [{ parent, list }]
    that [findParentOfComponent] returns: it is truthy whatever the search
    found, and it has no [push], so the call [parentList.push(...)]
    throws. *)
Definition duplicateComponent (originalFile : node) (mx my : Z) : handler unit :=
  duplicatedFile <- deepCloneComponent originalFile ;;
  o <- gets (fun s => store s (oid duplicatedFile)) ;;
  setObject (oid duplicatedFile) (setPosition o (Some (mx + 20)%Z) (Some (my + 20)%Z)) ;;;
  fs <- gets files ;;
  let parentList := findParentOfComponent (oid originalFile) fs in
  match Some parentList with
  | Some _ => throwTypeError
  | None => modify (fun s => set_files (files s ++ [duplicatedFile]) s)
  end ;;;
  modify (set_selectedFile (Some (oid duplicatedFile))) ;;;
  draw.

(** *** Pointer down *)

Definition startDragging (clickedFile : node) (mx my : Z) : handler unit :=
  modify (fun s =>
    set_currentDropTarget None
      (set_offsetY (optSub (Some my) (y (store s (oid clickedFile))))
         (set_offsetX (optSub (Some mx) (x (store s (oid clickedFile))))
            (set_draggingFile (Some (oid clickedFile)) s)))).

(** The branch of [mousedown] taken in connection mode; [now] is the
    reading of [Date.now()]. *)
Definition mousedownConnecting (mx my now : Z) : handler unit :=
  s <- gets (fun s => s) ;;
  match findFileAtPosition (store s) (connections s) mx my (files s) with
  | Some clickedFile =>
      match connectionStart s with
      | None =>
          modify (fun s => set_tempConnectionEnd (mx, my)
                             (set_connectionStart (Some (oid clickedFile)) s))
      | Some start =>
          if negb (Nat.eqb (oid clickedFile) start) then
            let existingConnection :=
              find (fun conn =>
                      (Nat.eqb (from conn) start && Nat.eqb (to conn) (oid clickedFile))
                      || (Nat.eqb (from conn) (oid clickedFile) && Nat.eqb (to conn) start))
                   (connections s) in
            match existingConnection with
            | None =>
                r <- alloc ;;
                modify (fun s =>
                  set_connections
                    (connections s ++
                     [{| cref := r; id := now; from := start; to := oid clickedFile |}]) s) ;;;
                saveState
            | Some _ => ret tt
            end ;;;
            resetConnectionMode
          else ret tt
      end
  | None => resetConnectionMode
  end ;;;
  draw.

Definition mousedown (mx my : Z) (ctrl : bool) (now : Z) : handler unit :=
  connecting <- gets isConnecting ;;
  if connecting then mousedownConnecting mx my now
  else
    clickedConnection <- findConnectionAtPosition mx my ;;
    match clickedConnection with
    | Some c =>
        modify (set_selectedConnection (Some c)) ;;;
        clearSelection ;;;
        draw
    | None =>
        s <- gets (fun s => s) ;;
        match findFileAtPosition (store s) (connections s) mx my (files s) with
        | Some clickedFile =>
            if negb ctrl then
              let isTopLevel := includes (files s) (oid clickedFile) in
              isSelected <- isComponentSelected (oid clickedFile) ;;
              if existsb (Nat.eqb (oid clickedFile)) (multiSelectedFiles s) then
                startDragging clickedFile mx my ;;; draw
              else
                clearSelection ;;;
                modify (fun s =>
                  set_selectedChild
                    (if isTopLevel then None else Some (oid clickedFile))
                    (set_selectedFile (Some (oid clickedFile)) s)) ;;;
                if isTopLevel || isSelected
                then startDragging clickedFile mx my ;;; draw
                else draw
            else
              (if existsb (Nat.eqb (oid clickedFile)) (multiSelectedFiles s)
               then removeFromMultiSelection (oid clickedFile)
               else addToMultiSelection (oid clickedFile)) ;;;
              draw
        | None =>
            when (negb ctrl) clearSelection ;;;
            modify (fun s =>
              set_selectedConnection None
                (set_selectionAreaEnd (mx, my)
                   (set_selectionAreaStart (mx, my)
                      (set_isAreaSelecting true s))))
        end
    end.

(** *** Pointer move *)

Definition movePosition (r : ref) (dx dy : option Z) : handler unit :=
  o <- gets (fun s => store s r) ;;
  setObject r (setPosition o (optAdd (x o) dx) (optAdd (y o) dy)).

Definition mousemove (mx my : Z) : handler unit :=
  s <- gets (fun s => s) ;;
  if isConnecting s && isSome (connectionStart s) then
    modify (set_tempConnectionEnd (mx, my)) ;;; draw
  else if isAreaSelecting s then
    modify (set_selectionAreaEnd (mx, my)) ;;; draw
  else
    match draggingFile s with
    | None =>
        let newHoveredFile :=
          option_map oid (findFileAtPosition (store s) (connections s) mx my (files s)) in
        newHoveredConnection <- findConnectionAtPosition mx my ;;
        when (negb (refEq (option_map cref newHoveredConnection)
                          (option_map cref (hoveredConnection s))))
             (modify (set_hoveredConnection newHoveredConnection) ;;; draw) ;;;
        when (negb (refEq newHoveredFile (hoveredFile s)))
             (modify (set_hoveredFile newHoveredFile) ;;; draw)
    | Some d =>
        let o := store s d in
        let deltaX := optSub (optSub (Some mx) (offsetX s)) (x o) in
        let deltaY := optSub (optSub (Some my) (offsetY s)) (y o) in
        setObject d (setPosition o (optSub (Some mx) (offsetX s))
                                   (optSub (Some my) (offsetY s))) ;;;
        when (existsb (Nat.eqb d) (multiSelectedFiles s))
             (forEach (fun component =>
                         if Nat.eqb component d then ret tt
                         else movePosition component deltaX deltaY)
                      (multiSelectedFiles s)) ;;;
        modify (fun s =>
          set_currentDropTarget
            (if isEventBox (store s d) || negb (Nat.eqb (List.length (multiSelectedFiles s)) 0)
             then None
             else match findNode d (files s) with
                  | Some D => option_map oid (findDropTarget (store s) mx my D (files s))
                  | None => None
                  end) s) ;;;
        draw
    end.

(** *** Pointer up: the drop *)

Definition endDragging : handler unit :=
  modify (fun s => set_currentDropTarget None (set_draggingFile None s)).

(** The object [draggingFile] points to.  While it sits in the scene its
    array is read there; [detachedChildren] is the array of an object that
    has left the scene since the pointer went down. *)
Definition draggedObject (d : ref) (detachedChildren : option (list node)) : handler node :=
  gets (fun s =>
    match findNode d (files s) with
    | Some n => n
    | None => Node d detachedChildren
    end).

(** The branch [if (dropTarget)] of [mouseup]. *)
Definition dropInto (D dropTarget : node) : handler unit :=
  fs <- gets files ;;
  let currentParentInfo := findParentOfComponent (oid D) fs in
  match parent currentParentInfo, inList currentParentInfo with
  | Obj p, Some l =>
      r <- removeFile (oid D) l ;;
      modify (fun s => set_files (setChildren p (snd r) (files s)) s) ;;;
      updateParentHeight p ;;;
      withNode p repositionChildrenInParent
  | _, _ =>
      r <- removeFile (oid D) fs ;;
      modify (set_files (snd r))
  end ;;;
  match children dropTarget with
  | None => throwTypeError
  | Some _ => modify (fun s => set_files (pushChild (oid dropTarget) D (files s)) s)
  end ;;;
  withNode (oid dropTarget) repositionChildrenInParent.

(** The branch [else]: a nested component dropped on the empty canvas. *)
Definition promote (D : node) (mx my : Z) : handler unit :=
  fs <- gets files ;;
  if negb (includes fs (oid D)) then
    let currentParentInfo := findParentOfComponent (oid D) fs in
    match parent currentParentInfo, inList currentParentInfo with
    | Obj p, Some l =>
        r <- removeFile (oid D) l ;;
        modify (fun s => set_files (setChildren p (snd r) (files s)) s) ;;;
        modify (fun s => set_files (files s ++ [D]) s) ;;;
        updateParentHeight p ;;;
        withNode p repositionChildrenInParent ;;;
        s <- gets (fun s => s) ;;
        setObject (oid D)
          (setPosition (store s (oid D))
             (optSub (Some mx) (offsetX s)) (optSub (Some my) (offsetY s)))
    | _, _ => ret tt
    end
  else ret tt.

Definition mouseup (mx my : Z) (ctrl : bool) (detachedChildren : option (list node))
    : handler unit :=
  s <- gets (fun s => s) ;;
  if isAreaSelecting s then
    let selectedComponents :=
      selectComponentsInArea (store s) (files s)
        (fst (selectionAreaStart s)) (snd (selectionAreaStart s))
        (fst (selectionAreaEnd s)) (snd (selectionAreaEnd s)) in
    match selectedComponents with
    | _ :: _ =>
        if ctrl then forEach addToMultiSelection selectedComponents
        else clearSelection ;;; modify (set_multiSelectedFiles selectedComponents)
    | [] => when (negb ctrl) clearSelection
    end ;;;
    modify (set_isAreaSelecting false)
  else
    match draggingFile s with
    | None => ret tt
    | Some d =>
        saveState ;;;
        match multiSelectedFiles s with
        | _ :: _ => endDragging ;;; draw
        | [] =>
            D <- draggedObject d detachedChildren ;;
            s1 <- gets (fun s => s) ;;
            match (if isEventBox (store s1 d) then None
                   else findDropTarget (store s1) mx my D (files s1)) with
            | Some dropTarget => dropInto D dropTarget
            | None => promote D mx my
            end ;;;
            endDragging ;;;
            draw
        end
    end.

(** *** Click *)

Definition click (mx my : Z) (ctrl shift : bool) : handler unit :=
  modify (set_currentDropTarget None) ;;;
  fs <- gets files ;;
  toggled <- toggleAt mx my fs ;;
  if toggled then saveState ;;; draw
  else
    s <- gets (fun s => s) ;;
    match (if ctrl && negb shift
           then findFileAtPosition (store s) (connections s) mx my (files s)
           else None),
          multiSelectedFiles s with
    | Some clickedFile, [] => saveState ;;; duplicateComponent clickedFile mx my
    | _, _ => draw
    end.

(** *** New components *)

Definition createNewComponent (name0 : string) (px py : Z) : object :=
  {| name := name0; x := Some px; y := Some py;
     w := Some 160%Z; h := Some 40%Z;
     expanded := true; type := "Component"; isEventBox := false; props := [] |}.

Definition finishInput (name0 : string) (px py : Z) : handler unit :=
  if String.eqb name0 "" then ret tt
  else
    saveState ;;;
    r <- alloc ;;
    setObject r (createNewComponent name0 px py) ;;;
    modify (fun s => set_files (files s ++ [Node r (Some [])]) s) ;;;
    draw.

(** The body shared by [createHookFromInput] ([type0 = "HOOK"],
    [dy = 0]) and [createTriggerFromInput] ([type0 = "TRIGGER"],
    [dy = 60]). *)
Definition createEventBox (type0 : string) (dy : Z) (name0 : string) (now : Z)
    : handler unit :=
  sel <- gets selectedFile ;;
  match sel with
  | None => ret tt
  | Some selected =>
      saveState ;;;
      o <- gets (fun s => store s selected) ;;
      r <- alloc ;;
      setObject r
        {| name := name0;
           x := optAdd (optAdd (x o) (w o)) (Some 250%Z);
           y := optAdd (y o) (Some dy);
           w := Some 200%Z; h := Some 60%Z;
           expanded := false; type := type0; isEventBox := true; props := [] |} ;;;
      modify (fun s => set_files (files s ++ [Node r None]) s) ;;;
      c <- alloc ;;
      modify (fun s =>
        set_connections
          (connections s ++ [{| cref := c; id := now; from := selected; to := r |}]) s) ;;;
      draw
  end.

Definition createHookFromInput : string -> Z -> handler unit :=
  createEventBox "HOOK" 0%Z.

Definition createTriggerFromInput : string -> Z -> handler unit :=
  createEventBox "TRIGGER" 60%Z.

(** [removeConnectedHook] and [removeConnectedTrigger] have one body. *)
Definition removeConnectedHook (connectionId : Z) : handler unit :=
  saveState ;;;
  s <- gets (fun s => s) ;;
  match find (fun conn => Z.eqb (id conn) connectionId) (connections s) with
  | None => ret tt
  | Some connection0 =>
      match indexOf (to connection0) (files s) with
      | Some hookBoxIndex => modify (set_files (splice1 hookBoxIndex (files s)))
      | None => ret tt
      end ;;;
      modify (fun s =>
        set_connections (removeConnection connectionId (connections s)) s) ;;;
      draw
  end.

Definition clearCanvas : handler unit :=
  saveState ;;;
  modify (fun s => set_connections [] (set_files [] s)) ;;;
  clearSelection ;;;
  modify (set_hoveredFile None) ;;;
  draw.

Definition toggleConnectionMode : handler unit :=
  modify (fun s => set_isConnecting (negb (isConnecting s)) s) ;;;
  connecting <- gets isConnecting ;;
  (if connecting then
     modify (fun s =>
       set_selectedConnection None
         (set_selectedChild None
            (set_selectedFile None (set_connectionStart None s))))
   else resetConnectionMode) ;;;
  draw.

(** *** Keyboard *)

(** One round of the [forEach] of the multi-delete. *)
Definition deleteComponent (component : ref) : handler unit :=
  fs <- gets files ;;
  let parentInfo := findParentOfComponent component fs in
  match parent parentInfo, inList parentInfo with
  | Obj p, Some l =>
      match indexOf component l with
      | Some childIndex =>
          modify (fun s => set_files (setChildren p (splice1 childIndex l) (files s)) s) ;;;
          updateParentHeight p ;;;
          withNode p repositionChildrenInParent
      | None => ret tt
      end
  | _, _ =>
      match indexOf component fs with
      | Some fileIndex => modify (set_files (splice1 fileIndex fs))
      | None => ret tt
      end
  end ;;;
  modify (fun s =>
    set_connections
      (filter (fun connection =>
                 negb (Nat.eqb (from connection) component)
                 && negb (Nat.eqb (to connection) component))
              (connections s)) s).

Definition deleteSelection : handler unit :=
  s <- gets (fun s => s) ;;
  match selectedConnection s, multiSelectedFiles s, selectedFile s with
  | Some sc, _, _ =>
      saveState ;;;
      modify (fun s =>
        set_selectedConnection None
          (set_connections
             (filter (fun conn => negb (Nat.eqb (cref conn) (cref sc))) (connections s)) s)) ;;;
      draw
  | None, (_ :: _) as componentsToDelete, _ =>
      saveState ;;;
      forEach deleteComponent componentsToDelete ;;;
      clearSelection ;;;
      modify (set_hoveredFile None) ;;;
      draw
  | None, [], Some sel =>
      saveState ;;;
      fs <- gets files ;;
      r <- removeFile sel fs ;;
      modify (set_files (snd r)) ;;;
      clearSelection ;;;
      modify (set_hoveredFile None) ;;;
      draw
  | None, [], None => ret tt
  end.

Definition escape : handler unit :=
  connecting <- gets isConnecting ;;
  when connecting resetConnectionMode ;;;
  modify (fun s =>
    set_multiSelectedFiles []
      (set_selectedConnection None
         (set_selectedChild None (set_selectedFile None s)))) ;;;
  draw.

(** The [keydown] listener, for a key pressed on the canvas. *)
Definition keydown (key : string) (ctrl : bool) : handler unit :=
  when (ctrl && String.eqb key "z") undo ;;;
  when (String.eqb key "c" || String.eqb key "C") toggleConnectionMode ;;;
  when (String.eqb key "Delete" || String.eqb key "Backspace") deleteSelection ;;;
  when (String.eqb key "Escape") escape.

End Handlers.

(** ** Specification vocabulary *)

Section HitOrder.
Variable hp : heap.
Variable conns : list connection.

(** The order in which [findFileAtPosition] tests the boxes of a list: the
    last element first, and for every element the boxes below it before
    its own; a hidden event box is passed over with all below it. *)
Fixpoint hitOrder_children (file : node) : list node :=
  match children file with
  | Some l =>
      fold_right (fun c later =>
                    later ++ (if hiddenEventBox hp conns c then []
                              else hitOrder_children c ++ [c])) [] l
  | None => []
  end.

Definition hitOrder (l : list node) : list node :=
  fold_right (fun c later =>
                later ++ (if hiddenEventBox hp conns c then []
                          else hitOrder_children c ++ [c])) [] l.
End HitOrder.

(** What the result of [findDropTarget] must satisfy with respect to the
    dragged object. *)
Definition validDropTarget (hp : heap) (draggedFile target : node) : Prop :=
  oid target <> oid draggedFile
  /\ isDescendantOf (oid target) draggedFile = false
  /\ isEventBox (hp (oid target)) = false.

(** Two scenes that differ at most in the heap and the allocator. *)
Definition heapOnly (s s' : scene) : Prop :=
  s' = set_store (store s') (set_next (next s') s).

Definition size (l : list node) : nat := List.length (flattenComponents l).

(** The entry [saveState] pushes, given the copies of the forest. *)
Definition snapshot (copies : list node) (s : scene) : state :=
  {| st_files := copies;
     st_connections := map (saveConnection (store s)) (connections s);
     st_selectedFile := selectedFile s;
     st_selectedChild := selectedChild s;
     st_multiSelectedFiles := multiSelectedFiles s |}.

Definition trim (pushed : list state) : list state :=
  if Nat.ltb maxHistorySize (List.length pushed) then tl pushed else pushed.

(** The arrows between two objects, in either direction. *)
Definition samePair (a b : ref) (c : connection) : bool :=
  (Nat.eqb (from c) a && Nat.eqb (to c) b) || (Nat.eqb (from c) b && Nat.eqb (to c) a).

Definition connectionsBetween (a b : ref) (conns : list connection) : list connection :=
  filter (samePair a b) conns.

Definition atMostOnePerPair (conns : list connection) : Prop :=
  forall a b, List.length (connectionsBetween a b conns) <= 1.

(** ** Example scenes *)

Definition blank : object :=
  {| name := ""; x := None; y := None; w := None; h := None;
     expanded := false; type := ""; isEventBox := false; props := [] |}.

(** The heap that holds the listed objects. *)
Fixpoint heapOf (l : list (ref * object)) : heap :=
  match l with
  | [] => fun _ => blank
  | (r, o) :: rest => upd (heapOf rest) r o
  end.

(** The scene a page starts with: [hp] and [fs] are what was loaded, the
    allocator stands past every loaded object. *)
Definition loaded (hp : heap) (nx : ref) (fs : list node) (conns : list connection) : scene :=
  {| store := hp; next := nx; files := fs;
     draggingFile := None; currentDropTarget := None;
     offsetX := Some 0%Z; offsetY := Some 0%Z;
     selectedFile := None; selectedChild := None; hoveredFile := None;
     multiSelectedFiles := []; isAreaSelecting := false;
     selectionAreaStart := (0, 0)%Z; selectionAreaEnd := (0, 0)%Z;
     connections := conns; isConnecting := false; connectionStart := None;
     tempConnectionEnd := (0, 0)%Z;
     selectedConnection := None; hoveredConnection := None; history := [] |}.

Definition component (name0 : string) (px py pw ph : Z) : object :=
  {| name := name0; x := Some px; y := Some py; w := Some pw; h := Some ph;
     expanded := true; type := "Component"; isEventBox := false; props := [] |}.

Definition hookBox (name0 : string) (px py : Z) : object :=
  {| name := name0; x := Some px; y := Some py; w := Some 200%Z; h := Some 60%Z;
     expanded := false; type := "HOOK"; isEventBox := true; props := [] |}.

(** Two components side by side. *)
Definition twoComponents : scene :=
  loaded (heapOf [(0, component "Alpha" 50 50 200 60);
                  (1, component "Beta" 300 50 200 60)]) 2
         [Node 0 (Some []); Node 1 (Some [])] [].

(** [Alpha] with its hook box, then [Beta] holding [Gamma]. *)
Definition withHookBox : scene :=
  loaded (heapOf [(0, component "Alpha" 50 50 200 60); (1, hookBox "useHook" 500 50);
                  (2, component "Beta" 50 300 400 140);
                  (3, component "Gamma" 84 360 300 25)]) 5
         [Node 0 (Some []); Node 1 None; Node 2 (Some [Node 3 (Some [])])]
         [{| cref := 4; id := 1%Z; from := 0; to := 1 |}].

(** [Beta] holding [Gamma], and an arrow from [Gamma] to [Alpha]. *)
Definition nestedWithArrow : scene :=
  loaded (heapOf [(0, component "Alpha" 50 50 200 60);
                  (1, component "Beta" 50 300 400 140);
                  (2, component "Gamma" 84 360 300 25)]) 4
         [Node 0 (Some []); Node 1 (Some [Node 2 (Some [])])]
         [{| cref := 3; id := 1%Z; from := 2; to := 0 |}].

(** [Alpha] and [Beta] joined by an arrow. *)
Definition joined : scene :=
  loaded (heapOf [(0, component "Alpha" 50 50 200 60);
                  (1, component "Beta" 300 50 200 60)]) 3
         [Node 0 (Some []); Node 1 (Some [])]
         [{| cref := 2; id := 1%Z; from := 0; to := 1 |}].

(** A layout that leaves every box where it is. *)
Definition keepBox (s : scene) (r : ref) : box :=
  {| b_x := x (store s r); b_y := y (store s r);
     b_w := w (store s r); b_h := h (store s r) |}.

Definition keepHeight (s : scene) (r : ref) : Z :=
  match h (store s r) with Some v => v | None => 0%Z end.

(** Arrow paths for the examples: no arrow near the pointer, and the arrow
    between [Alpha] and [Beta] of [joined] passing through (275, 80). *)
Definition offPath (s : scene) (c : connection) (mx my : Z) : bool := false.

Definition midPath (s : scene) (c : connection) (mx my : Z) : bool :=
  Z.eqb mx 275 && Z.eqb my 80.

(** The selection a click on the object [r] leaves, and the connection mode
    after a first click on [r]. *)
Definition selecting (r : ref) (nested : bool) (s : scene) : scene :=
  set_selectedChild (if nested then Some r else None) (set_selectedFile (Some r) s).

Definition connectingFrom (r : ref) (s : scene) : scene :=
  set_connectionStart (Some r) (set_isConnecting true s).

(** ** The editor as a state machine *)

Inductive event : Type :=
| MouseDown (mx my : Z) (ctrl : bool) (now : Z)
| MouseMove (mx my : Z)
| MouseUp (mx my : Z) (ctrl : bool) (detachedChildren : option (list node))
| Click (mx my : Z) (ctrl shift : bool)
| KeyDown (key : string) (ctrl : bool)
| FinishInput (name0 : string) (px py : Z)
| CreateHookFromInput (name0 : string) (now : Z)
| CreateTriggerFromInput (name0 : string) (now : Z)
| RemoveConnectedHook (connectionId : Z)
| ClearCanvas
| ToggleConnectionMode.

(** Every object sits in one list, once: no reference shows up twice among
    the places of the forest. *)
Definition tree (l : list node) : Prop := NoDup (refs l).

Definition allocated (nx : ref) (l : list node) : Prop :=
  forall r, In r (refs l) -> r < nx.

Definition wellFormed (s : scene) : Prop :=
  tree (files s)
  /\ allocated (next s) (files s)
  /\ Forall (fun e => tree (st_files e) /\ allocated (next s) (st_files e)) (history s).

(** What [MouseUp] says of a dragged object that is no longer in the scene:
    it is an object of its own, apart from the objects of the scene. *)
Definition detachedObject (s : scene) (detachedChildren : option (list node)) : Prop :=
  match draggingFile s with
  | Some d =>
      ~ In d (refs (files s)) ->
      tree [Node d detachedChildren]
      /\ allocated (next s) [Node d detachedChildren]
      /\ (forall r, In r (refs [Node d detachedChildren]) -> ~ In r (refs (files s)))
  | None => True
  end.

Definition admissible (s : scene) (e : event) : Prop :=
  match e with
  | MouseUp _ _ _ detachedChildren => detachedObject s detachedChildren
  | _ => True
  end.

Section Machine.
Variable totalHeight : scene -> ref -> Z.
Variable drawnBox : scene -> ref -> box.
Variable onPath : scene -> connection -> Z -> Z -> bool.

Definition handle (e : event) : handler unit :=
  match e with
  | MouseDown mx my ctrl now => mousedown drawnBox onPath mx my ctrl now
  | MouseMove mx my => mousemove drawnBox onPath mx my
  | MouseUp mx my ctrl detachedChildren =>
      mouseup totalHeight drawnBox mx my ctrl detachedChildren
  | Click mx my ctrl shift => click totalHeight drawnBox mx my ctrl shift
  | KeyDown key ctrl => keydown totalHeight drawnBox key ctrl
  | FinishInput name0 px py => finishInput drawnBox name0 px py
  | CreateHookFromInput name0 now => createHookFromInput drawnBox name0 now
  | CreateTriggerFromInput name0 now => createTriggerFromInput drawnBox name0 now
  | RemoveConnectedHook connectionId => removeConnectedHook drawnBox connectionId
  | ClearCanvas => clearCanvas drawnBox
  | ToggleConnectionMode => toggleConnectionMode drawnBox
  end.

(** The scene after the handler, whether it returned or threw. *)
Definition step (s : scene) (e : event) : scene := snd (handle e s).

Inductive reachable : scene -> Prop :=
| reachable_start (s : scene) : wellFormed s -> reachable s
| reachable_step (s : scene) (e : event) :
    reachable s -> admissible s e -> reachable (step s e).
End Machine.

(** A handler that keeps the scene well formed, with a condition on entry
    and one on the returned value. *)
Definition hoare {A : Type} (P : scene -> Prop) (m : handler A)
    (Q : A -> scene -> Prop) : Prop :=
  forall s, P s ->
    match m s with
    | (Returned a, s') => Q a s'
    | (Threw, s') => wellFormed s'
    end.

Definition keeps {A : Type} (m : handler A) : Prop :=
  hoare wellFormed m (fun _ => wellFormed).

(** The references of an optional array. *)
Definition orefs (c : option (list node)) : list ref :=
  match c with
  | Some l => refs l
  | None => []
  end.

(** [l'] is [l] with one place taken out, together with what is below it. *)
Definition removedFrom (target : ref) (l l' : list node) : Prop :=
  exists removed,
    oid removed = target
    /\ In removed (flattenComponents l)
    /\ Permutation (refs l) (refs [removed] ++ refs l').

(** What a handler leaves alone while it works on an array. *)
Definition sameForest (s s' : scene) : Prop :=
  files s' = files s /\ history s' = history s /\ next s' = next s.

(** A handler that leaves the forest, the history and the allocator alone. *)
Definition heapStep {A : Type} (m : handler A) : Prop :=
  forall s, sameForest s (snd (m s)).

(** The object a drop moves: a place of the forest, or an object of its own
    apart from the forest. *)
Definition movable (D : node) (s : scene) : Prop :=
  In D (flattenComponents (files s))
  \/ (tree [D] /\ allocated (next s) [D]
      /\ forall r, In r (refs [D]) -> ~ In r (refs (files s))).

(** An object of its own, apart from the forest of the scene. *)
Definition detached (D : node) (s : scene) : Prop :=
  tree [D] /\ allocated (next s) [D]
  /\ forall r, In r (refs [D]) -> ~ In r (refs (files s)).

(** The number of places that hold the object [r]: positions of the list
    [l] and of the [children] arrays below it. *)
Fixpoint placesBelow (r : ref) (n : node) : nat :=
  match children n with
  | Some l =>
      fold_right (fun c rest =>
                    (if Nat.eqb (oid c) r then 1 else 0) + placesBelow r c + rest) 0 l
  | None => 0
  end.

Definition places (r : ref) (l : list node) : nat :=
  fold_right (fun c rest =>
                (if Nat.eqb (oid c) r then 1 else 0) + placesBelow r c + rest) 0 l.

(** ** Predicates of the handlers' specifications *)

(** Cloning returns, touches only the heap and the allocator, and numbers the
    copies with the next unused references. *)
Definition cloned (l l' : list node) (s s' : scene) : Prop :=
  heapOnly s s' /\ next s' = next s + size l /\ refs l' = seq (next s) (size l).

(** What [removeFile] answers: [true] with the array less one place, or
    [false] with the array as it was and the target nowhere in it; the scene
    keeps its forest meanwhile. *)
Definition removeSpec {A : Type} (sub : A -> A -> Prop) (absent : A -> Prop)
    (m : handler (bool * A)) (a : A) : Prop :=
  forall s,
    match m s with
    | (Returned (true, a'), s') => sub a a' /\ sameForest s s'
    | (Returned (false, a'), s') => a' = a /\ absent a /\ sameForest s s'
    | (Threw, s') => sameForest s s'
    end.

Definition removedBelow (target : ref) (n n' : node) : Prop :=
  oid n' = oid n /\
  exists l l', children n = Some l /\ children n' = Some l' /\ removedFrom target l l'.

(** The target is in none of the arrays below the places of [l]. *)
Definition absentBelow (target : ref) (l : list node) : Prop :=
  forall n, In n l -> ~ In target (orefs (children n)).

(** What [removeFile] has answered about the dragged object. *)
Definition answered (D : node) (l : list node) (r : bool * list node) : Prop :=
  if fst r then removedFrom (oid D) l (snd r)
  else snd r = l /\ ~ In (oid D) (refs l).

(** ** Arrow routing *)

(** [calculateOrthogonalPath] works on JavaScript numbers.  The route is
    built by copying coordinates, so the arithmetic stays a parameter: [num]
    with its operations and its test [lt a b] for [a < b]; [lit] reads the
    literals of the source. *)
Record point (num : Type) := Point { p_x : num; p_y : num }.
Arguments Point {num}.
Arguments p_x {num}.
Arguments p_y {num}.

Section Routing.
Variable num : Type.
Variables add sub mul div : num -> num -> num.
Variable neg abs : num -> num.
Variable lt : num -> num -> bool.
Variable lit : Z -> num.

Definition calculateOrthogonalPath (fromX fromY toX toY : num) : list (point num) :=
  let minDistance := lit 30 in
  let deltaX := sub toX fromX in
  let deltaY := sub toY fromY in
  let absX := abs deltaX in
  let absY := abs deltaY in
  if lt absX (lit 5) && lt absY (lit 5) then
    [Point fromX fromY; Point toX toY]
  else
    [Point fromX fromY] ++
    (if lt minDistance absX && lt minDistance absY then
       if lt absY absX then
         [Point (add fromX (div deltaX (lit 2))) fromY;
          Point (add fromX (div deltaX (lit 2))) toY]
       else
         [Point fromX (add fromY (div deltaY (lit 2)));
          Point toX (add fromY (div deltaY (lit 2)))]
     else if lt absY absX then
       if lt (mul minDistance (lit 2)) absX then
         let midX := add fromX (div deltaX (lit 2)) in
         [Point midX fromY; Point midX toY]
       else
         let detourY := add fromY (if lt (lit 0) deltaY then minDistance else neg minDistance) in
         [Point fromX detourY; Point toX detourY]
     else
       if lt (mul minDistance (lit 2)) absY then
         let midY := add fromY (div deltaY (lit 2)) in
         [Point fromX midY; Point toX midY]
       else
         let detourX := add fromX (if lt (lit 0) deltaX then minDistance else neg minDistance) in
         [Point detourX fromY; Point detourX toY]) ++
    [Point toX toY].
End Routing.

(** The segments of a route, and a segment along one of the axes. *)
Fixpoint segments {A : Type} (path : list A) : list (A * A) :=
  match path with
  | a :: (b :: _) as rest => (a, b) :: segments rest
  | _ => []
  end.

Definition axisParallel {num : Type} (segment : point num * point num) : Prop :=
  p_x (fst segment) = p_x (snd segment) \/ p_y (fst segment) = p_y (snd segment).

(** ** Vocabulary of the further properties *)

(** The scene after [removeFile]: the connections are filtered when the
    target was found, and nothing is written otherwise. *)
Definition removeFileState {A : Type} (target : ref) (m : handler (bool * A)) : Prop :=
  forall s,
    match m s with
    | (Returned (true, _), s') => s' = snd (forgetConnections target s)
    | (Returned (false, _), s') => s' = s
    | (Threw, s') => s' = s
    end.

(** What a forest holds: the objects with their nesting, the references
    forgotten.  [read] says which fields of an object are looked at. *)
Unset Elimination Schemes.
Inductive item : Type := Item { i_object : object; i_children : option (list item) }.
Set Elimination Schemes.

Fixpoint contents (read : ref -> object) (n : node) : item :=
  Item (read (oid n)) (option_map (map (contents read)) (children n)).

(** A condition on the scene that a handler keeps, whether it returns or
    throws. *)
Definition always {A : Type} (I : scene -> Prop) (m : handler A) : Prop :=
  forall s, I s -> I (snd (m s)).

Definition historyBounded (s : scene) : Prop :=
  List.length (history s) <= maxHistorySize.

(** The scene after a sequence of events. *)
Definition run (totalHeight : scene -> ref -> Z) (drawnBox : scene -> ref -> box)
    (onPath : scene -> connection -> Z -> Z -> bool) (events : list event) (s : scene)
    : scene :=
  fold_left (step totalHeight drawnBox onPath) events s.

(** A handler that leaves the history alone. *)
Definition keepsHistory {A : Type} (m : handler A) : Prop :=
  forall s, history (snd (m s)) = history s.

(** An object without its box: the fields that the layout does not write. *)
Definition unboxed (o : object) : object :=
  setBox o {| b_x := None; b_y := None; b_w := None; b_h := None |}.

Fixpoint itemMap (g : object -> object) (i : item) : item :=
  Item (g (i_object i)) (option_map (map (itemMap g)) (i_children i)).

(** What the scene shows apart from the layout: the objects of the forest
    with their names, types, flags and properties, and their nesting. *)
Definition described (s : scene) : list item :=
  map (contents (fun r => unboxed (store s r))) (files s).

(** A handler that leaves the history alone and writes at most the boxes of
    the objects that exist. *)
Definition layoutOnly {A : Type} (m : handler A) : Prop :=
  forall s,
    history (snd (m s)) = history s
    /\ next s <= next (snd (m s))
    /\ forall r, r < next s -> unboxed (store (snd (m s)) r) = unboxed (store s r).

(** Undo after the handler [m] gives back the history and what the scene
    showed before [m]. *)
Definition undone (drawnBox : scene -> ref -> box) (s : scene) (m : handler unit) : Prop :=
  history (snd (undo drawnBox (snd (m s)))) = history s
  /\ described (snd (undo drawnBox (snd (m s)))) = described s.

(** [getConnectedEventBoxes(component, type)]: the event boxes of one type
    that the arrows leaving [component] point to, each with its arrow. *)
Definition getConnectedEventBoxes (hp : heap) (connections : list connection)
    (component : ref) (type0 : string) : list (ref * connection) :=
  map (fun connection => (to connection, connection))
      (filter (fun connection =>
                 Nat.eqb (from connection) component
                 && isEventBox (hp (to connection))
                 && String.eqb (type (hp (to connection))) type0)
              connections).

(** [isToggleAt(x, y, list)]: whether the point is in the toggle area of a
    top-level object of the list. *)
Fixpoint isToggleAt (s : scene) (mx my : Z) (l : list node) : bool :=
  match l with
  | [] => false
  | file :: rest =>
      if includes (files s) (oid file) && inToggleArea (store s (oid file)) mx my
      then true
      else isToggleAt s mx my rest
  end.

(** A handler that writes nothing but boxes. *)
Definition boxesOnly {A : Type} (m : handler A) : Prop :=
  forall s,
    files (snd (m s)) = files s /\ history (snd (m s)) = history s
    /\ connections (snd (m s)) = connections s
    /\ forall r, unboxed (store (snd (m s)) r) = unboxed (store s r).

(** A handler that returns and writes nothing but the objects' fields. *)
Definition storeOnly (m : handler unit) : Prop :=
  forall s, exists hp, m s = (Returned tt, set_store hp s).

(** The arrows that [deleteComponent] keeps. *)
Definition apartFrom (component : ref) (connection : connection) : bool :=
  negb (Nat.eqb (from connection) component)
  && negb (Nat.eqb (to connection) component).

(** * Properties *)

Lemma forest_ind (P : node -> Prop) (Q : list node -> Prop) :
  (forall r, P (Node r None)) ->
  (forall r l, Q l -> P (Node r (Some l))) ->
  Q [] ->
  (forall n l, P n -> Q l -> Q (n :: l)) ->
  forall l, Q l.
Proof.
  intros Hleaf Hinner Hnil Hcons.
  assert (HP : forall n, P n).
  { induction n as [r | r l IH] using node_ind; auto.
    apply Hinner. induction IH; auto. }
  induction l; auto.
Qed.


(** ** Early-return loops *)

Lemma findFirst_Some {A B : Type} (f : A -> option B) (l : list A) (r : B) :
  findFirst f l = Some r -> exists a, In a l /\ f a = Some r.
Proof.
  induction l as [|a l IH]; simpl; [discriminate|].
  destruct (f a) as [b|] eqn:E.
  - intros [= <-]. exists a. auto.
  - intros H. destruct (IH H) as (a' & Hin & Ha'). exists a'. auto.
Qed.

Lemma findLast_Some {A B : Type} (f : A -> option B) (l : list A) (r : B) :
  findLast f l = Some r -> exists a, In a l /\ f a = Some r.
Proof.
  induction l as [|a l IH]; simpl; [discriminate|].
  destruct (findLast f l) as [b|] eqn:E.
  - intros [= <-]. destruct (IH eq_refl) as (a' & Hin & Ha'). exists a'. auto.
  - intros H. exists a. auto.
Qed.

Lemma findLast_app {A B : Type} (f : A -> option B) (l1 l2 : list A) :
  findLast f (l1 ++ l2) =
  match findLast f l2 with
  | Some r => Some r
  | None => findLast f l1
  end.
Proof.
  induction l1 as [|a l1 IH]; simpl.
  - destruct (findLast f l2); reflexivity.
  - rewrite IH. destruct (findLast f l2); reflexivity.
Qed.

(** ** The drop target *)

Section DropTarget.
Variable hp : heap.
Variables mx my : Z.
Variable draggedFile : node.

Lemma dropHere_valid (file r : node) :
  dropHere hp mx my draggedFile file = Some r -> validDropTarget hp draggedFile r.
Proof.
  unfold dropHere, validDropTarget.
  destruct (Nat.eqb (oid file) (oid draggedFile)) eqn:E1; simpl; [discriminate|].
  destruct (isEventBox (hp (oid file))) eqn:E2; simpl; [discriminate|].
  destruct (contains (hp (oid file)) mx my); simpl; [|discriminate].
  destruct (isDescendantOf (oid file) draggedFile) eqn:E3; simpl; [discriminate|].
  intros [= <-]. apply Nat.eqb_neq in E1. auto.
Qed.

Lemma dropLoops_valid (nested : node -> option node) (l : list node) (r : node) :
  Forall (fun file => forall t, nested file = Some t -> validDropTarget hp draggedFile t) l ->
  dropLoops hp mx my draggedFile nested l = Some r ->
  validDropTarget hp draggedFile r.
Proof.
  intros Hall. unfold dropLoops.
  destruct (findFirst (dropNested hp draggedFile nested) l) as [t|] eqn:E.
  - intros [= <-]. apply findFirst_Some in E. destruct E as (file & Hin & Hf).
    unfold dropNested in Hf.
    destruct (negb (Nat.eqb (oid file) (oid draggedFile))
              && nonEmpty (children file)
              && negb (isEventBox (hp (oid file)))); [|discriminate].
    rewrite Forall_forall in Hall. eapply Hall; eauto.
  - intros H. apply findFirst_Some in H. destruct H as (file & _ & Hf).
    eapply dropHere_valid; eauto.
Qed.

Lemma findDropTarget_children_valid (file r : node) :
  findDropTarget_children hp mx my draggedFile file = Some r ->
  validDropTarget hp draggedFile r.
Proof.
  revert r. induction file as [i | i l IH] using node_ind; intros r; simpl.
  - destruct (isEventBox (hp (oid draggedFile))); discriminate.
  - destruct (isEventBox (hp (oid draggedFile))); [discriminate|].
    apply dropLoops_valid. exact IH.
Qed.
End DropTarget.

(** C8.  Whatever the point, the dragged object and the list,
    [findDropTarget] never answers the dragged object itself, a descendant of
    it, or an event box, and it answers null when the dragged object is an
    event box. *)
Theorem findDropTarget_sound (hp : heap) (mx my : Z) (draggedFile : node) (l : list node) :
  (forall target, findDropTarget hp mx my draggedFile l = Some target ->
     oid target <> oid draggedFile
     /\ isDescendantOf (oid target) draggedFile = false
     /\ isEventBox (hp (oid target)) = false)
  /\ (isEventBox (hp (oid draggedFile)) = true ->
      findDropTarget hp mx my draggedFile l = None).
Proof.
  split.
  - intros target. unfold findDropTarget.
    destruct (isEventBox (hp (oid draggedFile))); [discriminate|].
    intros H. apply dropLoops_valid in H; [exact H|].
    apply Forall_forall. intros file _ t. apply findDropTarget_children_valid.
  - intros E. unfold findDropTarget. rewrite E. reflexivity.
Qed.

(** ** Hit testing *)

Lemma find_append {A : Type} (f : A -> bool) (l1 l2 : list A) :
  find f (l1 ++ l2) =
  match find f l1 with
  | Some r => Some r
  | None => find f l2
  end.
Proof.
  induction l1 as [|a l1 IH]; simpl; [reflexivity|].
  destruct (f a); [reflexivity|exact IH].
Qed.

Section HitTest.
Variable hp : heap.
Variable conns : list connection.
Variables mx my : Z.

Let hit (n : node) : bool := contains (hp (oid n)) mx my.

Lemma findFileAtPosition_children_eq (file : node) :
  findFileAtPosition_children hp conns mx my file =
  match children file with
  | Some l => findFileAtPosition hp conns mx my l
  | None => None
  end.
Proof. destruct file as [r [l|]]; reflexivity. Qed.

Lemma hitOrder_children_eq (file : node) :
  hitOrder_children hp conns file =
  match children file with
  | Some l => hitOrder hp conns l
  | None => []
  end.
Proof. destruct file as [r [l|]]; reflexivity. Qed.

Lemma hitOrder_cons (c : node) (l : list node) :
  hitOrder hp conns (c :: l) =
  hitOrder hp conns l ++
  (if hiddenEventBox hp conns c then [] else hitOrder_children hp conns c ++ [c]).
Proof. reflexivity. Qed.

Lemma hitOrder_app (l1 l2 : list node) :
  hitOrder hp conns (l1 ++ l2) = hitOrder hp conns l2 ++ hitOrder hp conns l1.
Proof.
  induction l1 as [|c l1 IH]; simpl.
  - rewrite app_nil_r. reflexivity.
  - fold (hitOrder hp conns (l1 ++ l2)). fold (hitOrder hp conns l1).
    rewrite IH, app_assoc. reflexivity.
Qed.

Lemma hitOrder_children_empty (file : node) :
  nonEmpty (children file) = false -> hitOrder_children hp conns file = [].
Proof. destruct file as [r [[|c l]|]]; simpl; intros; try reflexivity; discriminate. Qed.

Lemma hitStep_find (nested : node -> option node) (c : node) :
  nested c = find hit (hitOrder_children hp conns c) ->
  hitStep hp conns mx my nested c =
  find hit (if hiddenEventBox hp conns c then [] else hitOrder_children hp conns c ++ [c]).
Proof.
  intros Hn. unfold hitStep.
  destruct (hiddenEventBox hp conns c); [reflexivity|].
  rewrite find_append. simpl. fold (hit c).
  destruct (nonEmpty (children c)) eqn:E.
  - rewrite Hn. reflexivity.
  - rewrite (hitOrder_children_empty _ E). reflexivity.
Qed.

Lemma findFileAtPosition_hitOrder (l : list node) :
  findFileAtPosition hp conns mx my l = find hit (hitOrder hp conns l).
Proof.
  pattern l.
  apply forest_ind with
    (P := fun file => findFileAtPosition_children hp conns mx my file =
                      find hit (hitOrder_children hp conns file)); clear l.
  - reflexivity.
  - intros r l IH. exact IH.
  - reflexivity.
  - intros c l Hc Hl. rewrite hitOrder_cons, find_append.
    unfold findFileAtPosition in *. simpl. rewrite Hl.
    destruct (find hit (hitOrder hp conns l)); [reflexivity|].
    apply hitStep_find. exact Hc.
Qed.

Lemma findFileAtPosition_children_hitOrder (file : node) :
  findFileAtPosition_children hp conns mx my file =
  find hit (hitOrder_children hp conns file).
Proof.
  rewrite findFileAtPosition_children_eq, hitOrder_children_eq.
  destruct (children file); [apply findFileAtPosition_hitOrder|reflexivity].
Qed.

(** The box that is returned has no box below it under the point. *)
Lemma findFileAtPosition_deepest (l : list node) (r : node) :
  findFileAtPosition hp conns mx my l = Some r ->
  forall n, In n (hitOrder_children hp conns r) -> hit n = false.
Proof.
  revert r. pattern l.
  apply forest_ind with
    (P := fun file => forall r,
            findFileAtPosition_children hp conns mx my file = Some r ->
            forall n, In n (hitOrder_children hp conns r) -> hit n = false); clear l.
  - intros i r. discriminate.
  - intros i l IH r. exact (IH r).
  - intros r. discriminate.
  - intros c l Hc Hl r. unfold findFileAtPosition in *. simpl.
    destruct (findLast _ l) as [t|] eqn:E.
    + intros [= <-]. apply Hl. reflexivity.
    + unfold hitStep. destruct (hiddenEventBox hp conns c); [discriminate|].
      destruct (nonEmpty (children c)) eqn:Ene.
      * destruct (findFileAtPosition_children hp conns mx my c) as [t|] eqn:Et.
        -- intros [= <-]. apply Hc. reflexivity.
        -- destruct (contains (hp (oid c)) mx my); [|discriminate].
           intros [= <-] n Hn.
           rewrite findFileAtPosition_children_hitOrder in Et.
           eapply find_none in Et; eauto.
      * destruct (contains (hp (oid c)) mx my); [|discriminate].
        intros [= <-] n Hn.
        rewrite (hitOrder_children_empty _ Ene) in Hn. destruct Hn.
Qed.
End HitTest.

(** C7.  [findFileAtPosition] answers the first box under the point in the
    order that runs through a list from its last element to its first and
    through the boxes below an element before the element itself.  Hence the
    box it answers has no visible box below it under the point (a nested
    box wins over its ancestors), a later element of a list and what is below
    it win over the earlier elements, and for a box [N] nested alone in [P]
    with the point in the box of [N] the answer is [N]. *)
Theorem findFileAtPosition_priority (hp : heap) (conns : list connection) (mx my : Z) :
  (forall l,
     findFileAtPosition hp conns mx my l =
     find (fun n => contains (hp (oid n)) mx my) (hitOrder hp conns l))
  /\ (forall l c,
        hitOrder hp conns (l ++ [c]) =
        (if hiddenEventBox hp conns c then []
         else hitOrder_children hp conns c ++ [c]) ++ hitOrder hp conns l)
  /\ (forall l P N,
        findFileAtPosition hp conns mx my l = Some P ->
        In N (hitOrder_children hp conns P) ->
        contains (hp (oid N)) mx my = false)
  /\ (forall l1 l2,
        findFileAtPosition hp conns mx my (l1 ++ l2) =
        match findFileAtPosition hp conns mx my l2 with
        | Some r => Some r
        | None => findFileAtPosition hp conns mx my l1
        end)
  /\ (forall p n grandchildren,
        hiddenEventBox hp conns (Node p (Some [Node n grandchildren])) = false ->
        hiddenEventBox hp conns (Node n grandchildren) = false ->
        nonEmpty grandchildren = false ->
        contains (hp n) mx my = true ->
        findFileAtPosition hp conns mx my [Node p (Some [Node n grandchildren])]
        = Some (Node n grandchildren)).
Proof.
  split; [|split; [|split; [|split]]].
  - apply findFileAtPosition_hitOrder.
  - intros l c. rewrite hitOrder_app. reflexivity.
  - intros l P N H HN. eapply findFileAtPosition_deepest; eassumption.
  - intros l1 l2. apply findLast_app.
  - intros p n g Hp Hn Hg Hc.
    unfold findFileAtPosition. simpl. unfold hitStep at 1. rewrite Hp. simpl.
    unfold hitStep. rewrite Hn. simpl. rewrite Hg, Hc. reflexivity.
Qed.

(** ** Frames *)

Lemma heapOnly_refl (s : scene) : heapOnly s s.
Proof. destruct s; reflexivity. Qed.

Lemma heapOnly_trans (s1 s2 s3 : scene) :
  heapOnly s1 s2 -> heapOnly s2 s3 -> heapOnly s1 s3.
Proof.
  unfold heapOnly. intros H12 H23. rewrite H23. rewrite H12. reflexivity.
Qed.

Lemma heapOnly_set_store (s : scene) (hp : heap) : heapOnly s (set_store hp s).
Proof. destruct s; reflexivity. Qed.

Lemma heapOnly_set_next (s : scene) (n : ref) : heapOnly s (set_next n s).
Proof. destruct s; reflexivity. Qed.

Lemma heapOnly_files (s s' : scene) : heapOnly s s' -> files s' = files s.
Proof. intros ->. reflexivity. Qed.

Lemma heapOnly_connections (s s' : scene) : heapOnly s s' -> connections s' = connections s.
Proof. intros ->. reflexivity. Qed.

Lemma heapOnly_selectedFile (s s' : scene) : heapOnly s s' -> selectedFile s' = selectedFile s.
Proof. intros ->. reflexivity. Qed.

Lemma heapOnly_history (s s' : scene) : heapOnly s s' -> history s' = history s.
Proof. intros ->. reflexivity. Qed.

Lemma refs_cons (n : node) (l : list node) :
  refs (n :: l) = refs [n] ++ refs l.
Proof.
  unfold refs, flattenComponents. simpl. rewrite app_nil_r, map_app. reflexivity.
Qed.

Lemma refs_app (l1 l2 : list node) : refs (l1 ++ l2) = refs l1 ++ refs l2.
Proof.
  unfold refs, flattenComponents. rewrite flat_map_app, map_app. reflexivity.
Qed.

Lemma refs_node (r : ref) (c : option (list node)) :
  refs [Node r c] = r :: match c with Some l => refs l | None => [] end.
Proof.
  unfold refs, flattenComponents. simpl. rewrite app_nil_r.
  destruct c; reflexivity.
Qed.

Lemma size_cons (n : node) (l : list node) : size (n :: l) = size [n] + size l.
Proof.
  unfold size, flattenComponents. simpl. rewrite app_nil_r, length_app. reflexivity.
Qed.

Lemma size_node (r : ref) (c : option (list node)) :
  size [Node r c] = S (match c with Some l => size l | None => 0 end).
Proof.
  unfold size, flattenComponents. simpl. rewrite app_nil_r.
  destruct c; reflexivity.
Qed.

Lemma size_refs (l : list node) : List.length (refs l) = size l.
Proof. unfold refs, size. apply length_map. Qed.

(** ** Snapshots *)

Lemma cloneComponent_eq (component : node) :
  cloneComponent component =
  (r <- alloc ;;
   o <- gets (fun s => store s (oid component)) ;;
   setObject r o ;;;
   match children component with
   | None => ret (Node r None)
   | Some l => l' <- mapM cloneComponent l ;; ret (Node r (Some l'))
   end)%handler.
Proof. destruct component as [r [l|]]; reflexivity. Qed.

Lemma cloneComponent_spec (l : list node) :
  forall s, exists l' s',
    mapM cloneComponent l s = (Returned l', s') /\ cloned l l' s s'.
Proof.
  pattern l.
  apply forest_ind with
    (P := fun n => forall s, exists n' s',
            cloneComponent n s = (Returned n', s') /\ cloned [n] [n'] s s'); clear l.
  - intros r s. eexists _, _. split; [reflexivity|].
    split; [|split].
    + destruct s; reflexivity.
    + rewrite size_node. simpl. lia.
    + rewrite size_node. reflexivity.
  - intros r l IH s.
    set (s1 := set_store (upd (store s) (next s) (store s r)) (set_next (S (next s)) s)).
    destruct (IH s1) as (l' & s' & Hrun & Hfr & Hnext & Hrefs).
    exists (Node (next s) (Some l')), s'.
    split.
    { rewrite cloneComponent_eq.
      cbv [bind alloc gets setObject modify ret]. cbn [children oid store set_next].
      fold s1. rewrite Hrun. reflexivity. }
    split; [|split].
    + eapply heapOnly_trans; [|exact Hfr]. subst s1. destruct s; reflexivity.
    + rewrite Hnext, size_node. subst s1. simpl. lia.
    + rewrite refs_node, size_node, Hrefs. subst s1. reflexivity.
  - intros s. exists [], s. split; [reflexivity|].
    split; [apply heapOnly_refl|]. split; [unfold size; simpl; lia|reflexivity].
  - intros n l Hn Hl s.
    destruct (Hn s) as (n' & s1 & Hrun & Hfr & Hnext & Hrefs).
    destruct (Hl s1) as (l' & s2 & Hrun' & Hfr' & Hnext' & Hrefs').
    exists (n' :: l'), s2.
    split.
    { simpl. unfold bind at 1. rewrite Hrun. unfold bind at 1. rewrite Hrun'. reflexivity. }
    split; [|split].
    + eapply heapOnly_trans; eassumption.
    + rewrite Hnext', Hnext, (size_cons n l). lia.
    + rewrite (refs_cons n' l'), Hrefs, Hrefs', Hnext, (size_cons n l), seq_app.
      reflexivity.
Qed.

Lemma saveState_spec (s : scene) :
  exists copies s1,
    cloned (files s) copies s s1
    /\ saveState s =
       (Returned tt, set_history (trim (history s1 ++ [snapshot copies s1])) s1).
Proof.
  destruct (cloneComponent_spec (files s) s) as (copies & s1 & Hrun & Hcl).
  exists copies, s1. split; [exact Hcl|].
  unfold saveState. cbv [bind gets modify]. rewrite Hrun. reflexivity.
Qed.

Lemma saveState_connections (s : scene) :
  connections (snd (saveState s)) = connections s.
Proof.
  destruct (saveState_spec s) as (copies & s1 & (Hfr & _) & ->).
  simpl. apply heapOnly_connections. exact Hfr.
Qed.

Lemma saveState_files (s : scene) : files (snd (saveState s)) = files s.
Proof.
  destruct (saveState_spec s) as (copies & s1 & (Hfr & _) & ->).
  simpl. apply heapOnly_files. exact Hfr.
Qed.

Lemma saveState_returns (s : scene) : fst (saveState s) = Returned tt.
Proof. destruct (saveState_spec s) as (copies & s1 & _ & ->). reflexivity. Qed.

(** ** Connections *)

Lemma samePair_sym (a b : ref) (c : connection) : samePair a b c = samePair b a c.
Proof. unfold samePair. apply orb_comm. Qed.

Lemma connectionsBetween_sym (a b : ref) (conns : list connection) :
  connectionsBetween a b conns = connectionsBetween b a conns.
Proof. unfold connectionsBetween. apply filter_ext. intros c. apply samePair_sym. Qed.

Lemma find_samePair (a b : ref) (conns : list connection) :
  find (fun conn =>
          (Nat.eqb (from conn) a && Nat.eqb (to conn) b)
          || (Nat.eqb (from conn) b && Nat.eqb (to conn) a)) conns = None <->
  connectionsBetween a b conns = [].
Proof.
  unfold connectionsBetween. fold (samePair a b).
  induction conns as [|c l IH]; simpl; [tauto|].
  change ((Nat.eqb (from c) a && Nat.eqb (to c) b)
          || (Nat.eqb (from c) b && Nat.eqb (to c) a)) with (samePair a b c).
  destruct (samePair a b c); [split; discriminate|exact IH].
Qed.

Section Connecting.
Variable drawnBox : scene -> ref -> box.
Variables mx my now : Z.

(** What the click in connection mode does to the list of arrows. *)
Lemma mousedownConnecting_connections (s : scene) :
  connections (snd (mousedownConnecting drawnBox mx my now s)) =
  match findFileAtPosition (store s) (connections s) mx my (files s), connectionStart s with
  | Some clickedFile, Some start =>
      if negb (Nat.eqb (oid clickedFile) start) then
        match connectionsBetween start (oid clickedFile) (connections s) with
        | [] => connections s ++
                [{| cref := next s; id := now; from := start; to := oid clickedFile |}]
        | _ :: _ => connections s
        end
      else connections s
  | _, _ => connections s
  end.
Proof.
  unfold mousedownConnecting. cbv [bind gets].
  destruct (findFileAtPosition (store s) (connections s) mx my (files s)) as [clickedFile|];
    [|reflexivity].
  destruct (connectionStart s) as [start|]; [|reflexivity].
  destruct (negb (Nat.eqb (oid clickedFile) start)); [|reflexivity].
  destruct (find _ (connections s)) as [c|] eqn:E.
  - destruct (connectionsBetween start (oid clickedFile) (connections s)) eqn:Eb.
    + apply find_samePair in Eb. congruence.
    + reflexivity.
  - apply find_samePair in E. rewrite E.
    cbv [alloc modify]. 
    match goal with |- context [saveState ?t] => 
      pose proof (saveState_connections t) as Hc;
      pose proof (saveState_returns t) as Hr;
      destruct (saveState t) as [o s2] end.
    simpl in Hc, Hr. subst o. simpl. exact Hc.
Qed.
End Connecting.

Lemma connectionsBetween_app (a b : ref) (l1 l2 : list connection) :
  connectionsBetween a b (l1 ++ l2) = connectionsBetween a b l1 ++ connectionsBetween a b l2.
Proof. apply filter_app. Qed.

Lemma samePair_same (a b a' b' r : ref) (i : Z) (conns : list connection) :
  samePair a' b' {| cref := r; id := i; from := a; to := b |} = true ->
  connectionsBetween a' b' conns = connectionsBetween a b conns.
Proof.
  unfold samePair. simpl. intros H.
  apply orb_true_iff in H. destruct H as [H|H];
    apply andb_true_iff in H; destruct H as [H1 H2];
    apply Nat.eqb_eq in H1, H2; subst.
  - reflexivity.
  - apply connectionsBetween_sym.
Qed.

Lemma atMostOnePerPair_add (a b r : ref) (i : Z) (conns : list connection) :
  atMostOnePerPair conns ->
  connectionsBetween a b conns = [] ->
  atMostOnePerPair (conns ++ [{| cref := r; id := i; from := a; to := b |}]).
Proof.
  intros Hinv Hnone a' b'. rewrite connectionsBetween_app, length_app.
  unfold connectionsBetween at 2. simpl.
  destruct (samePair a' b' _) eqn:E.
  - rewrite (@samePair_same a b a' b' r i conns E), Hnone. simpl. lia.
  - simpl. specialize (Hinv a' b'). lia.
Qed.

(** X22.  The click that completes an arrow in connection mode keeps at most
    one arrow per unordered pair of objects: when an arrow already joins the
    two objects, in either direction, the list of arrows is left as it was.
    So after an arrow from [A] to [B] has been made, asking for one from [B]
    to [A] changes nothing and the pair has exactly one arrow. *)
Theorem connection_unique_per_pair
    (drawnBox : scene -> ref -> box) (mx my now : Z) (s : scene) :
  let s' := snd (mousedownConnecting drawnBox mx my now s) in
  (atMostOnePerPair (connections s) -> atMostOnePerPair (connections s'))
  /\ (forall start clickedFile,
        connectionStart s = Some start ->
        findFileAtPosition (store s) (connections s) mx my (files s) = Some clickedFile ->
        connectionsBetween start (oid clickedFile) (connections s) <> [] ->
        connections s' = connections s)
  /\ (forall A B mx2 my2 now2 s2,
        connectionStart s = Some (oid A) ->
        findFileAtPosition (store s) (connections s) mx my (files s) = Some B ->
        oid A <> oid B ->
        connectionsBetween (oid A) (oid B) (connections s) = [] ->
        connections s2 = connections s' ->
        connectionStart s2 = Some (oid B) ->
        findFileAtPosition (store s2) (connections s2) mx2 my2 (files s2) = Some A ->
        List.length (connectionsBetween (oid A) (oid B) (connections s')) = 1
        /\ connections (snd (mousedownConnecting drawnBox mx2 my2 now2 s2)) = connections s').
Proof.
  intros s'. subst s'. rewrite mousedownConnecting_connections.
  split; [|split].
  - intros Hinv.
    destruct (findFileAtPosition _ _ _ _ _) as [clickedFile|]; [|exact Hinv].
    destruct (connectionStart s) as [start|]; [|exact Hinv].
    destruct (negb _); [|exact Hinv].
    destruct (connectionsBetween start (oid clickedFile) (connections s)) eqn:E; [|exact Hinv].
    apply atMostOnePerPair_add; assumption.
  - intros start clickedFile -> -> Hex.
    destruct (negb _); [|reflexivity].
    destruct (connectionsBetween start (oid clickedFile) (connections s)); [congruence|reflexivity].
  - intros A B mx2 my2 now2 s2 -> -> Hne Hnone Hc2 Hs2 Hhit2.
    assert (Hneb : negb (Nat.eqb (oid B) (oid A)) = true).
    { apply negb_true_iff, Nat.eqb_neq. congruence. }
    rewrite Hneb, Hnone in *.
    assert (Hone : connectionsBetween (oid A) (oid B)
                     (connections s ++
                      [{| cref := next s; id := now; from := oid A; to := oid B |}])
                   = [{| cref := next s; id := now; from := oid A; to := oid B |}]).
    { rewrite connectionsBetween_app, Hnone. unfold connectionsBetween, samePair. simpl.
      rewrite !Nat.eqb_refl. reflexivity. }
    split.
    + rewrite Hone. reflexivity.
    + rewrite mousedownConnecting_connections, Hhit2, Hs2.
      assert (Hneb2 : negb (Nat.eqb (oid A) (oid B)) = true).
      { apply negb_true_iff, Nat.eqb_neq. congruence. }
      rewrite Hneb2, Hc2, (connectionsBetween_sym (oid B) (oid A)), Hone. reflexivity.
Qed.

(** ** Duplication *)

Lemma mapM_heapOnly {A B : Type} (f : A -> handler B) (l : list A) :
  Forall (fun a => forall s, heapOnly s (snd (f a s))) l ->
  forall s, heapOnly s (snd (mapM f l s)).
Proof.
  induction 1 as [|a l Ha _ IH]; intros s; simpl.
  - apply heapOnly_refl.
  - unfold bind at 1. specialize (Ha s). destruct (f a s) as [[b|] s1]; simpl in *; [|exact Ha].
    unfold bind at 1. specialize (IH s1).
    destruct (mapM f l s1) as [[bs|] s2]; simpl in *;
      eapply heapOnly_trans; eassumption.
Qed.

Lemma deepCloneComponent_heapOnly (component : node) :
  forall s, heapOnly s (snd (deepCloneComponent component s)).
Proof.
  induction component as [r | r l IH] using node_ind; intros s.
  - apply heapOnly_refl.
  - simpl. unfold bind at 1.
    pose proof (mapM_heapOnly deepCloneComponent IH s) as H.
    destruct (mapM deepCloneComponent l s) as [[l'|] s1]; simpl in *; [|exact H].
    eapply heapOnly_trans; [exact H|]. destruct s1; reflexivity.
Qed.

(** C2.  [duplicateComponent] throws on every component and every scene: the
    copy is made, but it is never put in a list and never selected.  (On a
    component without a [children] field the copy itself throws.) *)
Theorem duplicateComponent_throws
    (drawnBox : scene -> ref -> box) (originalFile : node) (mx my : Z) (s : scene) :
  let r := duplicateComponent drawnBox originalFile mx my s in
  fst r = Threw
  /\ files (snd r) = files s
  /\ selectedFile (snd r) = selectedFile s.
Proof.
  intros r. subst r. unfold duplicateComponent.
  cbv [bind gets setObject modify throwTypeError].
  pose proof (deepCloneComponent_heapOnly originalFile s) as H.
  destruct (deepCloneComponent originalFile s) as [[d|] s1]; simpl in *;
    rewrite <- (heapOnly_files H), <- (heapOnly_selectedFile H); repeat split.
Qed.

(** ** The handlers on the example scenes *)

Section Examples.
Variable totalHeight : scene -> ref -> Z.
Variable drawnBox : scene -> ref -> box.
Variable onPath : scene -> connection -> Z -> Z -> bool.

(** C10.  With [Gamma] (object 3, nested in [Beta]) selected and the hook
    box before [Beta] in the top-level list, [removeFile] throws when its
    loop reaches the hook box, which has no [children]; the Delete key
    handler stops there and nothing is removed. *)
Theorem removeFile_throws_at_event_box :
  fst (removeFile 3 (files withHookBox) withHookBox) = Threw
  /\ (let r := keydown totalHeight drawnBox "Delete" false (selecting 3 true withHookBox) in
      fst r = Threw /\ files (snd r) = files withHookBox).
Proof. vm_compute. repeat split. Qed.

(** C4.  Deleting [Beta] (object 1), which holds [Gamma] (object 2), removes
    both from the forest but leaves the arrow from [Gamma] to [Alpha] in the
    list, by the Delete key on a single selection and on a multi-selection
    alike. *)
Theorem delete_keeps_arrows_of_descendants :
  (let s' := snd (keydown totalHeight drawnBox "Delete" false
                    (selecting 1 false nestedWithArrow)) in
   files s' = [Node 0 (Some [])]
   /\ connections s' = [{| cref := 3; id := 1%Z; from := 2; to := 0 |}]
   /\ findNode 2 (files s') = None)
  /\ (let s' := snd (keydown totalHeight drawnBox "Delete" false
                       (set_multiSelectedFiles [1] nestedWithArrow)) in
      files s' = [Node 0 (Some [])]
      /\ connections s' = [{| cref := 3; id := 1%Z; from := 2; to := 0 |}]
      /\ findNode 2 (files s') = None).
Proof. vm_compute. repeat split. Qed.

(** C3.  The second click in connection mode pushes its snapshot after the
    arrow has been added: the scene had no arrow, the entry on top of the
    history has one.  The click on a toggle pushes its snapshot after the
    flag has been flipped: [Alpha] was expanded, its copy in the entry is
    collapsed. *)
Theorem snapshot_after_mutation :
  (let s := connectingFrom 0 twoComponents in
   let s' := snd (mousedown drawnBox onPath 310 60 false 7 s) in
   connections s = []
   /\ connections s' = [{| cref := 2; id := 7%Z; from := 0; to := 1 |}]
   /\ map (fun e => map s_id (st_connections e)) (history s') = [[7%Z]])
  /\ (let s' := snd (click totalHeight drawnBox 60 60 false false twoComponents) in
      expanded (store twoComponents 0) = true
      /\ map (fun e => map (fun n => expanded (store s' (oid n))) (st_files e))
             (history s') = [[false; true]]).
Proof. vm_compute. repeat split. Qed.

(** C6.  With [Alpha] (object 0) selected, a component is added and the
    addition undone.  The forest that comes back consists of the copies
    (objects 2 and 3, with the names and positions of the originals); the
    selection that comes back is the reference to the original [Alpha],
    which is in no list of the restored forest. *)
Theorem undo_selection_outside_forest :
  let S := selecting 0 false twoComponents in
  let S' := snd (keydown totalHeight drawnBox "z" true
                   (snd (finishInput drawnBox "Gamma" 50 300 S))) in
  (selectedFile S = Some 0 /\ findNode 0 (files S) = Some (Node 0 (Some [])))
  /\ files S' = [Node 2 (Some []); Node 3 (Some [])]
  /\ map (fun n => name (store S' (oid n))) (files S') = ["Alpha"%string; "Beta"%string]
  /\ selectedFile S' = Some 0
  /\ findNode 0 (files S') = None.
Proof. vm_compute. repeat split. Qed.

(** C9.  A click on the arrow of [joined] selects it.  With the arrow
    selected, a click on [Alpha] away from the arrow selects [Alpha] and
    leaves the arrow selected. *)
Theorem node_click_keeps_selectedConnection :
  let c := {| cref := 2; id := 1%Z; from := 0; to := 1 |} in
  selectedConnection (snd (mousedown drawnBox midPath 275 80 false 0 joined)) = Some c
  /\ (let s' := snd (mousedown drawnBox midPath 150 70 false 0
                       (set_selectedConnection (Some c) joined)) in
      selectedFile s' = Some 0 /\ selectedConnection s' = Some c).
Proof. vm_compute. repeat split. Qed.
End Examples.

(** ** Reasoning about handlers *)

Lemma hoare_bind {A B : Type} (P : scene -> Prop) (m : handler A) (Q : A -> scene -> Prop)
    (k : A -> handler B) (R : B -> scene -> Prop) :
  hoare P m Q -> (forall a, hoare (Q a) (k a) R) -> hoare P (bind m k) R.
Proof.
  intros Hm Hk s HP. unfold bind. specialize (Hm s HP).
  destruct (m s) as [[a|] s']; [|exact Hm].
  apply Hk. exact Hm.
Qed.

Lemma hoare_weaken {A : Type} (P P' : scene -> Prop) (m : handler A)
    (Q Q' : A -> scene -> Prop) :
  hoare P' m Q' -> (forall s, P s -> P' s) -> (forall a s, Q' a s -> Q a s) ->
  hoare P m Q.
Proof.
  intros Hm HP HQ s Hs. specialize (Hm s (HP s Hs)).
  destruct (m s) as [[a|] s']; auto.
Qed.

Lemma hoare_ret {A : Type} (P : scene -> Prop) (a : A) : hoare P (ret a) (fun _ => P).
Proof. intros s HP. exact HP. Qed.

Lemma hoare_gets {A : Type} (P : scene -> Prop) (f : scene -> A) :
  hoare P (gets f) (fun a s => P s /\ a = f s).
Proof. intros s HP. simpl. auto. Qed.

Lemma hoare_modify (P Q : scene -> Prop) (f : scene -> scene) :
  (forall s, P s -> Q (f s)) -> hoare P (modify f) (fun _ => Q).
Proof. intros H s HP. simpl. auto. Qed.

Lemma hoare_throw {A : Type} (P : scene -> Prop) (Q : A -> scene -> Prop) :
  (forall s, P s -> wellFormed s) -> hoare P throwTypeError Q.
Proof. intros H s HP. simpl. auto. Qed.

Lemma keeps_bind {A B : Type} (m : handler A) (k : A -> handler B) :
  keeps m -> (forall a, keeps (k a)) -> keeps (bind m k).
Proof. intros Hm Hk. eapply hoare_bind; [exact Hm|exact Hk]. Qed.

Lemma keeps_ret {A : Type} (a : A) : keeps (ret a).
Proof. apply hoare_ret. Qed.

Lemma keeps_gets {A : Type} (f : scene -> A) : keeps (gets f).
Proof. intros s H. exact H. Qed.

Lemma keeps_throw {A : Type} : keeps (@throwTypeError A).
Proof. intros s H. exact H. Qed.

Lemma keeps_when (b : bool) (m : handler unit) : keeps m -> keeps (when b m).
Proof. destruct b; [auto|intros; apply keeps_ret]. Qed.

Lemma keeps_forEach {A : Type} (body : A -> handler unit) (l : list A) :
  (forall a, keeps (body a)) -> keeps (forEach body l).
Proof.
  intros H. induction l as [|a l IH]; simpl.
  - apply keeps_ret.
  - apply keeps_bind; auto.
Qed.

Lemma keeps_forEach_in {A : Type} (body : A -> handler unit) (l : list A) :
  Forall (fun a => keeps (body a)) l -> keeps (forEach body l).
Proof.
  induction 1 as [|a l Ha _ IH]; simpl.
  - apply keeps_ret.
  - apply keeps_bind; auto.
Qed.

Lemma keeps_mapM {A B : Type} (f : A -> handler B) (l : list A) :
  Forall (fun a => keeps (f a)) l -> keeps (mapM f l).
Proof.
  induction 1 as [|a l Ha _ IH]; simpl.
  - apply keeps_ret.
  - apply keeps_bind; [exact Ha|]. intros b.
    apply keeps_bind; [exact IH|]. intros bs. apply keeps_ret.
Qed.

(** A change that leaves the forest and the history alone and does not move
    the allocator back. *)
Lemma wellFormed_same (s s' : scene) :
  files s' = files s -> history s' = history s -> next s <= next s' ->
  wellFormed s -> wellFormed s'.
Proof.
  intros Hf Hh Hn (Ht & Ha & Hhist). unfold wellFormed. rewrite Hf, Hh.
  split; [exact Ht|]. split.
  - intros r Hr. specialize (Ha r Hr). lia.
  - eapply Forall_impl; [|exact Hhist]. intros e [He1 He2]. split; [exact He1|].
    intros r Hr. specialize (He2 r Hr). lia.
Qed.

Lemma keeps_modify (f : scene -> scene) :
  (forall s, files (f s) = files s /\ history (f s) = history s /\ next s <= next (f s)) ->
  keeps (modify f).
Proof.
  intros H. apply hoare_modify. intros s Hs.
  destruct (H s) as (Hf & Hh & Hn). eapply wellFormed_same; eauto.
Qed.

Ltac frame :=
  apply keeps_modify; intros ?; cbn; repeat split; lia.

Ltac keeps_step :=
  first
    [ apply keeps_ret
    | apply keeps_throw
    | apply keeps_gets
    | apply keeps_when
    | frame
    | apply keeps_bind; [|intros ?] ].

Lemma keeps_clearSelection : keeps clearSelection.
Proof. unfold clearSelection. frame. Qed.

Lemma keeps_addToMultiSelection (component : ref) : keeps (addToMultiSelection component).
Proof. unfold addToMultiSelection. frame. Qed.

Lemma keeps_removeFromMultiSelection (component : ref) :
  keeps (removeFromMultiSelection component).
Proof. unfold removeFromMultiSelection. frame. Qed.

Lemma keeps_resetConnectionMode : keeps resetConnectionMode.
Proof. unfold resetConnectionMode. frame. Qed.

Lemma keeps_forgetConnections (target : ref) : keeps (forgetConnections target).
Proof.
  unfold forgetConnections. apply keeps_modify. intros s. cbn.
  destruct (selectedConnection s) as [c|]; [|cbn; repeat split; lia].
  destruct (Nat.eqb (from c) target || Nat.eqb (to c) target); cbn; repeat split; lia.
Qed.

Lemma keeps_setObject (r : ref) (o : object) : keeps (setObject r o).
Proof. unfold setObject. frame. Qed.

Lemma keeps_alloc : keeps alloc.
Proof.
  intros s Hs. simpl. eapply wellFormed_same; [| |  |exact Hs]; cbn; auto.
Qed.

Create HintDb keeps.

#[local] Hint Resolve keeps_clearSelection keeps_addToMultiSelection
  keeps_removeFromMultiSelection keeps_resetConnectionMode keeps_forgetConnections
  keeps_setObject keeps_alloc : keeps.

Section KeepsLayout.
Variable totalHeight : scene -> ref -> Z.
Variable drawnBox : scene -> ref -> box.
Variable onPath : scene -> connection -> Z -> Z -> bool.

Lemma keeps_updateParentHeight (p : ref) : keeps (updateParentHeight totalHeight p).
Proof. unfold updateParentHeight. frame. Qed.

Lemma keeps_draw : keeps (draw drawnBox).
Proof. unfold draw. frame. Qed.

Lemma keeps_repositionChildrenInParent (n : node) :
  keeps (repositionChildrenInParent totalHeight n).
Proof.
  induction n as [r | r l IH] using node_ind; simpl.
  - apply keeps_bind; [apply keeps_updateParentHeight|intros; apply keeps_ret].
  - apply keeps_bind; [apply keeps_updateParentHeight|intros _].
    apply keeps_forEach_in. eapply Forall_impl; [|exact IH].
    intros c Hc. destruct (nonEmpty (children c)); [exact Hc|apply keeps_ret].
Qed.

Lemma keeps_withNode (r : ref) (k : node -> handler unit) :
  (forall n, keeps (k n)) -> keeps (withNode r k).
Proof.
  intros H. unfold withNode. apply keeps_bind; [apply keeps_gets|intros fs].
  destruct (findNode r fs); [apply H|apply keeps_ret].
Qed.

Lemma keeps_updateAllParentHeights (l : list node) :
  keeps (updateAllParentHeights totalHeight l).
Proof.
  unfold updateAllParentHeights. pattern l.
  apply forest_ind with
    (P := fun n => keeps (updateAllParentHeights_file totalHeight n)); clear l.
  - intros r. simpl. apply keeps_bind; [apply keeps_gets|intros e].
    destruct e; [|apply keeps_ret].
    apply keeps_bind; [apply keeps_updateParentHeight|intros; apply keeps_throw].
  - intros r l IH. simpl. apply keeps_bind; [apply keeps_gets|intros e].
    destruct e; [|apply keeps_ret].
    apply keeps_bind; [apply keeps_updateParentHeight|intros _; exact IH].
  - apply keeps_ret.
  - intros n l Hn Hl. simpl. apply keeps_bind; [exact Hn|intros _; exact Hl].
Qed.

Lemma keeps_toggleAt (mx my : Z) (l : list node) : keeps (toggleAt totalHeight mx my l).
Proof.
  induction l as [|file rest IH]; simpl.
  - apply keeps_ret.
  - apply keeps_bind; [apply keeps_gets|intros s].
    destruct (includes (files s) (oid file) && inToggleArea (store s (oid file)) mx my);
      [|exact IH].
    apply keeps_bind; [apply keeps_setObject|intros _].
    apply keeps_bind.
    + destruct (negb (expanded (store s (oid file)))); [|apply keeps_ret].
      destruct (children file) as [[|c cs]|];
        [apply keeps_ret|apply keeps_repositionChildrenInParent|apply keeps_throw].
    + intros _. apply keeps_bind; [apply keeps_gets|intros fs].
      apply keeps_bind; [apply keeps_updateAllParentHeights|intros; apply keeps_ret].
Qed.
End KeepsLayout.

(** ** The history keeps the scene well formed *)

Lemma Forall_tl {A : Type} (P : A -> Prop) (l : list A) : Forall P l -> Forall P (tl l).
Proof. destruct 1; simpl; auto. Qed.

Lemma keeps_saveState : keeps saveState.
Proof.
  intros s (Ht & Ha & Hh).
  destruct (saveState_spec s) as (copies & s1 & (Hfr & Hnext & Hrefs) & ->).
  unfold wellFormed. cbn.
  rewrite (heapOnly_files Hfr), (heapOnly_history Hfr).
  split; [exact Ht|]. split.
  - intros r Hr. specialize (Ha r Hr). lia.
  - unfold trim.
    assert (Hall : Forall (fun e => tree (st_files e) /\ allocated (next s1) (st_files e))
                     (history s ++ [snapshot copies s1])).
    { apply Forall_app. split.
      - eapply Forall_impl; [|exact Hh]. intros e [He1 He2]. split; [exact He1|].
        intros r Hr. specialize (He2 r Hr). lia.
      - constructor; [|constructor]. simpl. split.
        + unfold tree. rewrite Hrefs. apply seq_NoDup.
        + intros r. rewrite Hrefs, in_seq. lia. }
    destruct (Nat.ltb maxHistorySize _); [apply Forall_tl|]; exact Hall.
Qed.

Lemma keeps_reconstructConnections (saved : list savedConnection) (loadedFiles : list node) :
  keeps (reconstructConnections saved loadedFiles).
Proof.
  induction saved as [|c rest IH]; simpl.
  - apply keeps_ret.
  - apply keeps_bind; [apply keeps_gets|intros hp].
    destruct (findComponentByProperties hp _ (s_from c)); [|exact IH].
    destruct (findComponentByProperties hp _ (s_to c)); [|exact IH].
    apply keeps_bind; [apply keeps_alloc|intros r].
    apply keeps_bind; [exact IH|intros others; apply keeps_ret].
Qed.

Lemma pop_Some {A : Type} (l : list A) (a : A) (older : list A) :
  pop l = Some (a, older) -> l = older ++ [a].
Proof.
  unfold pop. destruct (rev l) as [|b bs] eqn:E; [discriminate|].
  intros [= <- <-]. rewrite <- (rev_involutive l), E. reflexivity.
Qed.

Section KeepsUndo.
Variable drawnBox : scene -> ref -> box.

Lemma keeps_undo : keeps (undo drawnBox).
Proof.
  unfold undo. intros s Hs. cbv [bind gets]. 
  destruct (pop (history s)) as [[previousState older]|] eqn:E; [|exact Hs].
  apply pop_Some in E.
  destruct Hs as (Ht & Ha & Hh). rewrite E in Hh. apply Forall_app in Hh.
  destruct Hh as [Hold Hprev]. inversion Hprev as [|? ? [Hpt Hpa] _]; subst.
  cbv [modify].
  set (s1 := set_files (st_files previousState) (set_history older s)).
  assert (Hs1 : wellFormed s1).
  { unfold wellFormed. cbn. auto. }
  clearbody s1.
  pose proof (keeps_reconstructConnections (st_connections previousState)
                (st_files previousState)) as Hrec.
  specialize (Hrec s1 Hs1).
  destruct (reconstructConnections _ _ s1) as [[conns|] s2]; [|exact Hrec].
  cbn. eapply wellFormed_same; [| | |exact Hrec]; cbn; auto.
Qed.
End KeepsUndo.

(** ** The forest as a list of places *)

Lemma flattenComponents_cons (n : node) (l : list node) :
  flattenComponents (n :: l) = flattenComponent n ++ flattenComponents l.
Proof. reflexivity. Qed.

Lemma flattenComponents_app (l1 l2 : list node) :
  flattenComponents (l1 ++ l2) = flattenComponents l1 ++ flattenComponents l2.
Proof. apply flat_map_app. Qed.

Lemma flattenComponent_eq (n : node) :
  flattenComponent n =
  n :: match children n with Some l => flattenComponents l | None => [] end.
Proof. destruct n as [r [l|]]; reflexivity. Qed.

Lemma in_flatten_refs (n : node) (l : list node) :
  In n (flattenComponents l) -> In (oid n) (refs l).
Proof. intros H. unfold refs. apply in_map. exact H. Qed.

Lemma in_refs_flatten (r : ref) (l : list node) :
  In r (refs l) -> exists n, In n (flattenComponents l) /\ oid n = r.
Proof.
  unfold refs. rewrite in_map_iff. intros (n & Hn & Hin). exists n. auto.
Qed.

Lemma in_children_flatten (n : node) (l : list node) :
  In n l -> In n (flattenComponents l).
Proof.
  induction l as [|a l IH]; [intros []|].
  intros [->|H]; rewrite flattenComponents_cons, in_app_iff.
  - left. rewrite flattenComponent_eq. left. reflexivity.
  - right. auto.
Qed.

(** What is below a place of the forest is in the forest. *)
Lemma flatten_below (fs : list node) :
  forall p l, In (Node p (Some l)) (flattenComponents fs) ->
  forall n, In n (flattenComponents l) -> In n (flattenComponents fs).
Proof.
  pattern fs.
  apply forest_ind with
    (P := fun m => forall p l, In (Node p (Some l)) (flattenComponent m) ->
                   forall n, In n (flattenComponents l) -> In n (flattenComponent m));
    clear fs.
  - intros r p l [H|[]]. discriminate.
  - intros r l0 IH p l H n Hn. rewrite flattenComponent_eq in *. simpl in *.
    destruct H as [H|H].
    + injection H as -> ->. right. exact Hn.
    + right. eapply IH; eauto.
  - intros p l [].
  - intros m l0 Hm Hl p l H n Hn. rewrite flattenComponents_cons, in_app_iff in *.
    destruct H as [H|H]; [left|right]; eauto.
Qed.

Lemma find_unique {A : Type} (key : A -> nat) (L : list A) (a : A) :
  NoDup (map key L) -> In a L ->
  find (fun m => Nat.eqb (key m) (key a)) L = Some a.
Proof.
  induction L as [|b L IH]; simpl; [tauto|].
  intros Hnd [->|Hin].
  - rewrite Nat.eqb_refl. reflexivity.
  - inversion Hnd as [|? ? Hnotin Hnd']; subst.
    destruct (Nat.eqb (key b) (key a)) eqn:E.
    + apply Nat.eqb_eq in E. exfalso. apply Hnotin. rewrite E. apply in_map. exact Hin.
    + auto.
Qed.

Lemma findNode_unique (fs : list node) (n : node) :
  tree fs -> In n (flattenComponents fs) -> findNode (oid n) fs = Some n.
Proof. intros Ht Hin. unfold findNode. apply find_unique; assumption. Qed.

Lemma findNode_Some (fs : list node) (r : ref) (n : node) :
  findNode r fs = Some n -> In n (flattenComponents fs) /\ oid n = r.
Proof.
  unfold findNode. intros H. apply find_some in H. destruct H as [Hin Heq].
  apply Nat.eqb_eq in Heq. auto.
Qed.

Lemma findNode_None (fs : list node) (r : ref) :
  findNode r fs = None -> ~ In r (refs fs).
Proof.
  unfold findNode. intros H Hin. apply in_refs_flatten in Hin.
  destruct Hin as (n & Hn & <-). eapply find_none in H; [|exact Hn].
  simpl in H. rewrite Nat.eqb_refl in H. discriminate.
Qed.

Lemma tree_unique (fs : list node) (a b : node) :
  tree fs -> In a (flattenComponents fs) -> In b (flattenComponents fs) ->
  oid a = oid b -> a = b.
Proof.
  intros Ht Ha Hb E.
  pose proof (findNode_unique a Ht Ha) as H1.
  pose proof (findNode_unique b Ht Hb) as H2.
  rewrite E in H1. congruence.
Qed.

(** A place of the forest is a tree of its own, made of objects of the forest. *)
Lemma refs_below (fs : list node) :
  forall n, In n (flattenComponents fs) ->
  exists pre post, refs fs = pre ++ refs [n] ++ post.
Proof.
  pattern fs.
  apply forest_ind with
    (P := fun m => forall n, In n (flattenComponent m) ->
                   exists pre post, refs [m] = pre ++ refs [n] ++ post); clear fs.
  - intros r n [<-|[]]. exists [], []. rewrite app_nil_r. reflexivity.
  - intros r l IH n H. rewrite flattenComponent_eq in H. simpl in H.
    destruct H as [<-|H].
    + exists [], []. rewrite app_nil_r. reflexivity.
    + destruct (IH n H) as (pre & post & E). exists (r :: pre), post.
      rewrite refs_node, E. reflexivity.
  - intros n [].
  - intros m l Hm Hl n H. rewrite flattenComponents_cons, in_app_iff in H.
    rewrite refs_cons. destruct H as [H|H].
    + destruct (Hm n H) as (pre & post & E). exists pre, (post ++ refs l).
      rewrite E, <- !app_assoc. reflexivity.
    + destruct (Hl n H) as (pre & post & E). exists (refs [m] ++ pre), post.
      rewrite E, <- !app_assoc. reflexivity.
Qed.

Lemma tree_below (fs : list node) (n : node) :
  tree fs -> In n (flattenComponents fs) -> tree [n].
Proof.
  intros Ht Hin. destruct (refs_below fs n Hin) as (pre & post & E).
  unfold tree in *. rewrite E in Ht.
  apply NoDup_app_remove_l in Ht. apply NoDup_app_remove_r in Ht. exact Ht.
Qed.

Lemma allocated_below (nx : ref) (fs : list node) (n : node) :
  allocated nx fs -> In n (flattenComponents fs) -> allocated nx [n].
Proof.
  intros Ha Hin r Hr. destruct (refs_below fs n Hin) as (pre & post & E).
  apply Ha. rewrite E, !in_app_iff. auto.
Qed.

(** ** Removal *)

Lemma indexOf_split (target : ref) (l : list node) (i : nat) :
  indexOf target l = Some i ->
  exists pre removed post,
    l = pre ++ removed :: post /\ oid removed = target /\ splice1 i l = pre ++ post.
Proof.
  revert i. induction l as [|a l IH]; simpl; [discriminate|].
  intros i. destruct (Nat.eqb (oid a) target) eqn:E.
  - intros [= <-]. apply Nat.eqb_eq in E. exists [], a, l. auto.
  - destruct (indexOf target l) as [j|]; [|discriminate].
    intros [= <-]. destruct (IH j eq_refl) as (pre & removed & post & -> & Ho & Hs).
    exists (a :: pre), removed, post.
    change (splice1 (S j) (a :: pre ++ removed :: post))
      with (a :: splice1 j (pre ++ removed :: post)).
    rewrite Hs. auto.
Qed.

Lemma indexOf_removedFrom (target : ref) (l : list node) (i : nat) :
  indexOf target l = Some i -> removedFrom target l (splice1 i l).
Proof.
  intros H. destruct (indexOf_split _ _ H) as (pre & removed & post & -> & Ho & ->).
  exists removed. split; [exact Ho|]. split.
  - apply in_children_flatten. rewrite in_app_iff. right. left. reflexivity.
  - rewrite !refs_app, (refs_cons removed post). apply Permutation_app_swap_app.
Qed.

Lemma sameForest_refl (s : scene) : sameForest s s.
Proof. repeat split. Qed.

Lemma sameForest_trans (s1 s2 s3 : scene) :
  sameForest s1 s2 -> sameForest s2 s3 -> sameForest s1 s3.
Proof. intros (A & B & C) (D & E & F). repeat split; congruence. Qed.

Lemma sameForest_forgetConnections (target : ref) (s : scene) :
  sameForest s (snd (forgetConnections target s)).
Proof.
  unfold forgetConnections. cbn.
  destruct (selectedConnection s) as [c|]; [|repeat split].
  destruct (Nat.eqb (from c) target || Nat.eqb (to c) target); repeat split.
Qed.

Lemma sameForest_wellFormed (s s' : scene) :
  sameForest s s' -> wellFormed s -> wellFormed s'.
Proof. intros (A & B & C). apply wellFormed_same; auto. lia. Qed.

Lemma removedFrom_cons_head (target : ref) (n n' : node) (l : list node) :
  removedBelow target n n' -> removedFrom target (n :: l) (n' :: l).
Proof.
  intros (Ho & c & c' & Hc & Hc' & removed & Hr & Hin & Hp).
  exists removed. split; [exact Hr|]. split.
  - rewrite flattenComponents_cons, in_app_iff. left.
    rewrite flattenComponent_eq, Hc. right. exact Hin.
  - rewrite (refs_cons n l), (refs_cons n' l), app_assoc.
    apply Permutation_app_tail.
    destruct n as [r cn], n' as [r' cn']. simpl in *. subst.
    rewrite !refs_node. apply Permutation_cons_app. exact Hp.
Qed.

Lemma removedFrom_cons_tail (target : ref) (n : node) (l l' : list node) :
  removedFrom target l l' -> removedFrom target (n :: l) (n :: l').
Proof.
  intros (removed & Hr & Hin & Hp).
  exists removed. split; [exact Hr|]. split.
  - rewrite flattenComponents_cons, in_app_iff. right. exact Hin.
  - rewrite (refs_cons n l), (refs_cons n l').
    rewrite Hp. apply Permutation_app_swap_app.
Qed.

Unset Implicit Arguments.

Lemma indexOf_None (target : ref) (l : list node) :
  indexOf target l = None -> forall n, In n l -> oid n <> target.
Proof.
  induction l as [|a l IH]; simpl; [tauto|].
  destruct (Nat.eqb (oid a) target) eqn:E; [discriminate|].
  destruct (indexOf target l); [discriminate|].
  intros _ n [<-|Hin]; [apply Nat.eqb_neq; exact E|auto].
Qed.

Lemma refs_in_cases (r : ref) (l : list node) :
  In r (refs l) -> exists n, In n l /\ (oid n = r \/ In r (orefs (children n))).
Proof.
  induction l as [|a l IH]; [intros []|].
  rewrite refs_cons, in_app_iff. intros [H|H].
  - exists a. split; [left; reflexivity|].
    destruct a as [i c]. rewrite refs_node in H. simpl in *. exact H.
  - destruct (IH H) as (n & Hn & Hc). exists n. split; [right; exact Hn|exact Hc].
Qed.

Lemma removeLoop_spec (target : ref) (l : list node) :
  removeSpec (removedFrom target) (absentBelow target)
    (removeLoop (removeFile_children target) l) l
  /\ removeSpec (removedFrom target) (fun l => ~ In target (refs l))
       (removeFile target l) l.
Proof.
  assert (Hfile : forall l,
             removeSpec (removedFrom target) (absentBelow target)
               (removeLoop (removeFile_children target) l) l ->
             removeSpec (removedFrom target) (fun l => ~ In target (refs l))
               (removeFile target l) l).
  { clear l. intros l Hl s. unfold removeFile, removeFrom.
    destruct (indexOf target l) as [i|] eqn:E.
    - unfold bind. pose proof (sameForest_forgetConnections target s) as Hsame.
      destruct (forgetConnections target s) as [[[]|] s1] eqn:Ef; simpl in *.
      + split; [|exact Hsame]. apply indexOf_removedFrom. exact E.
      + unfold forgetConnections, modify in Ef. discriminate.
    - specialize (Hl s).
      destruct (removeLoop (removeFile_children target) l s) as [[[[|] l']|] s1]; auto.
      destruct Hl as (-> & Habs & Hsame). split; [reflexivity|]. split; [|exact Hsame].
      intros Hin. apply refs_in_cases in Hin. destruct Hin as (n & Hn & [Ho|Hc]).
      + exact (indexOf_None _ _ E n Hn Ho).
      + exact (Habs n Hn Hc). }
  split; [|apply Hfile]; pattern l;
  apply forest_ind with
    (P := fun n => removeSpec (removedBelow target)
                     (fun n => ~ In target (orefs (children n)))
                     (removeFile_children target n) n);
    clear l.
  all: try (intros r s; simpl; apply sameForest_refl).
  all: try (intros r l IH s; simpl; unfold bind;
            pose proof (Hfile l IH s) as IH'; unfold removeFile in IH';
            destruct (removeFrom (removeFile_children target) target l s)
              as [[[[|] l']|] s']; simpl;
            [ destruct IH' as [Hrem Hsame]; split; [|exact Hsame];
              split; [reflexivity|]; exists l, l'; auto
            | destruct IH' as (-> & Habs & Hsame); auto
            | exact IH' ]).
  all: try (intros s; simpl; split; [reflexivity|]; split;
            [intros n []|apply sameForest_refl]).
  all: intros n l Hn Hloop s; simpl; unfold bind at 1; specialize (Hn s);
    destruct (removeFile_children target n s) as [[[[|] n']|] s1]; simpl;
    [ destruct Hn as [Hrem Hsame]; split; [|exact Hsame];
      apply removedFrom_cons_head; exact Hrem
    | destruct Hn as (-> & Habs1 & Hsame1); unfold bind; specialize (Hloop s1);
      destruct (removeLoop (removeFile_children target) l s1) as [[[[|] l']|] s2]; simpl;
      [ destruct Hloop as [Hrem Hsame2]; split;
        [ apply removedFrom_cons_tail; exact Hrem
        | eapply sameForest_trans; eassumption ]
      | destruct Hloop as (-> & Habs2 & Hsame2); split; [reflexivity|]; split;
        [ intros m [<-|Hm]; [exact Habs1|exact (Habs2 m Hm)]
        | eapply sameForest_trans; eassumption ]
      | eapply sameForest_trans; eassumption ]
    | exact Hn ].
Qed.

Lemma removeFile_spec (target : ref) (l : list node) :
  removeSpec (removedFrom target) (fun l => ~ In target (refs l))
    (removeFile target l) l.
Proof. apply removeLoop_spec. Qed.

(** ** Writes to a [children] array *)

Lemma withChildren_absent (p : ref) (f : option (list node) -> option (list node))
    (l : list node) :
  ~ In p (refs l) -> map (withChildren p f) l = l.
Proof.
  pattern l.
  apply forest_ind with
    (P := fun n => ~ In p (refs [n]) -> withChildren p f n = n); clear l.
  - intros r H. rewrite refs_node in H. simpl in *.
    destruct (Nat.eqb r p) eqn:E; [|reflexivity].
    apply Nat.eqb_eq in E. tauto.
  - intros r l IH H. rewrite refs_node in H. simpl in *.
    destruct (Nat.eqb r p) eqn:E.
    + apply Nat.eqb_eq in E. tauto.
    + rewrite IH; [reflexivity|tauto].
  - reflexivity.
  - intros n l Hn Hl H. rewrite refs_cons, in_app_iff in H. simpl.
    rewrite Hn, Hl; tauto.
Qed.

Lemma NoDup_app_disjoint {A : Type} (l1 l2 : list A) (a : A) :
  NoDup (l1 ++ l2) -> In a l1 -> ~ In a l2.
Proof.
  induction l1 as [|b l1 IH]; simpl; [tauto|].
  intros Hnd [->|Hin] Hin2.
  - inversion Hnd; subst. apply H1. rewrite in_app_iff. auto.
  - inversion Hnd; subst. eapply IH; eauto.
Qed.

Lemma NoDup_app_disjoint_r {A : Type} (l1 l2 : list A) (a : A) :
  NoDup (l1 ++ l2) -> In a l2 -> ~ In a l1.
Proof. intros Hnd H2 H1. eapply NoDup_app_disjoint; eauto. Qed.

(** In a tree the object [p] sits in one place: a write to its array changes
    the references below that place and nothing else. *)
Lemma withChildren_refs (p : ref) (fs : list node) :
  tree fs -> In p (refs fs) ->
  exists c pre post,
    In (Node p c) (flattenComponents fs)
    /\ refs fs = pre ++ p :: orefs c ++ post
    /\ forall f, refs (map (withChildren p f) fs) = pre ++ p :: orefs (f c) ++ post.
Proof.
  pattern fs.
  apply forest_ind with
    (P := fun n => tree [n] -> In p (refs [n]) ->
            exists c pre post,
              In (Node p c) (flattenComponent n)
              /\ refs [n] = pre ++ p :: orefs c ++ post
              /\ forall f, refs [withChildren p f n] = pre ++ p :: orefs (f c) ++ post);
    clear fs.
  - intros r _ H. rewrite refs_node in H. destruct H as [->|[]].
    exists None, [], []. split; [left; reflexivity|].
    split; [rewrite refs_node; reflexivity|].
    intros f. simpl. rewrite Nat.eqb_refl, refs_node, app_nil_r. reflexivity.
  - intros r l IH Ht H. rewrite refs_node in H.
    destruct (Nat.eqb r p) eqn:E.
    + apply Nat.eqb_eq in E. subst r.
      exists (Some l), [], []. split; [left; reflexivity|].
      split; [rewrite refs_node, app_nil_r; reflexivity|].
      intros f. simpl. rewrite Nat.eqb_refl, refs_node, app_nil_r. reflexivity.
    + pose proof E as E'. apply Nat.eqb_neq in E. destruct H as [H|H]; [congruence|].
      unfold tree in Ht. rewrite refs_node in Ht. inversion Ht as [|? ? _ Hl]; subst.
      destruct (IH Hl H) as (c & pre & post & Hin & E1 & E2).
      exists c, (r :: pre), post. rewrite !refs_node, E1.
      split; [right; exact Hin|]. split; [reflexivity|].
      intros f. simpl. rewrite E'. simpl. rewrite refs_node, E2. reflexivity.
  - intros _ [].
  - intros n l Hn Hl Ht H. unfold tree in Ht. rewrite refs_cons in Ht, H.
    rewrite in_app_iff in H. rewrite flattenComponents_cons.
    destruct H as [H|H].
    + assert (Hout : ~ In p (refs l)) by (eapply NoDup_app_disjoint; eauto).
      destruct (Hn (NoDup_app_remove_r _ _ Ht) H) as (c & pre & post & Hin & E1 & E2).
      exists c, pre, (post ++ refs l). rewrite refs_cons, E1, <- !app_assoc. simpl.
      rewrite <- !app_assoc.
      split; [rewrite in_app_iff; auto|]. split; [reflexivity|].
      intros f. simpl map. rewrite (refs_cons (withChildren p f n)), E2.
      rewrite (withChildren_absent p f l Hout), <- !app_assoc. simpl.
      rewrite <- !app_assoc. reflexivity.
    + assert (Hout : ~ In p (refs [n])) by (eapply NoDup_app_disjoint_r; eauto).
      destruct (Hl (NoDup_app_remove_l _ _ Ht) H) as (c & pre & post & Hin & E1 & E2).
      exists c, (refs [n] ++ pre), post. rewrite refs_cons, E1, <- !app_assoc.
      split; [rewrite in_app_iff; auto|]. split; [reflexivity|].
      intros f. simpl map.
      assert (Hn' : withChildren p f n = n).
      { pose proof (withChildren_absent p f [n] Hout) as E. simpl in E. congruence. }
      rewrite Hn', (refs_cons n), E2, <- !app_assoc. reflexivity.
Qed.

(** ** Parent lookup *)

Lemma findParentOfComponent_sound (targetFile : ref) (fs : list node) :
  forall p il,
    findParentOfComponent targetFile fs = {| parent := Obj p; inList := il |} ->
    exists l, il = Some l
              /\ In (Node p (Some l)) (flattenComponents fs)
              /\ includes l targetFile = true.
Proof.
  assert (Hgen : forall l whole parent0 info p,
             (forall n, In n l -> forall q il,
                 findParentOfComponent_children targetFile n = {| parent := Obj q; inList := il |} ->
                 exists c, il = Some c /\ In (Node q (Some c)) (flattenComponent n)
                           /\ includes c targetFile = true) ->
             findFirst (parentStep (findParentOfComponent_children targetFile)
                          targetFile parent0 whole) l = Some info ->
             parent info = Obj p ->
             (parent0 = Obj p /\ inList info = Some whole /\ includes l targetFile = true)
             \/ exists c, inList info = Some c /\ In (Node p (Some c)) (flattenComponents l)
                           /\ includes c targetFile = true).
  { induction l as [|n l IH]; intros whole parent0 info p Hrec; cbn [findFirst];
      [discriminate|].
    unfold parentStep at 1. unfold includes. cbn [existsb].
    destruct (Nat.eqb (oid n) targetFile).
    - intros [= <-]. cbn [parent inList]. intros ->. left. auto.
    - destruct (nonEmpty (children n)).
      + destruct (findParentOfComponent_children targetFile n) as [pf il] eqn:E.
        cbn [parent]. destruct pf as [| |q].
        * intros H Hp.
          destruct (IH whole parent0 info p) as [(? & ? & ?)|(c & Hc & Hin & Hinc)]; auto.
          { intros m Hm. apply Hrec. right. exact Hm. }
          right. exists c. split; [exact Hc|].
          rewrite flattenComponents_cons, in_app_iff. auto.
        * intros [= <-]. discriminate.
        * intros [= <-]. cbn [parent inList]. intros [= ->].
          destruct (Hrec n (or_introl eq_refl) p il E) as (c & -> & Hin & Hinc).
          right. exists c. split; [reflexivity|].
          rewrite flattenComponents_cons, in_app_iff. auto.
      + intros H Hp.
        destruct (IH whole parent0 info p) as [(? & ? & ?)|(c & Hc & Hin & Hinc)]; auto.
        { intros m Hm. apply Hrec. right. exact Hm. }
        right. exists c. split; [exact Hc|].
        rewrite flattenComponents_cons, in_app_iff. auto. }
  assert (Hnode : forall n q il,
             findParentOfComponent_children targetFile n = {| parent := Obj q; inList := il |} ->
             exists c, il = Some c /\ In (Node q (Some c)) (flattenComponent n)
                       /\ includes c targetFile = true).
  { induction n as [r | r l IH] using node_ind; intros q il; simpl.
    - discriminate.
    - unfold parentLoop.
      destruct (findFirst _ l) as [info|] eqn:E; [|discriminate].
      intros ->.
      destruct (Hgen l l (Obj r) _ q (proj1 (Forall_forall _ _) IH) E eq_refl)
        as [([= ->] & Hil & Hinc)|(c & Hc & Hin & Hinc)]; simpl in *.
      + exists l. auto.
      + exists c. auto. }
  intros p il. unfold findParentOfComponent, parentLoop.
  destruct (findFirst _ fs) as [info|] eqn:E; [|discriminate].
  intros ->.
  destruct (Hgen fs fs Null _ p (fun n _ => Hnode n) E eq_refl)
    as [([=] & _)|(c & Hc & Hin & Hinc)]; simpl in *.
  exists c. auto.
Qed.

(** ** Trees under removal and insertion *)

Lemma removedFrom_tree (target : ref) (l l' : list node) :
  tree l -> removedFrom target l l' ->
  tree l' /\ (forall r, In r (refs l') -> In r (refs l)).
Proof.
  intros Ht (removed & _ & _ & Hp). unfold tree in *. split.
  - eapply Permutation_NoDup in Ht; [|exact Hp]. eapply NoDup_app_remove_l. exact Ht.
  - intros r Hr. eapply Permutation_in; [symmetry; exact Hp|].
    rewrite in_app_iff. auto.
Qed.

Lemma perm_move (pre R A post : list ref) (p : ref) :
  Permutation (pre ++ p :: (R ++ A) ++ post) (R ++ pre ++ p :: A ++ post).
Proof.
  replace (pre ++ p :: (R ++ A) ++ post) with ((pre ++ [p]) ++ R ++ (A ++ post)).
  - replace (R ++ pre ++ p :: A ++ post) with (R ++ (pre ++ [p]) ++ (A ++ post)).
    + apply Permutation_app_swap_app.
    + rewrite <- !app_assoc. reflexivity.
  - rewrite <- !app_assoc. reflexivity.
Qed.

Lemma setChildren_perm (p : ref) (l : list node) (fs : list node) :
  tree fs -> In (Node p (Some l)) (flattenComponents fs) ->
  forall l' R, Permutation (refs l) (R ++ refs l') ->
               Permutation (refs fs) (R ++ refs (setChildren p l' fs)).
Proof.
  intros Ht Hin l' R Hp.
  destruct (withChildren_refs p fs Ht (in_flatten_refs _ _ Hin))
    as (c & pre & post & Hc & E1 & E2).
  assert (Ec : c = Some l).
  { pose proof (tree_unique _ _ Ht Hc Hin eq_refl) as E. congruence. }
  subst c. unfold setChildren. rewrite E1, E2. simpl.
  etransitivity; [|apply perm_move].
  apply Permutation_app_head. constructor. apply Permutation_app_tail. exact Hp.
Qed.

Lemma NoDup_append {A : Type} (l1 l2 : list A) :
  NoDup l1 -> NoDup l2 -> (forall a, In a l2 -> ~ In a l1) -> NoDup (l1 ++ l2).
Proof.
  induction l1 as [|b l1 IH]; simpl; intros H1 H2 Hd; [exact H2|].
  inversion H1; subst. constructor.
  - rewrite in_app_iff. intros [H|H]; [tauto|]. apply (Hd b H). left. reflexivity.
  - apply IH; auto. intros a Ha Hin. apply (Hd a Ha). right. exact Hin.
Qed.

Lemma pushChild_tree (t : ref) (D : node) (fs : list node) :
  tree fs -> tree [D] -> (forall r, In r (refs [D]) -> ~ In r (refs fs)) ->
  tree (pushChild t D fs)
  /\ (forall r, In r (refs (pushChild t D fs)) -> In r (refs fs) \/ In r (refs [D])).
Proof.
  intros Ht HD Hdis. unfold pushChild.
  change (tree (map (withChildren t (option_map (fun l => l ++ [D]))) fs))
    with (NoDup (refs (map (withChildren t (option_map (fun l => l ++ [D]))) fs))).
  destruct (in_dec Nat.eq_dec t (refs fs)) as [Hin|Hout].
  - destruct (withChildren_refs t fs Ht Hin) as (c & pre & post & Hc & E1 & E2).
    rewrite E2. destruct c as [lt|]; simpl.
    + rewrite refs_app.
      assert (Hp : Permutation (pre ++ t :: (refs lt ++ refs [D]) ++ post)
                     (refs fs ++ refs [D])).
      { rewrite E1. simpl orefs.
        replace (pre ++ t :: (refs lt ++ refs [D]) ++ post)
          with ((pre ++ t :: refs lt) ++ refs [D] ++ post)
          by (rewrite <- ?app_assoc; simpl; rewrite <- ?app_assoc; reflexivity).
        replace ((pre ++ t :: refs lt ++ post) ++ refs [D])
          with ((pre ++ t :: refs lt) ++ post ++ refs [D])
          by (rewrite <- ?app_assoc; simpl; rewrite <- ?app_assoc; reflexivity).
        apply Permutation_app_head. apply Permutation_app_comm. }
      split.
      * eapply Permutation_NoDup; [symmetry; exact Hp|].
        apply NoDup_append; assumption.
      * intros r Hr. apply in_app_iff. eapply Permutation_in; [exact Hp|exact Hr].
    + simpl in E1. rewrite <- E1. split; [exact Ht|auto].
  - rewrite (withChildren_absent t _ fs Hout). split; [exact Ht|auto].
Qed.

Lemma wellFormed_set_files (s : scene) (l : list node) :
  wellFormed s -> tree l -> allocated (next s) l -> wellFormed (set_files l s).
Proof. intros (_ & _ & Hh) Ht Ha. unfold wellFormed. cbn. auto. Qed.

(** ** Handlers that write the heap only *)

Lemma heapStep_keeps {A : Type} (m : handler A) : heapStep m -> keeps m.
Proof.
  intros H s Hs. specialize (H s).
  destruct (m s) as [[a|] s']; simpl in *; eapply sameForest_wellFormed; eauto.
Qed.

Lemma heapStep_bind {A B : Type} (m : handler A) (k : A -> handler B) :
  heapStep m -> (forall a, heapStep (k a)) -> heapStep (bind m k).
Proof.
  intros Hm Hk s. unfold bind. specialize (Hm s).
  destruct (m s) as [[a|] s1]; simpl in *; [|exact Hm].
  eapply sameForest_trans; [exact Hm|apply Hk].
Qed.

Lemma heapStep_ret {A : Type} (a : A) : heapStep (ret a).
Proof. intros s. apply sameForest_refl. Qed.

Lemma heapStep_gets {A : Type} (f : scene -> A) : heapStep (gets f).
Proof. intros s. apply sameForest_refl. Qed.

Lemma heapStep_throw {A : Type} : heapStep (@throwTypeError A).
Proof. intros s. apply sameForest_refl. Qed.

Lemma heapStep_setObject (r : ref) (o : object) : heapStep (setObject r o).
Proof. intros s. repeat split. Qed.

Lemma heapStep_forEach {A : Type} (body : A -> handler unit) (l : list A) :
  Forall (fun a => heapStep (body a)) l -> heapStep (forEach body l).
Proof.
  induction 1 as [|a l Ha _ IH]; simpl.
  - apply heapStep_ret.
  - apply heapStep_bind; auto.
Qed.

Section HeapSteps.
Variable totalHeight : scene -> ref -> Z.
Variable drawnBox : scene -> ref -> box.

Lemma heapStep_updateParentHeight (p : ref) : heapStep (updateParentHeight totalHeight p).
Proof. intros s. repeat split. Qed.

Lemma heapStep_draw : heapStep (draw drawnBox).
Proof. intros s. repeat split. Qed.

Lemma heapStep_repositionChildrenInParent (n : node) :
  heapStep (repositionChildrenInParent totalHeight n).
Proof.
  induction n as [r | r l IH] using node_ind; simpl.
  - apply heapStep_bind; [apply heapStep_updateParentHeight|intros; apply heapStep_ret].
  - apply heapStep_bind; [apply heapStep_updateParentHeight|intros _].
    apply heapStep_forEach. eapply Forall_impl; [|exact IH].
    intros c Hc. destruct (nonEmpty (children c)); [exact Hc|apply heapStep_ret].
Qed.

Lemma heapStep_reposition (r : ref) :
  heapStep (withNode r (repositionChildrenInParent totalHeight)).
Proof.
  unfold withNode. apply heapStep_bind; [apply heapStep_gets|intros fs].
  destruct (findNode r fs);
    [apply heapStep_repositionChildrenInParent|apply heapStep_ret].
Qed.
End HeapSteps.

(** ** The drop keeps the forest a tree *)

Lemma includes_refs (l : list node) (t : ref) : includes l t = true -> In t (refs l).
Proof.
  unfold includes. rewrite existsb_exists. intros (n & Hn & E).
  apply Nat.eqb_eq in E. subst t. apply in_flatten_refs, in_children_flatten. exact Hn.
Qed.

Lemma oid_in_refs (D : node) : In (oid D) (refs [D]).
Proof. destruct D as [r c]. rewrite refs_node. left. reflexivity. Qed.

(** Taking the place with the identity of [D] out of the forest leaves [D]
    an object of its own, apart from what stays. *)
Lemma detach_core (fs fs2 : list node) (X D : node) (nx : ref) :
  tree fs -> allocated nx fs ->
  Permutation (refs fs) (refs [X] ++ refs fs2) ->
  In X (flattenComponents fs) -> oid X = oid D ->
  (In D (flattenComponents fs)
   \/ (tree [D] /\ allocated nx [D] /\ forall r, In r (refs [D]) -> ~ In r (refs fs))) ->
  tree fs2 /\ allocated nx fs2
  /\ tree [D] /\ allocated nx [D] /\ (forall r, In r (refs [D]) -> ~ In r (refs fs2)).
Proof.
  intros Ht Ha Hp HX Ho [Hlive|(_ & _ & Hdis)].
  - assert (X = D) by (eapply tree_unique; eauto). subst X.
    pose proof (Permutation_NoDup Hp Ht) as Hnd.
    split; [eapply NoDup_app_remove_l; exact Hnd|].
    split.
    { intros r Hr. apply Ha. eapply Permutation_in; [symmetry; exact Hp|].
      rewrite in_app_iff. auto. }
    split; [eapply NoDup_app_remove_r; exact Hnd|].
    split.
    { intros r Hr. apply Ha. eapply Permutation_in; [symmetry; exact Hp|].
      rewrite in_app_iff. auto. }
    intros r Hr. eapply NoDup_app_disjoint; eauto.
  - exfalso. apply (Hdis (oid D) (oid_in_refs D)). rewrite <- Ho.
    apply in_flatten_refs. exact HX.
Qed.

Lemma movable_sameForest (D : node) (s s' : scene) :
  sameForest s s' -> movable D s -> movable D s'.
Proof. intros (Hf & _ & Hn). unfold movable. rewrite Hf, Hn. auto. Qed.

Lemma detached_sameForest (D : node) (s s' : scene) :
  sameForest s s' -> detached D s -> detached D s'.
Proof. intros (Hf & _ & Hn). unfold detached. rewrite Hf, Hn. auto. Qed.

Lemma hoare_heapStep {A : Type} (m : handler A) (I : scene -> Prop) :
  heapStep m -> (forall s s', sameForest s s' -> I s -> I s') ->
  hoare (fun s => wellFormed s /\ I s) m (fun _ s => wellFormed s /\ I s).
Proof.
  intros Hm HI s [Hs Hi]. specialize (Hm s).
  destruct (m s) as [[a|] s']; simpl in *.
  - split; [eapply sameForest_wellFormed; eauto|eauto].
  - eapply sameForest_wellFormed; eauto.
Qed.

Lemma hoare_removeFile (t : ref) (l : list node) (I : scene -> Prop) :
  (forall s s', sameForest s s' -> I s -> I s') ->
  hoare (fun s => wellFormed s /\ I s) (removeFile t l)
    (fun r s => wellFormed s /\ I s
                /\ if fst r then removedFrom t l (snd r)
                   else snd r = l /\ ~ In t (refs l)).
Proof.
  intros HI s [Hs Hi]. pose proof (removeFile_spec t l s) as H.
  destruct (removeFile t l s) as [[[[|] l']|] s']; simpl.
  - destruct H as [Hrem Hsame]. split; [eapply sameForest_wellFormed; eauto|]. eauto.
  - destruct H as (-> & Habs & Hsame). split; [eapply sameForest_wellFormed; eauto|]. eauto.
  - eapply sameForest_wellFormed; eauto.
Qed.

Section Drop.
Variable totalHeight : scene -> ref -> Z.

Lemma hoare_takeOut (D : node) (l fs : list node) :
  hoare (fun s => wellFormed s /\ movable D s /\ files s = fs)
    (removeFile (oid D) l)
    (fun r s => wellFormed s /\ (movable D s /\ files s = fs) /\ answered D l r).
Proof.
  apply (hoare_removeFile (oid D) l (fun s => movable D s /\ files s = fs)).
  intros s s' Hsame [Hm Hf]. split; [eapply movable_sameForest; eauto|].
  destruct Hsame as (E & _). congruence.
Qed.

(** After the dragged object has been taken out of the array it was found
    in, it is an object of its own. *)
Lemma setChildren_detaches (D : node) (p : ref) (l fs : list node) (r : bool * list node) :
  In (Node p (Some l)) (flattenComponents fs) ->
  includes l (oid D) = true ->
  hoare (fun s => wellFormed s /\ (movable D s /\ files s = fs) /\ answered D l r)
    (modify (fun s => set_files (setChildren p (snd r) (files s)) s))
    (fun _ s => wellFormed s /\ detached D s).
Proof.
  intros Hp Hinc. destruct r as [b l']. apply hoare_modify. unfold answered. simpl.
  intros s ((Ht & Ha & Hh) & [Hm Hf] & Hb). subst fs.
  destruct b.
  - destruct Hb as (X & Ho & HX & Hperm).
    pose proof (setChildren_perm p l (files s) Ht Hp l' (refs [X]) Hperm) as Hperm'.
    pose proof (flatten_below (files s) p l Hp X HX) as HX'.
    destruct (detach_core _ _ _ _ _ Ht Ha Hperm' HX' Ho Hm) as (T2 & A2 & TD & AD & Dis).
    split; [|split; [exact TD|split; [exact AD|exact Dis]]].
    unfold wellFormed. cbn. auto.
  - destruct Hb as [_ Habs]. exfalso. apply Habs. apply includes_refs. exact Hinc.
Qed.

Lemma set_files_detaches (D : node) (fs : list node) (r : bool * list node) :
  hoare (fun s => wellFormed s /\ (movable D s /\ files s = fs) /\ answered D fs r)
    (modify (set_files (snd r)))
    (fun _ s => wellFormed s /\ detached D s).
Proof.
  destruct r as [b l']. apply hoare_modify. unfold answered. simpl.
  intros s ((Ht & Ha & Hh) & [Hm Hf] & Hb). subst fs.
  destruct b.
  - destruct Hb as (X & Ho & HX & Hperm).
    destruct (detach_core _ _ _ _ _ Ht Ha Hperm HX Ho Hm) as (T2 & A2 & TD & AD & Dis).
    split; [|split; [exact TD|split; [exact AD|exact Dis]]].
    unfold wellFormed. cbn. auto.
  - destruct Hb as [-> Habs].
    destruct Hm as [Hlive|Hdet].
    + exfalso. apply Habs. apply in_flatten_refs. exact Hlive.
    + split; [|exact Hdet]. unfold wellFormed. cbn. auto.
Qed.

Lemma hoare_layout_detached (D : node) (p : ref) :
  hoare (fun s => wellFormed s /\ detached D s)
    (bind (updateParentHeight totalHeight p)
       (fun _ => withNode p (repositionChildrenInParent totalHeight)))
    (fun _ s => wellFormed s /\ detached D s).
Proof.
  apply hoare_heapStep.
  - apply heapStep_bind; [apply heapStep_updateParentHeight|].
    intros _. apply heapStep_reposition.
  - intros s s'. apply detached_sameForest.
Qed.

Lemma keeps_pushChild (D dropTarget : node) :
  hoare (fun s => wellFormed s /\ detached D s)
    (match children dropTarget with
     | None => throwTypeError
     | Some _ => modify (fun s => set_files (pushChild (oid dropTarget) D (files s)) s)
     end)
    (fun _ => wellFormed).
Proof.
  destruct (children dropTarget).
  - apply hoare_modify. intros s ((Ht & Ha & Hh) & TD & AD & Dis).
    destruct (pushChild_tree (oid dropTarget) D (files s) Ht TD Dis) as [T2 I2].
    unfold wellFormed. cbn. split; [exact T2|]. split; [|exact Hh].
    intros r Hr. destruct (I2 r Hr); auto.
  - apply hoare_throw. tauto.
Qed.

Lemma keeps_append (D : node) :
  hoare (fun s => wellFormed s /\ detached D s)
    (modify (fun s => set_files (files s ++ [D]) s))
    (fun _ => wellFormed).
Proof.
  apply hoare_modify. intros s ((Ht & Ha & Hh) & TD & AD & Dis).
  unfold wellFormed. cbn. split; [|split; [|exact Hh]].
  - unfold tree. rewrite refs_app. apply NoDup_append; assumption.
  - intros r. rewrite refs_app, in_app_iff. intros [H|H]; auto.
Qed.

Lemma dropInto_keeps (D dropTarget : node) :
  hoare (fun s => wellFormed s /\ movable D s)
    (dropInto totalHeight D dropTarget) (fun _ => wellFormed).
Proof.
  unfold dropInto.
  eapply hoare_bind; [apply hoare_gets|]. intros fs.
  eapply hoare_bind with (Q := fun _ s => wellFormed s /\ detached D s).
  - destruct (findParentOfComponent (oid D) fs) as [pf il] eqn:Efp. cbn [parent inList].
    assert (Hany : hoare (fun s => (wellFormed s /\ movable D s) /\ fs = files s)
                     (bind (removeFile (oid D) fs) (fun r => modify (set_files (snd r))))
                     (fun _ s => wellFormed s /\ detached D s)).
    { eapply hoare_bind.
      - eapply hoare_weaken; [apply (hoare_takeOut D fs fs)| |intros a s H; exact H].
        intros s [[Hw Hm] E]. split; [exact Hw|split; [exact Hm|symmetry; exact E]].
      - intros r. apply set_files_detaches. }
    destruct pf as [| |p]; try exact Hany.
    destruct il as [l|]; try exact Hany.
    destruct (findParentOfComponent_sound (oid D) fs p (Some l) Efp)
      as (l0 & [= <-] & Hin & Hinc).
    eapply hoare_bind.
    + eapply hoare_weaken; [apply (hoare_takeOut D l fs)| |intros a s H; exact H].
      intros s [[Hw Hm] E]. split; [exact Hw|split; [exact Hm|symmetry; exact E]].
    + intros r. eapply hoare_bind; [apply setChildren_detaches; assumption|].
      intros ?. apply hoare_layout_detached.
  - intros ?. eapply hoare_bind; [apply keeps_pushChild|].
    intros ?. apply heapStep_keeps, heapStep_reposition.
Qed.

Lemma promote_keeps (D : node) (mx my : Z) :
  hoare (fun s => wellFormed s /\ movable D s)
    (promote totalHeight D mx my) (fun _ => wellFormed).
Proof.
  unfold promote.
  eapply hoare_bind; [apply hoare_gets|]. intros fs.
  assert (Hnone : hoare (fun s => (wellFormed s /\ movable D s) /\ fs = files s)
                    (ret tt) (fun _ => wellFormed)).
  { intros s [[Hw _] _]. exact Hw. }
  destruct (negb (includes fs (oid D))); [|exact Hnone].
  destruct (findParentOfComponent (oid D) fs) as [pf il] eqn:Efp. cbn [parent inList].
  destruct pf as [| |p]; try exact Hnone.
  destruct il as [l|]; try exact Hnone.
  destruct (findParentOfComponent_sound (oid D) fs p (Some l) Efp)
    as (l0 & [= <-] & Hin & Hinc).
  eapply hoare_bind.
  - eapply hoare_weaken; [apply (hoare_takeOut D l fs)| |intros a s H; exact H].
    intros s [[Hw Hm] E]. split; [exact Hw|split; [exact Hm|symmetry; exact E]].
  - intros r. eapply hoare_bind; [apply setChildren_detaches; assumption|].
    intros ?. eapply hoare_bind; [apply keeps_append|].
    intros ?. apply keeps_bind; [apply heapStep_keeps, heapStep_updateParentHeight|].
    intros ?. apply keeps_bind; [apply heapStep_keeps, heapStep_reposition|].
    intros ?. apply keeps_bind; [apply keeps_gets|].
    intros s. apply keeps_setObject.
Qed.
End Drop.

Section KeepsHandlers.
Variable totalHeight : scene -> ref -> Z.
Variable drawnBox : scene -> ref -> box.

Lemma keeps_endDragging : keeps endDragging.
Proof. unfold endDragging. frame. Qed.

Lemma hoare_pre {A : Type} (P : scene -> Prop) (m : handler A) :
  keeps m -> (forall s, P s -> wellFormed s) -> hoare P m (fun _ => wellFormed).
Proof. intros Hm HP. eapply hoare_weaken; [exact Hm|exact HP|auto]. Qed.

Lemma mouseup_keeps (mx my : Z) (ctrl : bool) (detachedChildren : option (list node)) :
  hoare (fun s => wellFormed s /\ detachedObject s detachedChildren)
    (mouseup totalHeight drawnBox mx my ctrl detachedChildren) (fun _ => wellFormed).
Proof.
  unfold mouseup.
  eapply hoare_bind; [apply hoare_gets|]. intros s0.
  destruct (isAreaSelecting s0).
  { apply hoare_pre; [|tauto].
    apply keeps_bind; [|intros ?; frame].
    destruct (selectComponentsInArea _ _ _ _ _ _) as [|c cs].
    - apply keeps_when, keeps_clearSelection.
    - destruct ctrl.
      + apply keeps_forEach. intros a. apply keeps_addToMultiSelection.
      + apply keeps_bind; [apply keeps_clearSelection|intros ?; frame]. }
  destruct (draggingFile s0) as [d|] eqn:Ed; [|apply hoare_pre; [apply keeps_ret|tauto]].
  eapply hoare_bind with
    (Q := fun _ s => wellFormed s
                     /\ (~ In d (refs (files s)) -> detached (Node d detachedChildren) s)).
  { intros s [[Hs Hdet] ->].
    pose proof keeps_saveState as Hk. specialize (Hk s Hs).
    pose proof (saveState_files s) as Hf.
    destruct (saveState_spec s) as (copies & s1 & (Hfr & Hnext & _) & E).
    rewrite E in *. simpl in *. split; [exact Hk|].
    rewrite Hf. intros Hout. unfold detachedObject in Hdet. rewrite Ed in Hdet.
    destruct (Hdet Hout) as (TD & AD & Dis).
    split; [exact TD|]. split.
    - intros r Hr. specialize (AD r Hr). cbn. lia.
    - cbn. rewrite Hf. exact Dis. }
  intros ?. destruct (multiSelectedFiles s0) as [|c cs].
  - eapply hoare_bind with (Q := fun D s => wellFormed s /\ movable D s).
    { intros s [Hs Hst]. unfold draggedObject, gets. simpl. split; [exact Hs|].
      destruct (findNode d (files s)) as [n|] eqn:E.
      - left. apply findNode_Some in E. tauto.
      - right. apply Hst. apply findNode_None. exact E. }
    intros D. eapply hoare_bind; [apply hoare_gets|]. intros s1.
    apply hoare_bind with (Q := fun _ => wellFormed).
    + eapply hoare_weaken with (Q' := fun _ => wellFormed);
        [|intros s H; exact (proj1 H)|auto].
      destruct (if isEventBox (store s1 d) then None
                else findDropTarget (store s1) mx my D (files s1)) as [t|].
      * apply dropInto_keeps.
      * apply promote_keeps.
    + intros ?. apply keeps_bind; [apply keeps_endDragging|intros ?; apply keeps_draw].
  - apply hoare_pre; [|tauto].
    apply keeps_bind; [apply keeps_endDragging|intros ?; apply keeps_draw].
Qed.
End KeepsHandlers.

(** ** The other handlers *)

Lemma wellFormed_removed (s : scene) (t : ref) (l' : list node) :
  wellFormed s -> removedFrom t (files s) l' -> wellFormed (set_files l' s).
Proof.
  intros (Ht & Ha & Hh) Hrem.
  destruct (removedFrom_tree t (files s) l' Ht Hrem) as [T2 I2].
  unfold wellFormed. cbn. split; [exact T2|]. split; [|exact Hh].
  intros r Hr. apply Ha, I2, Hr.
Qed.

Lemma wellFormed_setChildren (s : scene) (t p : ref) (l l' : list node) :
  wellFormed s -> In (Node p (Some l)) (flattenComponents (files s)) ->
  removedFrom t l l' ->
  wellFormed (set_files (setChildren p l' (files s)) s).
Proof.
  intros (Ht & Ha & Hh) Hin (X & Ho & HX & Hperm).
  pose proof (setChildren_perm p l (files s) Ht Hin l' (refs [X]) Hperm) as Hp.
  unfold wellFormed. cbn. split; [|split; [|exact Hh]].
  - eapply NoDup_app_remove_l. eapply Permutation_NoDup; [exact Hp|exact Ht].
  - intros r Hr. apply Ha. eapply Permutation_in; [symmetry; exact Hp|].
    rewrite in_app_iff. auto.
Qed.

Lemma refs_single (r : ref) (c : option (list node)) :
  refs [Node r c] = r :: orefs c.
Proof. apply refs_node. Qed.

Lemma hoare_alloc (c : option (list node)) :
  orefs c = [] ->
  hoare wellFormed alloc (fun r s => wellFormed s /\ detached (Node r c) s).
Proof.
  intros Hc s (Ht & Ha & Hh). simpl. split.
  - eapply wellFormed_same; [| | |repeat split; eassumption]; cbn; auto.
  - unfold detached, tree, allocated. rewrite refs_single, Hc. cbn. split; [|split].
    + constructor; [intros []|constructor].
    + intros r [<-|[]]. lia.
    + intros r [<-|[]] Hin. specialize (Ha _ Hin). lia.
Qed.

Lemma keeps_deepCloneComponent (n : node) : keeps (deepCloneComponent n).
Proof.
  induction n as [r | r l IH] using node_ind; simpl.
  - apply keeps_throw.
  - apply keeps_bind; [apply keeps_mapM; exact IH|intros l'].
    apply keeps_bind; [apply keeps_alloc|intros r'].
    apply keeps_bind; [apply keeps_gets|intros o].
    apply keeps_bind; [apply keeps_setObject|intros ?; apply keeps_ret].
Qed.

Section KeepsOthers.
Variable totalHeight : scene -> ref -> Z.
Variable drawnBox : scene -> ref -> box.
Variable onPath : scene -> connection -> Z -> Z -> bool.

Let kdraw := keeps_draw drawnBox.

Lemma keeps_duplicateComponent (originalFile : node) (mx my : Z) :
  keeps (duplicateComponent drawnBox originalFile mx my).
Proof.
  unfold duplicateComponent.
  apply keeps_bind; [apply keeps_deepCloneComponent|intros d].
  apply keeps_bind; [apply keeps_gets|intros o].
  apply keeps_bind; [apply keeps_setObject|intros ?].
  apply keeps_bind; [apply keeps_gets|intros fs].
  apply keeps_bind; [apply keeps_throw|intros ?].
  apply keeps_bind; [frame|intros ?; apply kdraw].
Qed.

Lemma keeps_click (mx my : Z) (ctrl shift : bool) :
  keeps (click totalHeight drawnBox mx my ctrl shift).
Proof.
  unfold click.
  apply keeps_bind; [frame|intros ?].
  apply keeps_bind; [apply keeps_gets|intros fs].
  apply keeps_bind; [apply keeps_toggleAt|intros toggled].
  destruct toggled.
  - apply keeps_bind; [apply keeps_saveState|intros ?; apply kdraw].
  - apply keeps_bind; [apply keeps_gets|intros s].
    destruct (if ctrl && negb shift then _ else None) as [clickedFile|]; [|apply kdraw].
    destruct (multiSelectedFiles s); [|apply kdraw].
    apply keeps_bind; [apply keeps_saveState|intros ?; apply keeps_duplicateComponent].
Qed.

Lemma keeps_startDragging (clickedFile : node) (mx my : Z) :
  keeps (startDragging clickedFile mx my).
Proof. unfold startDragging. frame. Qed.

Lemma keeps_mousedownConnecting (mx my now : Z) :
  keeps (mousedownConnecting drawnBox mx my now).
Proof.
  unfold mousedownConnecting.
  apply keeps_bind; [apply keeps_gets|intros s].
  apply keeps_bind; [|intros ?; apply kdraw].
  destruct (findFileAtPosition _ _ _ _ _) as [clickedFile|];
    [|apply keeps_resetConnectionMode].
  destruct (connectionStart s) as [start|]; [|frame].
  destruct (negb _); [|apply keeps_ret].
  apply keeps_bind; [|intros ?; apply keeps_resetConnectionMode].
  destruct (find _ _); [apply keeps_ret|].
  apply keeps_bind; [apply keeps_alloc|intros r].
  apply keeps_bind; [frame|intros ?; apply keeps_saveState].
Qed.

Lemma keeps_mousedown (mx my : Z) (ctrl : bool) (now : Z) :
  keeps (mousedown drawnBox onPath mx my ctrl now).
Proof.
  unfold mousedown.
  apply keeps_bind; [apply keeps_gets|intros connecting].
  destruct connecting; [apply keeps_mousedownConnecting|].
  apply keeps_bind; [apply keeps_gets|intros clickedConnection].
  destruct clickedConnection as [c|].
  { apply keeps_bind; [frame|intros ?].
    apply keeps_bind; [apply keeps_clearSelection|intros ?; apply kdraw]. }
  apply keeps_bind; [apply keeps_gets|intros s].
  destruct (findFileAtPosition _ _ _ _ _) as [clickedFile|].
  - destruct (negb ctrl).
    + apply keeps_bind; [apply keeps_gets|intros isSelected].
      destruct (existsb _ _).
      * apply keeps_bind; [apply keeps_startDragging|intros ?; apply kdraw].
      * apply keeps_bind; [apply keeps_clearSelection|intros ?].
        apply keeps_bind; [frame|intros ?].
        destruct (_ || _); [|apply kdraw].
        apply keeps_bind; [apply keeps_startDragging|intros ?; apply kdraw].
    + apply keeps_bind; [|intros ?; apply kdraw].
      destruct (existsb _ _);
        [apply keeps_removeFromMultiSelection|apply keeps_addToMultiSelection].
  - apply keeps_bind; [apply keeps_when, keeps_clearSelection|intros ?]. frame.
Qed.

Lemma keeps_mousemove (mx my : Z) : keeps (mousemove drawnBox onPath mx my).
Proof.
  unfold mousemove.
  apply keeps_bind; [apply keeps_gets|intros s].
  destruct (isConnecting s && isSome (connectionStart s)).
  { apply keeps_bind; [frame|intros ?; apply kdraw]. }
  destruct (isAreaSelecting s).
  { apply keeps_bind; [frame|intros ?; apply kdraw]. }
  destruct (draggingFile s) as [d|].
  - apply keeps_bind; [apply keeps_setObject|intros ?].
    apply keeps_bind.
    + apply keeps_when, keeps_forEach. intros component.
      destruct (Nat.eqb component d); [apply keeps_ret|].
      unfold movePosition. apply keeps_bind; [apply keeps_gets|intros o].
      apply keeps_setObject.
    + intros ?. apply keeps_bind; [frame|intros ?; apply kdraw].
  - apply keeps_bind; [apply keeps_gets|intros newHoveredConnection].
    apply keeps_bind.
    + apply keeps_when. apply keeps_bind; [frame|intros ?; apply kdraw].
    + intros ?. apply keeps_when. apply keeps_bind; [frame|intros ?; apply kdraw].
Qed.

Lemma keeps_finishInput (name0 : string) (px py : Z) :
  keeps (finishInput drawnBox name0 px py).
Proof.
  unfold finishInput. destruct (String.eqb name0 ""); [apply keeps_ret|].
  apply keeps_bind; [apply keeps_saveState|intros ?].
  eapply hoare_bind; [apply (hoare_alloc (Some [])); reflexivity|intros r].
  eapply hoare_bind.
  - apply (hoare_heapStep (setObject r (createNewComponent name0 px py))
             (detached (Node r (Some [])))).
    + apply heapStep_setObject.
    + intros s s'. apply detached_sameForest.
  - intros ?. eapply hoare_bind; [apply keeps_append|intros ?; apply kdraw].
Qed.

Lemma keeps_createEventBox (type0 : string) (dy : Z) (name0 : string) (now : Z) :
  keeps (createEventBox drawnBox type0 dy name0 now).
Proof.
  unfold createEventBox.
  apply keeps_bind; [apply keeps_gets|intros sel].
  destruct sel as [selected|]; [|apply keeps_ret].
  apply keeps_bind; [apply keeps_saveState|intros ?].
  apply keeps_bind; [apply keeps_gets|intros o].
  eapply hoare_bind; [apply (hoare_alloc None); reflexivity|intros r].
  eapply hoare_bind.
  - apply (hoare_heapStep (setObject r _) (detached (Node r None))).
    + apply heapStep_setObject.
    + intros s s'. apply detached_sameForest.
  - intros ?. eapply hoare_bind; [apply keeps_append|intros ?].
    apply keeps_bind; [apply keeps_alloc|intros c].
    apply keeps_bind; [frame|intros ?; apply kdraw].
Qed.

Lemma keeps_removeConnectedHook (connectionId : Z) :
  keeps (removeConnectedHook drawnBox connectionId).
Proof.
  unfold removeConnectedHook.
  apply keeps_bind; [apply keeps_saveState|intros ?].
  eapply hoare_bind; [apply hoare_gets|intros s0].
  destruct (find _ (connections s0)) as [connection0|];
    [|intros s [Hs _]; exact Hs].
  eapply hoare_bind with (Q := fun _ => wellFormed).
  - destruct (indexOf (to connection0) (files s0)) as [i|] eqn:E.
    + apply hoare_modify. intros s [Hs ->].
      eapply wellFormed_removed; [exact Hs|]. apply indexOf_removedFrom. exact E.
    + intros s [Hs _]. exact Hs.
  - intros ?. apply keeps_bind; [frame|intros ?; apply kdraw].
Qed.

Lemma keeps_clearCanvas : keeps (clearCanvas drawnBox).
Proof.
  unfold clearCanvas.
  apply keeps_bind; [apply keeps_saveState|intros ?].
  apply keeps_bind.
  - apply hoare_modify. intros s (_ & _ & Hh). unfold wellFormed. cbn.
    split; [constructor|]. split; [intros r []|exact Hh].
  - intros ?. apply keeps_bind; [apply keeps_clearSelection|intros ?].
    apply keeps_bind; [frame|intros ?; apply kdraw].
Qed.

Lemma keeps_toggleConnectionMode : keeps (toggleConnectionMode drawnBox).
Proof.
  unfold toggleConnectionMode.
  apply keeps_bind; [frame|intros ?].
  apply keeps_bind; [apply keeps_gets|intros connecting].
  apply keeps_bind; [|intros ?; apply kdraw].
  destruct connecting; [frame|apply keeps_resetConnectionMode].
Qed.

Lemma keeps_escape : keeps (escape drawnBox).
Proof.
  unfold escape.
  apply keeps_bind; [apply keeps_gets|intros connecting].
  apply keeps_bind; [apply keeps_when, keeps_resetConnectionMode|intros ?].
  apply keeps_bind; [frame|intros ?; apply kdraw].
Qed.

Lemma keeps_deleteComponent (component : ref) :
  keeps (deleteComponent totalHeight component).
Proof.
  unfold deleteComponent.
  eapply hoare_bind; [apply hoare_gets|intros fs].
  eapply hoare_bind with (Q := fun _ => wellFormed); [|intros ?; frame].
  assert (Htop : hoare (fun s => wellFormed s /\ fs = files s)
                   (match indexOf component fs with
                    | Some fileIndex => modify (set_files (splice1 fileIndex fs))
                    | None => ret tt
                    end) (fun _ => wellFormed)).
  { destruct (indexOf component fs) as [i|] eqn:E.
    - apply hoare_modify. intros s [Hs ->].
      eapply wellFormed_removed; [exact Hs|]. apply indexOf_removedFrom. exact E.
    - intros s [Hs _]. exact Hs. }
  destruct (findParentOfComponent component fs) as [pf il] eqn:Efp. cbn [parent inList].
  destruct pf as [| |p]; try exact Htop.
  destruct il as [l|]; try exact Htop.
  destruct (findParentOfComponent_sound component fs p (Some l) Efp)
    as (l0 & [= <-] & Hin & Hinc).
  destruct (indexOf component l) as [i|] eqn:E; [|intros s [Hs _]; exact Hs].
  eapply hoare_bind with (Q := fun _ => wellFormed).
  - apply hoare_modify. intros s [Hs ->].
    eapply wellFormed_setChildren; [exact Hs|exact Hin|].
    apply indexOf_removedFrom. exact E.
  - intros ?. apply keeps_bind; [apply heapStep_keeps, heapStep_updateParentHeight|].
    intros ?. apply heapStep_keeps, heapStep_reposition.
Qed.

Lemma keeps_deleteSelection : keeps (deleteSelection totalHeight drawnBox).
Proof.
  unfold deleteSelection.
  apply keeps_bind; [apply keeps_gets|intros s0].
  destruct (selectedConnection s0) as [sc|].
  { apply keeps_bind; [apply keeps_saveState|intros ?].
    apply keeps_bind; [frame|intros ?; apply kdraw]. }
  destruct (multiSelectedFiles s0) as [|c cs].
  - destruct (selectedFile s0) as [sel|]; [|apply keeps_ret].
    apply keeps_bind; [apply keeps_saveState|intros ?].
    eapply hoare_bind; [apply hoare_gets|intros fs].
    eapply hoare_bind.
    + apply (hoare_removeFile sel fs (fun s => fs = files s)).
      intros s s' (E & _) ->. symmetry. exact E.
    + intros [b l']. simpl.
      eapply hoare_bind with (Q := fun _ => wellFormed).
      * apply hoare_modify. intros s (Hs & -> & Hb). destruct b.
        -- eapply wellFormed_removed; eauto.
        -- destruct Hb as [-> _]. destruct Hs as (? & ? & ?).
           unfold wellFormed. cbn. auto.
      * intros ?. apply keeps_bind; [apply keeps_clearSelection|intros ?].
        apply keeps_bind; [frame|intros ?; apply kdraw].
  - apply keeps_bind; [apply keeps_saveState|intros ?].
    apply keeps_bind; [apply keeps_forEach; intros comp; apply keeps_deleteComponent|].
    intros ?. apply keeps_bind; [apply keeps_clearSelection|intros ?].
    apply keeps_bind; [frame|intros ?; apply kdraw].
Qed.

Lemma keeps_keydown (key : string) (ctrl : bool) :
  keeps (keydown totalHeight drawnBox key ctrl).
Proof.
  unfold keydown.
  apply keeps_bind; [apply keeps_when, keeps_undo|intros ?].
  apply keeps_bind; [apply keeps_when, keeps_toggleConnectionMode|intros ?].
  apply keeps_bind; [apply keeps_when, keeps_deleteSelection|intros ?].
  apply keeps_when, keeps_escape.
Qed.

(** Every handler keeps the scene well formed. *)
Lemma step_wellFormed (s : scene) (e : event) :
  wellFormed s -> admissible s e ->
  wellFormed (step totalHeight drawnBox onPath s e).
Proof.
  intros Hs Ha. unfold step.
  assert (Hk : forall m : handler unit, keeps m -> wellFormed (snd (m s))).
  { intros m Hm. specialize (Hm s Hs). destruct (m s) as [[[]|] s']; exact Hm. }
  destruct e; simpl in *.
  - apply Hk, keeps_mousedown.
  - apply Hk, keeps_mousemove.
  - pose proof (mouseup_keeps totalHeight drawnBox mx my ctrl detachedChildren s
                  (conj Hs Ha)) as H.
    destruct (mouseup _ _ _ _ _ _ s) as [[[]|] s']; exact H.
  - apply Hk, keeps_click.
  - apply Hk, keeps_keydown.
  - apply Hk, keeps_finishInput.
  - apply Hk. unfold createHookFromInput, createTriggerFromInput. apply keeps_createEventBox.
  - apply Hk. unfold createHookFromInput, createTriggerFromInput. apply keeps_createEventBox.
  - apply Hk, keeps_removeConnectedHook.
  - apply Hk, keeps_clearCanvas.
  - apply Hk, keeps_toggleConnectionMode.
Qed.
End KeepsOthers.

(** ** One place for every object *)

Lemma places_count (r : ref) (l : list node) :
  places r l = count_occ Nat.eq_dec (refs l) r.
Proof.
  pattern l.
  apply forest_ind with
    (P := fun n => placesBelow r n = count_occ Nat.eq_dec (orefs (children n)) r);
    clear l.
  - reflexivity.
  - intros i l IH. exact IH.
  - reflexivity.
  - intros n l Hn Hl. rewrite refs_cons, count_occ_app.
    unfold ref in *. rewrite <- Hl.
    destruct n as [i c]. rewrite refs_single.
    change (places r (Node i c :: l))
      with ((if Nat.eqb i r then 1 else 0) + placesBelow r (Node i c) + places r l).
    rewrite Hn. cbn [children count_occ].
    destruct (Nat.eq_dec i r) as [E|E].
    + subst. rewrite Nat.eqb_refl. lia.
    + apply Nat.eqb_neq in E. rewrite E. lia.
Qed.


(** ** Instances *)

Lemma wellFormed_twoComponents : wellFormed twoComponents.
Proof.
  unfold wellFormed, tree, allocated. vm_compute. split; [|split].
  - constructor; [intros [H|[]]; discriminate|].
    constructor; [intros []|constructor].
  - intros r [<-|[<-|[]]]; repeat constructor.
  - constructor.
Defined.


Lemma findDropTarget_sound_witness :
  oid (Node 1 (Some [])) <> oid (Node 0 (Some []))
  /\ isDescendantOf 1 (Node 0 (Some [])) = false
  /\ isEventBox (store twoComponents 1) = false.
Proof.
  apply (proj1 (findDropTarget_sound (store twoComponents) 310 60
                  (Node 0 (Some [])) (files twoComponents))).
  reflexivity.
Defined.

Lemma findFileAtPosition_priority_witness :
  findFileAtPosition (store withHookBox) (connections withHookBox) 100 370
    [Node 2 (Some [Node 3 (Some [])])] = Some (Node 3 (Some [])).
Proof.
  apply (proj2 (proj2 (proj2 (proj2
           (findFileAtPosition_priority (store withHookBox) (connections withHookBox)
              100 370))))); reflexivity.
Defined.

Lemma connection_unique_per_pair_witness :
  List.length
    (connectionsBetween 0 1
       (connections
          (snd (mousedownConnecting keepBox 310 60 7 (connectingFrom 0 twoComponents))))) = 1
  /\ connections
       (snd (mousedownConnecting keepBox 150 70 9
               (connectingFrom 1
                  (snd (mousedownConnecting keepBox 310 60 7
                          (connectingFrom 0 twoComponents))))))
     = connections
         (snd (mousedownConnecting keepBox 310 60 7 (connectingFrom 0 twoComponents))).
Proof.
  refine (proj2 (proj2 (connection_unique_per_pair keepBox 310 60 7
                         (connectingFrom 0 twoComponents)))
           (Node 0 (Some [])) (Node 1 (Some [])) 150%Z 70%Z 9%Z
           (connectingFrom 1
              (snd (mousedownConnecting keepBox 310 60 7
                      (connectingFrom 0 twoComponents)))) _ _ _ _ _ _ _).
  - reflexivity.
  - reflexivity.
  - simpl; lia.
  - reflexivity.
  - vm_compute; reflexivity.
  - vm_compute; reflexivity.
  - vm_compute; reflexivity.
Defined.

(** ** Arrows after undo *)

(** C5.  With [Alpha] (object 0) selected, two hooks are made from the drawer
    under the default name, a component is added and the addition undone.
    Before the undo the two arrows join [Alpha] to two hook boxes, one each.
    The two boxes agree in name, position and type, so
    [reconstructConnections] resolves the far end of both arrows to the first
    of them: in the scene after the undo, which is reachable, two arrows join
    the same pair of objects. *)
Theorem undo_joins_one_pair_twice :
  let S := selecting 0 false twoComponents in
  let S3 :=
    step keepHeight keepBox offPath
      (step keepHeight keepBox offPath
         (step keepHeight keepBox offPath S (CreateHookFromInput "useHook" 7))
         (CreateHookFromInput "useHook" 8))
      (FinishInput "Gamma" 50 300) in
  let S' := step keepHeight keepBox offPath S3 (KeyDown "z" true) in
  reachable keepHeight keepBox offPath S'
  /\ map (fun c => (id c, from c, to c)) (connections S3) = [(7%Z, 0, 4); (8%Z, 0, 9)]
  /\ atMostOnePerPair (connections S3)
  /\ map (fun n => (name (store S3 (oid n)), x (store S3 (oid n)), y (store S3 (oid n)),
                    type (store S3 (oid n)))) [Node 4 None; Node 9 None]
     = [("useHook"%string, Some 500%Z, Some 50%Z, "HOOK"%string);
        ("useHook"%string, Some 500%Z, Some 50%Z, "HOOK"%string)]
  /\ fst (keydown keepHeight keepBox "z" true S3) = Returned tt
  /\ refs (files S') = [11; 12; 13; 14]
  /\ map (fun c => (id c, from c, to c)) (connections S') = [(7%Z, 11, 13); (8%Z, 11, 13)]
  /\ List.length (connectionsBetween 11 13 (connections S')) = 2
  /\ ~ atMostOnePerPair (connections S').
Proof.
  cbv zeta. split.
  - repeat (apply reachable_step; [|exact I]).
    apply reachable_start. unfold wellFormed, tree, allocated. vm_compute.
    split; [|split].
    + constructor; [intros [H|[]]; discriminate|].
      constructor; [intros []|constructor].
    + intros r [<-|[<-|[]]]; repeat constructor.
    + constructor.
  - split; [vm_compute; reflexivity|]. split.
    { intros a b.
      replace (connections _)
        with [{| cref := 5; id := 7%Z; from := 0; to := 4 |};
              {| cref := 10; id := 8%Z; from := 0; to := 9 |}]
        by (vm_compute; reflexivity).
      unfold connectionsBetween, samePair. cbn [filter from to].
      destruct (Nat.eqb_spec 0 a), (Nat.eqb_spec 4 b), (Nat.eqb_spec 0 b),
        (Nat.eqb_spec 4 a), (Nat.eqb_spec 9 b), (Nat.eqb_spec 9 a);
        subst; try discriminate; cbn; lia. }
    split; [vm_compute; reflexivity|]. split; [vm_compute; reflexivity|].
    split; [vm_compute; reflexivity|]. split; [vm_compute; reflexivity|].
    split; [vm_compute; reflexivity|].
    intros H. specialize (H 11 13). vm_compute in H. lia.
Qed.

(** * Further properties of the code *)

(** ** Arrow routing *)

(** X1.  The route [calculateOrthogonalPath] computes for an arrow starts at
    the first point and ends at the second.  When both distances are below 5
    it is the direct segment; otherwise it has four points and each of its
    three segments runs along an axis, whatever the arithmetic computes. *)
Theorem calculateOrthogonalPath_orthogonal
    (num : Type) (add sub mul div : num -> num -> num) (neg abs : num -> num)
    (lt : num -> num -> bool) (lit : Z -> num) (fromX fromY toX toY : num) :
  let path := calculateOrthogonalPath add sub mul div neg abs lt lit fromX fromY toX toY in
  let close := lt (abs (sub toX fromX)) (lit 5%Z) && lt (abs (sub toY fromY)) (lit 5%Z) in
  hd_error path = Some (Point fromX fromY)
  /\ last path (Point fromX fromY) = Point toX toY
  /\ (if close then path = [Point fromX fromY; Point toX toY]
      else List.length path = 4 /\ Forall axisParallel (segments path)).
Proof.
  intros path close. subst path close. unfold calculateOrthogonalPath.
  destruct (lt (abs (sub toX fromX)) (lit 5%Z) && lt (abs (sub toY fromY)) (lit 5%Z)).
  - repeat split.
  - destruct (lt (lit 30%Z) (abs (sub toX fromX)) && lt (lit 30%Z) (abs (sub toY fromY)));
      destruct (lt (abs (sub toY fromY)) (abs (sub toX fromX)));
      try destruct (lt (mul (lit 30%Z) (lit 2%Z)) (abs (sub toX fromX)));
      try destruct (lt (mul (lit 30%Z) (lit 2%Z)) (abs (sub toY fromY)));
      cbn; (split; [reflexivity|split; [reflexivity|split; [reflexivity|]]]);
      repeat (apply Forall_cons || apply Forall_nil);
      unfold axisParallel; cbn; first [left; reflexivity | right; reflexivity].
Qed.

(** ** Descendants *)

Lemma in_refs_iff (r : ref) (l : list node) :
  In r (refs l) <-> exists n, In n l /\ (oid n = r \/ In r (orefs (children n))).
Proof.
  split; [apply refs_in_cases|].
  intros (n & Hn & [<-|H]).
  - apply in_flatten_refs, in_children_flatten. exact Hn.
  - destruct n as [i [c|]]; [|destruct H]. simpl in H.
    apply in_refs_flatten in H. destruct H as (m & Hm & <-).
    apply in_flatten_refs.
    apply (flatten_below l i c (in_children_flatten _ _ Hn) m Hm).
Qed.

Lemma isDescendantOf_iff (potentialChild : ref) (potentialParent : node) :
  isDescendantOf potentialChild potentialParent = true
  <-> In potentialChild (orefs (children potentialParent)).
Proof.
  induction potentialParent as [r | r l IH] using node_ind; simpl.
  - split; [discriminate|intros []].
  - rewrite existsb_exists, in_refs_iff. rewrite Forall_forall in IH.
    split; intros (n & Hn & H); exists n; (split; [exact Hn|]).
    + apply orb_true_iff in H. destruct H as [H|H].
      * left. apply Nat.eqb_eq. exact H.
      * right. apply (IH n Hn). exact H.
    + apply orb_true_iff. destruct H as [H|H].
      * left. apply Nat.eqb_eq. exact H.
      * right. apply (IH n Hn). exact H.
Qed.

(** X2.  [isDescendantOf] answers true exactly for the objects that sit
    somewhere below the other object, at any depth; in a tree no object is
    below itself. *)
Theorem isDescendantOf_below (potentialChild : ref) (potentialParent : node) :
  (isDescendantOf potentialChild potentialParent = true
   <-> In potentialChild (orefs (children potentialParent)))
  /\ (tree [potentialParent] ->
      isDescendantOf (oid potentialParent) potentialParent = false).
Proof.
  split; [apply isDescendantOf_iff|].
  intros Ht. destruct (isDescendantOf (oid potentialParent) potentialParent) eqn:E;
    [|reflexivity].
  apply isDescendantOf_iff in E. unfold tree in Ht.
  destruct potentialParent as [r c]. rewrite refs_single in Ht.
  inversion Ht; subst. contradiction.
Qed.

Lemma isDescendantOf_below_witness :
  isDescendantOf 0 (Node 0 (Some [Node 1 (Some [Node 2 None])])) = false.
Proof.
  apply (proj2 (isDescendantOf_below 0 (Node 0 (Some [Node 1 (Some [Node 2 None])])))).
  unfold tree. vm_compute. repeat constructor; simpl; intuition discriminate.
Defined.

(** ** Parent lookup *)

Lemma below_in_orefs (n : node) (p : ref) (c : list node) (t : ref) :
  In (Node p (Some c)) (flattenComponent n) -> In t (refs c) ->
  In t (orefs (children n)).
Proof.
  intros HP Ht. rewrite flattenComponent_eq in HP. destruct HP as [->|HP].
  - exact Ht.
  - destruct (children n) as [l0|]; [|destruct HP]. simpl.
    apply in_refs_flatten in Ht. destruct Ht as (m & Hm & <-).
    apply in_flatten_refs. exact (flatten_below l0 p c HP m Hm).
Qed.

Lemma parentStep_passes (F : node -> parentInfo) (t : ref) (parent0 : parentField)
    (whole : list node) (n : node) :
  oid n <> t -> F n = notFound -> parentStep F t parent0 whole n = None.
Proof.
  intros Hne HF. unfold parentStep. apply Nat.eqb_neq in Hne. rewrite Hne, HF.
  destruct (nonEmpty (children n)); reflexivity.
Qed.

Lemma findParentOfComponent_loop (t : ref) (l : list node) :
  forall whole parent0, NoDup (refs l) ->
    let loop := findFirst (parentStep (findParentOfComponent_children t) t parent0 whole) l in
    (~ In t (refs l) -> loop = None)
    /\ (includes l t = true -> loop = Some {| parent := parent0; inList := Some whole |})
    /\ (forall p c, In (Node p (Some c)) (flattenComponents l) -> includes c t = true ->
          loop = Some {| parent := Obj p; inList := Some c |}).
Proof.
  pattern l.
  apply forest_ind with
    (P := fun n => NoDup (refs [n]) ->
            (~ In t (orefs (children n)) -> findParentOfComponent_children t n = notFound)
            /\ (forall p c, In (Node p (Some c)) (flattenComponent n) ->
                  includes c t = true ->
                  findParentOfComponent_children t n = {| parent := Obj p; inList := Some c |}));
    clear l.
  - intros r _. split; [reflexivity|]. intros p c [H|[]]. discriminate.
  - intros r l IH Hnd. rewrite refs_single in Hnd. simpl in Hnd.
    inversion Hnd as [|? ? _ Hl]; subst.
    destruct (IH l (Obj r) Hl) as (Ha & Hb & Hc).
    simpl. unfold parentLoop. split.
    + intros Hnot. rewrite (Ha Hnot). reflexivity.
    + intros p c [H|H] Hinc.
      * injection H as -> ->. rewrite (Hb Hinc). reflexivity.
      * rewrite (Hc p c H Hinc). reflexivity.
  - intros whole parent0 _. simpl. split; [reflexivity|].
    split; [discriminate|intros p c []].
  - intros n l Hn Hl whole parent0 Hnd. rewrite refs_cons in Hnd.
    assert (Hnd1 : NoDup (refs [n])) by (eapply NoDup_app_remove_r; exact Hnd).
    assert (Hnd2 : NoDup (refs l)) by (eapply NoDup_app_remove_l; exact Hnd).
    assert (Hdis : forall r, In r (refs l) -> ~ In r (refs [n])).
    { intros r Hr Hin. eapply NoDup_app_disjoint; eauto. }
    destruct (Hn Hnd1) as (Hna & Hnc). destruct (Hl whole parent0 Hnd2) as (Ha & Hb & Hc).
    assert (Hskip : forall r, In r (refs l) -> r = t ->
              parentStep (findParentOfComponent_children t) t parent0 whole n = None).
    { intros r Hr ->. specialize (Hdis t Hr). destruct n as [i ch].
      rewrite refs_single in Hdis. simpl in Hdis.
      apply parentStep_passes; [simpl; tauto|apply Hna; simpl; tauto]. }
    cbn [findFirst]. split; [|split].
    + intros Hnot. rewrite refs_cons, in_app_iff in Hnot.
      destruct n as [i ch]. rewrite refs_single in Hnot. simpl in Hnot.
      rewrite parentStep_passes; [apply Ha; tauto|simpl; tauto|apply Hna; simpl; tauto].
    + unfold includes. cbn [existsb]. intros Hinc.
      destruct (Nat.eqb (oid n) t) eqn:E.
      * unfold parentStep. rewrite E. reflexivity.
      * simpl in Hinc. rewrite (Hskip t (includes_refs _ _ Hinc) eq_refl).
        apply Hb. exact Hinc.
    + intros p c HP Hinc. rewrite flattenComponents_cons, in_app_iff in HP.
      pose proof (includes_refs _ _ Hinc) as Htc.
      destruct HP as [HP|HP].
      * pose proof (below_in_orefs n p c t HP Htc) as Hbelow.
        destruct n as [i ch]. rewrite refs_single in Hnd1. simpl in Hnd1, Hbelow.
        inversion Hnd1 as [|? ? Hi _]; subst.
        assert (Hne : Nat.eqb i t = false).
        { apply Nat.eqb_neq. intros ->. contradiction. }
        unfold parentStep. cbn [oid children]. rewrite Hne.
        assert (Hch : nonEmpty ch = true).
        { destruct ch as [[|a l0]|]; simpl in *; tauto. }
        rewrite Hch, (Hnc p c HP Hinc). reflexivity.
      * assert (Htl : In t (refs l)).
        { apply in_refs_flatten in Htc. destruct Htc as (m & Hm & <-).
          apply in_flatten_refs. exact (flatten_below l p c HP m Hm). }
        rewrite (Hskip t Htl eq_refl). apply Hc; assumption.
Qed.

(** X3.  In a tree, [findParentOfComponent] finds every object of the
    forest with the array that holds it: [parent] is null and [list] the
    top-level list for a top-level object, [parent] is the object whose
    [children] array holds the target otherwise; for a target that is not in
    the forest it answers [{ parent: undefined, list: null }]. *)
Theorem findParentOfComponent_complete (targetFile : ref) (fs : list node) :
  tree fs ->
  (includes fs targetFile = true ->
   findParentOfComponent targetFile fs = {| parent := Null; inList := Some fs |})
  /\ (forall p c, In (Node p (Some c)) (flattenComponents fs) ->
        includes c targetFile = true ->
        findParentOfComponent targetFile fs = {| parent := Obj p; inList := Some c |})
  /\ (~ In targetFile (refs fs) -> findParentOfComponent targetFile fs = notFound).
Proof.
  intros Ht. destruct (findParentOfComponent_loop targetFile fs fs Null Ht) as (Ha & Hb & Hc).
  unfold findParentOfComponent, parentLoop. split; [|split].
  - intros H. rewrite (Hb H). reflexivity.
  - intros p c HP H. rewrite (Hc p c HP H). reflexivity.
  - intros H. rewrite (Ha H). reflexivity.
Qed.

Lemma findParentOfComponent_complete_witness :
  findParentOfComponent 2 (files nestedWithArrow)
  = {| parent := Obj 1; inList := Some [Node 2 (Some [])] |}.
Proof.
  apply (proj1 (proj2 (findParentOfComponent_complete 2 (files nestedWithArrow)
                         ltac:(unfold tree; vm_compute; repeat constructor;
                               simpl; intuition discriminate)))).
  - vm_compute. right. left. reflexivity.
  - reflexivity.
Defined.

(** ** Drop targets *)

Section DropTargetHit.
Variable hp : heap.
Variables mx my : Z.
Variable draggedFile : node.

Lemma dropHere_hit (file r : node) :
  dropHere hp mx my draggedFile file = Some r ->
  r = file /\ contains (hp (oid r)) mx my = true.
Proof.
  unfold dropHere.
  destruct (negb (Nat.eqb (oid file) (oid draggedFile))); simpl; [|discriminate].
  destruct (negb (isEventBox (hp (oid file)))); simpl; [|discriminate].
  destruct (contains (hp (oid file)) mx my) eqn:E; simpl; [|discriminate].
  destruct (negb (isDescendantOf (oid file) draggedFile)); [|discriminate].
  intros [= <-]. auto.
Qed.

Lemma dropLoops_hit (l : list node) :
  forall r,
    dropLoops hp mx my draggedFile (findDropTarget_children hp mx my draggedFile) l = Some r ->
    In r (flattenComponents l) /\ contains (hp (oid r)) mx my = true.
Proof.
  pattern l.
  apply forest_ind with
    (P := fun file => forall r,
            findDropTarget_children hp mx my draggedFile file = Some r ->
            In r (flattenComponent file) /\ contains (hp (oid r)) mx my = true);
    clear l.
  - intros i r. simpl. destruct (isEventBox (hp (oid draggedFile))); discriminate.
  - intros i l IH r. simpl.
    destruct (isEventBox (hp (oid draggedFile))); [discriminate|].
    intros H. destruct (IH r H) as [Hin Hc]. split; [right; exact Hin|exact Hc].
  - intros r. discriminate.
  - intros n l Hn Hl r. unfold dropLoops in *. cbn [findFirst].
    rewrite flattenComponents_cons, in_app_iff.
    destruct (dropNested hp draggedFile _ n) as [t|] eqn:En.
    + intros [= <-]. unfold dropNested in En.
      destruct (negb (Nat.eqb (oid n) (oid draggedFile)) && nonEmpty (children n)
                && negb (isEventBox (hp (oid n)))); [|discriminate].
      destruct (Hn t En). auto.
    + destruct (findFirst (dropNested hp draggedFile _) l) as [t|] eqn:El.
      * intros [= <-]. destruct (Hl t eq_refl). auto.
      * destruct (dropHere hp mx my draggedFile n) as [t|] eqn:Eh.
        -- intros [= <-]. apply dropHere_hit in Eh. destruct Eh as [-> Hc].
           split; [|exact Hc]. left. rewrite flattenComponent_eq. left. reflexivity.
        -- intros H. destruct (Hl r H). auto.
Qed.

Lemma dropLoops_none (nested : node -> option node) (l : list node) :
  dropLoops hp mx my draggedFile nested l = None ->
  forall file, In file l -> dropHere hp mx my draggedFile file = None.
Proof.
  unfold dropLoops. destruct (findFirst (dropNested hp draggedFile nested) l); [discriminate|].
  induction l as [|a l IH]; simpl; [tauto|].
  destruct (dropHere hp mx my draggedFile a) eqn:E; [discriminate|].
  intros H file [<-|Hin]; auto.
Qed.
End DropTargetHit.

(** X4.  The object [findDropTarget] answers is an object of the searched
    forest whose box holds the point.  When it answers null for a dragged
    component, no object of the list itself that could take the component
    (another object, not an event box, not below the dragged one) has the
    point in its box. *)
Theorem findDropTarget_hit (hp : heap) (mx my : Z) (draggedFile : node) (l : list node) :
  (forall target, findDropTarget hp mx my draggedFile l = Some target ->
     In target (flattenComponents l) /\ contains (hp (oid target)) mx my = true)
  /\ (findDropTarget hp mx my draggedFile l = None ->
      isEventBox (hp (oid draggedFile)) = false ->
      forall file, In file l ->
        oid file <> oid draggedFile ->
        isEventBox (hp (oid file)) = false ->
        isDescendantOf (oid file) draggedFile = false ->
        contains (hp (oid file)) mx my = false).
Proof.
  unfold findDropTarget. split.
  - intros target. destruct (isEventBox (hp (oid draggedFile))); [discriminate|].
    apply dropLoops_hit.
  - intros Hnone Hd file Hin Hne Hev Hdesc. rewrite Hd in Hnone.
    pose proof (dropLoops_none hp mx my draggedFile _ l Hnone file Hin) as H.
    unfold dropHere in H. apply Nat.eqb_neq in Hne. rewrite Hne, Hev, Hdesc in H.
    simpl in H. destruct (contains (hp (oid file)) mx my); [discriminate|reflexivity].
Qed.

Lemma findDropTarget_hit_witness :
  In (Node 1 (Some [])) (flattenComponents (files twoComponents))
  /\ contains (store twoComponents 1) 310 60 = true.
Proof.
  apply (proj1 (findDropTarget_hit (store twoComponents) 310 60
                  (Node 0 (Some [])) (files twoComponents))).
  reflexivity.
Defined.

(** ** Hit testing: what can be answered *)

Section HitVisible.
Variable hp : heap.
Variable conns : list connection.

Lemma hitOrder_in (l : list node) :
  forall n, In n (hitOrder hp conns l) ->
    In n (flattenComponents l) /\ hiddenEventBox hp conns n = false.
Proof.
  pattern l.
  apply forest_ind with
    (P := fun file => forall n, In n (hitOrder_children hp conns file) ->
            In n (flattenComponent file) /\ hiddenEventBox hp conns n = false);
    clear l.
  - intros r n [].
  - intros r l IH n H. destruct (IH n H). split; [right|]; assumption.
  - intros n [].
  - intros c l Hc Hl n. rewrite hitOrder_cons, flattenComponents_cons, !in_app_iff.
    intros [H|H].
    + destruct (Hl n H). auto.
    + destruct (hiddenEventBox hp conns c) eqn:E; [destruct H|].
      apply in_app_iff in H. destruct H as [H|[<-|[]]].
      * destruct (Hc n H). auto.
      * split; [|exact E]. left. rewrite flattenComponent_eq. left. reflexivity.
Qed.

Lemma hitOrder_all (l : list node) :
  (forall n, In n (flattenComponents l) -> hiddenEventBox hp conns n = false) ->
  forall n, In n (flattenComponents l) -> In n (hitOrder hp conns l).
Proof.
  pattern l.
  apply forest_ind with
    (P := fun file =>
            (forall n, In n (flattenComponent file) -> hiddenEventBox hp conns n = false) ->
            forall n, In n (flattenComponent file) ->
              n = file \/ In n (hitOrder_children hp conns file));
    clear l.
  - intros r _ n [<-|[]]. left. reflexivity.
  - intros r l IH Hv n. rewrite flattenComponent_eq. cbn [children].
    intros [<-|H]; [left; reflexivity|]. right.
    apply IH; [|exact H]. intros m Hm. apply Hv. rewrite flattenComponent_eq. right. exact Hm.
  - intros _ n [].
  - intros c l Hc Hl Hv n. rewrite hitOrder_cons, flattenComponents_cons, !in_app_iff.
    intros [H|H].
    + right. rewrite (Hv c).
      * apply in_app_iff. destruct (Hc (fun m Hm => Hv m (in_or_app _ _ _ (or_introl Hm))) n H)
          as [->|Hn]; [right; left; reflexivity|left; exact Hn].
      * apply in_app_iff. left. rewrite flattenComponent_eq. left. reflexivity.
    + left. apply Hl; [|exact H]. intros m Hm. apply Hv, in_app_iff. right. exact Hm.
Qed.
End HitVisible.

(** X5.  The object [findFileAtPosition] answers is an object of the
    searched forest, its box holds the point, and it is not an event box
    hidden by a collapsed owner.  When no event box of the forest is hidden,
    the answer is null exactly when no box of the forest holds the point. *)
Theorem findFileAtPosition_visible (hp : heap) (conns : list connection) (mx my : Z)
    (l : list node) :
  (forall r, findFileAtPosition hp conns mx my l = Some r ->
     In r (flattenComponents l)
     /\ contains (hp (oid r)) mx my = true
     /\ hiddenEventBox hp conns r = false)
  /\ ((forall n, In n (flattenComponents l) -> hiddenEventBox hp conns n = false) ->
      (findFileAtPosition hp conns mx my l = None
       <-> forall n, In n (flattenComponents l) -> contains (hp (oid n)) mx my = false)).
Proof.
  rewrite findFileAtPosition_hitOrder. split.
  - intros r H. apply find_some in H. destruct H as [Hin Hc].
    destruct (hitOrder_in hp conns l r Hin). auto.
  - intros Hv. split.
    + intros H n Hn. apply (find_none _ _ H n). apply hitOrder_all; assumption.
    + intros H. destruct (find _ (hitOrder hp conns l)) as [r|] eqn:E; [|reflexivity].
      apply find_some in E. destruct E as [Hin Hc].
      destruct (hitOrder_in hp conns l r Hin) as [Hf _].
      rewrite (H r Hf) in Hc. discriminate.
Qed.

Lemma findFileAtPosition_visible_witness :
  In (Node 3 (Some [])) (flattenComponents [Node 2 (Some [Node 3 (Some [])])])
  /\ contains (store withHookBox 3) 100 370 = true
  /\ hiddenEventBox (store withHookBox) (connections withHookBox) (Node 3 (Some [])) = false.
Proof.
  apply (proj1 (findFileAtPosition_visible (store withHookBox) (connections withHookBox)
                  100 370 [Node 2 (Some [Node 3 (Some [])])])).
  reflexivity.
Defined.

(** ** Selection *)

Lemma isInSelectionArea_swap (component : object) (startX startY endX endY : Z) :
  isInSelectionArea component startX startY endX endY
  = isInSelectionArea component endX endY startX startY.
Proof.
  unfold isInSelectionArea.
  rewrite (Z.min_comm startX), (Z.max_comm startX), (Z.min_comm startY), (Z.max_comm startY).
  reflexivity.
Qed.

(** X6.  The rubber band selects the same objects whichever corner the drag
    started from: the objects of the forest, nested ones included, in the
    order of the forest.  An object with a box is selected exactly when its
    closed box meets the closed rectangle spanned by the two corners, and in
    a tree no object is selected twice. *)
Theorem selectComponentsInArea_spec (hp : heap) (components : list node)
    (startX startY endX endY : Z) :
  selectComponentsInArea hp components startX startY endX endY
  = selectComponentsInArea hp components endX endY startX startY
  /\ (forall r, In r (selectComponentsInArea hp components startX startY endX endY)
                <-> In r (refs components)
                    /\ isInSelectionArea (hp r) startX startY endX endY = true)
  /\ (forall o fx fy fw fh,
        x o = Some fx -> y o = Some fy -> w o = Some fw -> h o = Some fh ->
        (isInSelectionArea o startX startY endX endY = true
         <-> (Z.min startX endX <= fx + fw /\ fx <= Z.max startX endX
              /\ Z.min startY endY <= fy + fh /\ fy <= Z.max startY endY)%Z))
  /\ (tree components ->
      NoDup (selectComponentsInArea hp components startX startY endX endY)).
Proof.
  unfold selectComponentsInArea. split; [|split; [|split]].
  - f_equal. apply filter_ext. intros n. apply isInSelectionArea_swap.
  - intros r. rewrite in_map_iff. unfold refs. rewrite in_map_iff. split.
    + intros (n & <- & H). apply filter_In in H. destruct H as [Hin Hsel].
      split; [exists n; auto|exact Hsel].
    + intros [(n & <- & Hin) Hsel]. exists n. split; [reflexivity|].
      apply filter_In. auto.
  - intros o fx fy fw fh Hx Hy Hw Hh. unfold isInSelectionArea.
    rewrite Hx, Hy, Hw, Hh. cbn [optAdd optLt optGt].
    rewrite negb_true_iff, !orb_false_iff, !Z.ltb_ge. tauto.
  - unfold tree, refs. generalize (flattenComponents components) as L.
    induction L as [|n L IH]; simpl; [constructor|].
    intros Hnd. inversion Hnd as [|? ? Hn HL]; subst.
    destruct (isInSelectionArea (hp (oid n)) startX startY endX endY); [|auto].
    simpl. constructor; [|auto].
    intros Hin. apply Hn. apply in_map_iff in Hin. destruct Hin as (m & E & Hm).
    apply filter_In in Hm. rewrite <- E. apply in_map. tauto.
Qed.

Lemma selectComponentsInArea_spec_witness :
  isInSelectionArea (store twoComponents 0) 400 200 240 100 = true
  <-> (Z.min 400 240 <= 50 + 200 /\ 50 <= Z.max 400 240
       /\ Z.min 200 100 <= 50 + 60 /\ 50 <= Z.max 200 100)%Z.
Proof.
  apply (proj1 (proj2 (proj2 (selectComponentsInArea_spec (store twoComponents)
                                (files twoComponents) 400 200 240 100)))
           (store twoComponents 0) 50%Z 50%Z 200%Z 60%Z); reflexivity.
Defined.

Lemma removeFirst_absent (component : ref) (l : list ref) :
  ~ In component l -> removeFirst component l = l.
Proof.
  induction l as [|a l IH]; simpl; [reflexivity|].
  intros H. destruct (Nat.eqb a component) eqn:E.
  - apply Nat.eqb_eq in E. tauto.
  - rewrite IH; tauto.
Qed.

Lemma removeFirst_app (component : ref) (l : list ref) :
  ~ In component l -> removeFirst component (l ++ [component]) = l.
Proof.
  induction l as [|a l IH]; simpl.
  - rewrite Nat.eqb_refl. reflexivity.
  - intros H. destruct (Nat.eqb a component) eqn:E.
    + apply Nat.eqb_eq in E. tauto.
    + rewrite IH; tauto.
Qed.

Lemma removeFirst_NoDup (component : ref) (l : list ref) :
  NoDup l -> NoDup (removeFirst component l) /\ ~ In component (removeFirst component l).
Proof.
  induction l as [|a l IH]; simpl; [intros; split; [constructor|tauto]|].
  intros Hnd. inversion Hnd as [|? ? Ha Hl]; subst.
  destruct (Nat.eqb a component) eqn:E.
  - apply Nat.eqb_eq in E. subst. auto.
  - destruct (IH Hl) as [H1 H2]. apply Nat.eqb_neq in E. split.
    + constructor; [|exact H1]. intros Hin. apply Ha.
      clear - Hin. induction l as [|b l IHl]; simpl in *; [tauto|].
      destruct (Nat.eqb b component); simpl in *; tauto.
    + simpl. tauto.
Qed.

(** X7.  The multi-selection behaves as a set.  On a selection without
    repeats, [addToMultiSelection] leaves no repeats, makes the component
    selected and drops the single selection; [removeFromMultiSelection]
    then takes the component out again, and gives back the selection there
    was when the component had not been part of it. *)
Theorem multiSelection_add_remove (component : ref) (s : scene) :
  NoDup (multiSelectedFiles s) ->
  let s1 := snd (addToMultiSelection component s) in
  let s2 := snd (removeFromMultiSelection component s1) in
  NoDup (multiSelectedFiles s1)
  /\ fst (isComponentSelected component s1) = Returned true
  /\ selectedFile s1 = None /\ selectedChild s1 = None
  /\ NoDup (multiSelectedFiles s2)
  /\ fst (isComponentSelected component s2) = Returned false
  /\ (~ In component (multiSelectedFiles s) ->
      multiSelectedFiles s2 = multiSelectedFiles s).
Proof.
  intros Hnd s1 s2. subst s1 s2.
  unfold addToMultiSelection, removeFromMultiSelection, isComponentSelected, modify, gets.
  cbn [fst snd]. destruct s as [st nx fs df cdt ox oy sf sc hf ms]. cbn in *.
  destruct (existsb (Nat.eqb component) ms) eqn:E.
  - assert (Hin : In component ms).
    { apply existsb_exists in E. destruct E as (r & Hr & Er).
      apply Nat.eqb_eq in Er. subst. exact Hr. }
    destruct (removeFirst_NoDup component ms Hnd) as [H1 H2].
    repeat split; auto; try tauto.
    + rewrite E. reflexivity.
    + destruct (existsb (Nat.eqb component) (removeFirst component ms)) eqn:E2;
        [|reflexivity].
      apply existsb_exists in E2. destruct E2 as (r & Hr & Er).
      apply Nat.eqb_eq in Er. subst. contradiction.
  - assert (Hnot : ~ In component ms).
    { intros Hin. apply Bool.not_true_iff_false in E. apply E.
      apply existsb_exists. exists component. split; [exact Hin|apply Nat.eqb_refl]. }
    rewrite (removeFirst_app component ms Hnot), E.
    repeat split; auto.
    + apply NoDup_append; [exact Hnd|constructor; [intros []|constructor]|].
      intros r [<-|[]] Hr. contradiction.
    + rewrite existsb_app. simpl. rewrite Nat.eqb_refl, !orb_true_r. reflexivity.
Qed.

Lemma multiSelection_add_remove_witness :
  let s1 := snd (addToMultiSelection 1 (set_multiSelectedFiles [0] twoComponents)) in
  let s2 := snd (removeFromMultiSelection 1 s1) in
  NoDup (multiSelectedFiles s1)
  /\ fst (isComponentSelected 1 s1) = Returned true
  /\ selectedFile s1 = None /\ selectedChild s1 = None
  /\ NoDup (multiSelectedFiles s2)
  /\ fst (isComponentSelected 1 s2) = Returned false
  /\ (~ In 1 (multiSelectedFiles (set_multiSelectedFiles [0] twoComponents)) ->
      multiSelectedFiles s2 = multiSelectedFiles (set_multiSelectedFiles [0] twoComponents)).
Proof.
  apply (multiSelection_add_remove 1 (set_multiSelectedFiles [0] twoComponents)).
  simpl. constructor; [intros []|constructor].
Defined.

(** ** Removal *)

Lemma removeFrom_state (target : ref) (l : list node) :
  removeFileState target (removeLoop (removeFile_children target) l) ->
  removeFileState target (removeFrom (removeFile_children target) target l).
Proof.
  intros Hl s. unfold removeFrom. destruct (indexOf target l); [reflexivity|apply Hl].
Qed.

Lemma removeLoop_state (target : ref) (l : list node) :
  removeFileState target (removeLoop (removeFile_children target) l).
Proof.
  pattern l.
  apply forest_ind with
    (P := fun n => removeFileState target (removeFile_children target n)); clear l.
  - intros r s. reflexivity.
  - intros r l IH s. simpl. unfold bind.
    pose proof (removeFrom_state target l IH s) as H.
    destruct (removeFrom (removeFile_children target) target l s) as [[[[|] l']|] s'];
      exact H.
  - intros s. reflexivity.
  - intros n l Hn Hl s. simpl. unfold bind at 1. specialize (Hn s).
    destruct (removeFile_children target n s) as [[[[|] n']|] s1]; simpl; try exact Hn.
    subst s1. unfold bind. specialize (Hl s).
    destruct (removeLoop (removeFile_children target) l s) as [[[[|] l']|] s2]; exact Hl.
Qed.

Lemma removeFile_state (target : ref) (l : list node) :
  removeFileState target (removeFile target l).
Proof. apply removeFrom_state, removeLoop_state. Qed.

Lemma removeLoop_returns (target : ref) (l : list node) :
  (forall n, In n (flattenComponents l) -> children n <> None) ->
  forall s, fst (removeLoop (removeFile_children target) l s) <> Threw
            /\ fst (removeFile target l s) <> Threw.
Proof.
  pattern l.
  apply forest_ind with
    (P := fun n => (forall m, In m (flattenComponent n) -> children m <> None) ->
                   forall s, fst (removeFile_children target n s) <> Threw); clear l.
  - intros r H. exfalso. apply (H (Node r None)); [left|]; reflexivity.
  - intros r l IH H s. simpl. unfold bind.
    assert (Hl : forall n, In n (flattenComponents l) -> children n <> None).
    { intros n Hn. apply H. rewrite flattenComponent_eq. right. exact Hn. }
    destruct (IH Hl s) as [Hloop _]. unfold removeFrom.
    destruct (indexOf target l); [discriminate|].
    destruct (removeLoop (removeFile_children target) l s) as [[[b l']|] s']; simpl in *;
      [discriminate|exfalso; apply Hloop; reflexivity].
  - intros _ s. split; [discriminate|]. unfold removeFile, removeFrom. simpl. discriminate.
  - intros n l Hn Hl H s.
    assert (H1 : forall m, In m (flattenComponent n) -> children m <> None).
    { intros m Hm. apply H. rewrite flattenComponents_cons, in_app_iff. auto. }
    assert (H2 : forall m, In m (flattenComponents l) -> children m <> None).
    { intros m Hm. apply H. rewrite flattenComponents_cons, in_app_iff. auto. }
    assert (Hloop : fst (removeLoop (removeFile_children target) (n :: l) s) <> Threw).
    { simpl. unfold bind at 1. specialize (Hn H1 s).
      destruct (removeFile_children target n s) as [[[[|] n']|] s1]; simpl in *;
        [discriminate| |exfalso; apply Hn; reflexivity].
      unfold bind. destruct (Hl H2 s1) as [Hl1 _].
      destruct (removeLoop (removeFile_children target) l s1) as [[[b l']|] s2];
        simpl in *; [discriminate|exact Hl1]. }
    split; [exact Hloop|]. unfold removeFile, removeFrom.
    destruct (indexOf target (n :: l)); [discriminate|exact Hloop].
Qed.

(** X8.  [removeFile] on a tree.  When it answers true, the target was in
    the forest and is in it no more: one place is gone with everything below
    it, the other objects stay, the rest is a tree, and the arrows that start
    or end at the target are gone from [connections].  When it answers false
    the target was nowhere in the forest, and the list and the scene are as
    they were.  When it throws nothing has been written.  It does not throw
    when every object of the forest has a [children] array. *)
Theorem removeFile_removes (target : ref) (l : list node) (s : scene) :
  tree l ->
  match removeFile target l s with
  | (Returned (true, l'), s') =>
      In target (refs l) /\ ~ In target (refs l') /\ tree l'
      /\ (exists removed,
            oid removed = target /\ In removed (flattenComponents l)
            /\ Permutation (refs l) (refs [removed] ++ refs l'))
      /\ connections s'
         = filter (fun c => negb (Nat.eqb (from c) target) && negb (Nat.eqb (to c) target))
                  (connections s)
      /\ files s' = files s /\ store s' = store s
  | (Returned (false, l'), s') => l' = l /\ ~ In target (refs l) /\ s' = s
  | (Threw, s') => s' = s
  end
  /\ ((forall n, In n (flattenComponents l) -> children n <> None) ->
      fst (removeFile target l s) <> Threw).
Proof.
  intros Ht. split; [|intros H; apply removeLoop_returns; exact H].
  pose proof (removeFile_spec target l s) as Hspec.
  pose proof (removeFile_state target l s) as Hstate.
  destruct (removeFile target l s) as [[[[|] l']|] s'].
  - destruct Hspec as [Hrem _].
    destruct (removedFrom_tree target l l' Ht Hrem) as [Ht' _].
    destruct Hrem as (removed & Ho & Hin & Hp).
    assert (Hnd : NoDup (refs [removed] ++ refs l')).
    { eapply Permutation_NoDup; [exact Hp|exact Ht]. }
    split; [rewrite <- Ho; apply in_flatten_refs; exact Hin|].
    split.
    { intros Hin'. eapply (NoDup_app_disjoint _ _ _ Hnd); [|exact Hin'].
      rewrite <- Ho. apply oid_in_refs. }
    split; [exact Ht'|]. split; [exists removed; auto|].
    subst s'. unfold forgetConnections, modify. cbn [snd].
    destruct (selectedConnection _) as [c|]; [destruct (_ || _)|]; auto.
  - destruct Hspec as (-> & Habs & _). auto.
  - exact Hstate.
Qed.

Lemma removeFile_removes_witness :
  match removeFile 2 (files nestedWithArrow) nestedWithArrow with
  | (Returned (true, l'), s') =>
      In 2 (refs (files nestedWithArrow)) /\ ~ In 2 (refs l') /\ tree l'
      /\ (exists removed,
            oid removed = 2 /\ In removed (flattenComponents (files nestedWithArrow))
            /\ Permutation (refs (files nestedWithArrow)) (refs [removed] ++ refs l'))
      /\ connections s'
         = filter (fun c => negb (Nat.eqb (from c) 2) && negb (Nat.eqb (to c) 2))
                  (connections nestedWithArrow)
      /\ files s' = files nestedWithArrow /\ store s' = store nestedWithArrow
  | (Returned (false, l'), s') =>
      l' = files nestedWithArrow /\ ~ In 2 (refs (files nestedWithArrow))
      /\ s' = nestedWithArrow
  | (Threw, s') => s' = nestedWithArrow
  end.
Proof.
  apply (proj1 (removeFile_removes 2 (files nestedWithArrow) nestedWithArrow
                  ltac:(unfold tree; vm_compute; repeat constructor;
                        simpl; intuition discriminate))).
Defined.

(** ** Snapshots are deep copies *)

Lemma contents_ext (read read' : ref -> object) (l : list node) :
  (forall r, In r (refs l) -> read r = read' r) ->
  map (contents read) l = map (contents read') l.
Proof.
  pattern l.
  apply forest_ind with
    (P := fun n => (forall r, In r (refs [n]) -> read r = read' r) ->
                   contents read n = contents read' n); clear l.
  - intros r H. simpl. rewrite (H r); [reflexivity|]. rewrite refs_single. left. reflexivity.
  - intros r l IH H. simpl. rewrite (H r), IH; [reflexivity| |].
    + intros q Hq. apply H. rewrite refs_single. right. exact Hq.
    + rewrite refs_single. left. reflexivity.
  - reflexivity.
  - intros n l Hn Hl H. simpl. rewrite Hn, Hl; [reflexivity| |].
    + intros q Hq. apply H. rewrite refs_cons, in_app_iff. auto.
    + intros q Hq. apply H. rewrite refs_cons, in_app_iff. auto.
Qed.

Lemma allocated_cons (nx : ref) (n : node) (l : list node) :
  allocated nx (n :: l) <-> allocated nx [n] /\ allocated nx l.
Proof.
  unfold allocated. split.
  - intros H. split; intros r Hr; apply H; rewrite refs_cons, in_app_iff; auto.
  - intros [H1 H2] r Hr. rewrite refs_cons, in_app_iff in Hr. destruct Hr; auto.
Qed.

Lemma in_seq_fresh (start len r : nat) : In r (seq start len) -> start <= r < start + len.
Proof. apply in_seq. Qed.

(** Cloning a forest whose objects are allocated: the copies are new
    objects, equal to the originals in fields and nesting, and no object
    that existed is written. *)
Lemma cloneComponent_contents (l : list node) :
  forall s, exists l' s',
    mapM cloneComponent l s = (Returned l', s')
    /\ cloned l l' s s'
    /\ (forall r, r < next s -> store s' r = store s r)
    /\ (allocated (next s) l ->
        map (contents (store s')) l' = map (contents (store s)) l).
Proof.
  pattern l.
  apply forest_ind with
    (P := fun n => forall s, exists n' s',
            cloneComponent n s = (Returned n', s')
            /\ cloned [n] [n'] s s'
            /\ (forall r, r < next s -> store s' r = store s r)
            /\ (allocated (next s) [n] ->
                contents (store s') n' = contents (store s) n)); clear l.
  - intros r s. eexists _, _. split; [reflexivity|].
    split; [|split].
    + split; [destruct s; reflexivity|]. split; [rewrite size_node; simpl; lia|].
      rewrite size_node. reflexivity.
    + intros q Hq. simpl. unfold upd.
      destruct (Nat.eqb q (next s)) eqn:E; [apply Nat.eqb_eq in E; lia|reflexivity].
    + intros _. simpl. unfold upd. rewrite Nat.eqb_refl. reflexivity.
  - intros r l IH s.
    set (s1 := set_store (upd (store s) (next s) (store s r)) (set_next (S (next s)) s)).
    destruct (IH s1) as (l' & s' & Hrun & (Hfr & Hnext & Hrefs) & Hold & Hcont).
    exists (Node (next s) (Some l')), s'.
    assert (Hs1 : forall q, q < next s -> store s1 q = store s q).
    { intros q Hq. subst s1. simpl. unfold upd.
      destruct (Nat.eqb q (next s)) eqn:E; [apply Nat.eqb_eq in E; lia|reflexivity]. }
    split.
    { rewrite cloneComponent_eq.
      cbv [bind alloc gets setObject modify ret]. cbn [children oid store set_next].
      fold s1. rewrite Hrun. reflexivity. }
    split; [|split].
    + split; [|split].
      * eapply heapOnly_trans; [|exact Hfr]. subst s1. destruct s; reflexivity.
      * rewrite Hnext, size_node. subst s1. simpl. lia.
      * rewrite refs_node, size_node, Hrefs. subst s1. reflexivity.
    + intros q Hq. rewrite Hold; [apply Hs1; exact Hq|]. subst s1. simpl. lia.
    + intros Ha. simpl. f_equal.
      * rewrite Hold; [|subst s1; simpl; lia]. subst s1. simpl. unfold upd.
        rewrite Nat.eqb_refl. reflexivity.
      * f_equal.
        assert (Hal : allocated (next s) l).
        { intros q Hq. apply Ha. rewrite refs_single. right. exact Hq. }
        rewrite Hcont.
        -- apply contents_ext. intros q Hq. apply Hs1, Hal, Hq.
        -- intros q Hq. subst s1. simpl. specialize (Hal q Hq). lia.
  - intros s. exists [], s. split; [reflexivity|].
    split; [|split; [reflexivity|reflexivity]].
    split; [apply heapOnly_refl|]. split; [unfold size; simpl; lia|reflexivity].
  - intros n l Hn Hl s.
    destruct (Hn s) as (n' & s1 & Hrun & (Hfr & Hnext & Hrefs) & Hold & Hcont).
    destruct (Hl s1) as (l' & s2 & Hrun' & (Hfr' & Hnext' & Hrefs') & Hold' & Hcont').
    exists (n' :: l'), s2.
    split.
    { simpl. unfold bind at 1. rewrite Hrun. unfold bind at 1. rewrite Hrun'. reflexivity. }
    split; [|split].
    + split; [|split].
      * eapply heapOnly_trans; eassumption.
      * rewrite Hnext', Hnext, (size_cons n l). lia.
      * rewrite (refs_cons n' l'), Hrefs, Hrefs', Hnext, (size_cons n l), seq_app.
        reflexivity.
    + intros q Hq. rewrite Hold'; [apply Hold; exact Hq|lia].
    + intros Ha. apply allocated_cons in Ha. destruct Ha as [Ha1 Ha2].
      cbn [map]. f_equal.
      * rewrite <- (Hcont Ha1).
        assert (E : map (contents (store s2)) [n'] = map (contents (store s1)) [n']).
        { apply contents_ext. intros q Hq. apply Hold'. rewrite Hrefs in Hq.
          apply in_seq in Hq. lia. }
        injection E as E. exact E.
      * rewrite Hcont'.
        -- apply contents_ext. intros q Hq. apply Hold, Ha2, Hq.
        -- intros q Hq. specialize (Ha2 q Hq). lia.
Qed.

(** X9.  [saveState] pushes a deep copy.  The entry holds new objects, none
    of which existed before; they equal the objects of the forest field by
    field and in their nesting; no object that existed is written and the
    forest and the arrows of the scene stay as they are.  The selection is
    stored as it is, by reference. *)
Theorem saveState_deep_copy (s : scene) :
  allocated (next s) (files s) ->
  exists entry,
    fst (saveState s) = Returned tt
    /\ history (snd (saveState s)) = trim (history s ++ [entry])
    /\ refs (st_files entry) = seq (next s) (size (files s))
    /\ map (contents (store (snd (saveState s)))) (st_files entry)
       = map (contents (store s)) (files s)
    /\ (forall r, r < next s -> store (snd (saveState s)) r = store s r)
    /\ files (snd (saveState s)) = files s
    /\ connections (snd (saveState s)) = connections s
    /\ st_selectedFile entry = selectedFile s
    /\ st_selectedChild entry = selectedChild s
    /\ st_multiSelectedFiles entry = multiSelectedFiles s.
Proof.
  intros Ha.
  destruct (cloneComponent_contents (files s) s)
    as (copies & s1 & Hrun & (Hfr & Hnext & Hrefs) & Hold & Hcont).
  exists (snapshot copies s1).
  assert (E : saveState s
              = (Returned tt, set_history (trim (history s ++ [snapshot copies s1])) s1)).
  { unfold saveState. cbv [bind gets modify]. rewrite Hrun.
    rewrite (heapOnly_history Hfr). reflexivity. }
  rewrite E. cbn [fst snd store set_history history files connections st_files snapshot
                  st_selectedFile st_selectedChild st_multiSelectedFiles].
  split; [reflexivity|]. split; [reflexivity|]. split; [exact Hrefs|]. split; [exact (Hcont Ha)|].
  split; [exact Hold|]. split; [exact (heapOnly_files Hfr)|].
  split; [exact (heapOnly_connections Hfr)|].
  rewrite Hfr. cbn. auto.
Qed.

Lemma saveState_deep_copy_witness :
  exists entry,
    fst (saveState twoComponents) = Returned tt
    /\ history (snd (saveState twoComponents)) = trim (history twoComponents ++ [entry])
    /\ refs (st_files entry) = seq (next twoComponents) (size (files twoComponents))
    /\ map (contents (store (snd (saveState twoComponents)))) (st_files entry)
       = map (contents (store twoComponents)) (files twoComponents)
    /\ (forall r, r < next twoComponents ->
          store (snd (saveState twoComponents)) r = store twoComponents r)
    /\ files (snd (saveState twoComponents)) = files twoComponents
    /\ connections (snd (saveState twoComponents)) = connections twoComponents
    /\ st_selectedFile entry = selectedFile twoComponents
    /\ st_selectedChild entry = selectedChild twoComponents
    /\ st_multiSelectedFiles entry = multiSelectedFiles twoComponents.
Proof.
  apply (saveState_deep_copy twoComponents).
  intros r. vm_compute. intros [<-|[<-|[]]]; repeat constructor.
Defined.

(** ** The history stays bounded *)

Lemma keepsHistory_bind {A B : Type} (m : handler A) (k : A -> handler B) :
  keepsHistory m -> (forall a, keepsHistory (k a)) -> keepsHistory (bind m k).
Proof.
  intros Hm Hk s. unfold bind. specialize (Hm s).
  destruct (m s) as [[a|] s']; simpl in *; [|exact Hm].
  rewrite Hk. exact Hm.
Qed.

Lemma keepsHistory_ret {A : Type} (a : A) : keepsHistory (ret a).
Proof. intros s. reflexivity. Qed.

Lemma keepsHistory_gets {A : Type} (f : scene -> A) : keepsHistory (gets f).
Proof. intros s. reflexivity. Qed.

Lemma keepsHistory_throw {A : Type} : keepsHistory (@throwTypeError A).
Proof. intros s. reflexivity. Qed.

Lemma keepsHistory_modify (f : scene -> scene) :
  (forall s, history (f s) = history s) -> keepsHistory (modify f).
Proof. intros H s. apply H. Qed.

Lemma keepsHistory_when (b : bool) (m : handler unit) :
  keepsHistory m -> keepsHistory (when b m).
Proof. destruct b; [auto|intros; apply keepsHistory_ret]. Qed.

Lemma keepsHistory_forEach {A : Type} (body : A -> handler unit) (l : list A) :
  (forall a, keepsHistory (body a)) -> keepsHistory (forEach body l).
Proof.
  intros H. induction l as [|a l IH]; simpl.
  - apply keepsHistory_ret.
  - apply keepsHistory_bind; auto.
Qed.

Lemma keepsHistory_heapStep {A : Type} (m : handler A) : heapStep m -> keepsHistory m.
Proof. intros H s. apply (H s). Qed.

Lemma keepsHistory_alloc : keepsHistory alloc.
Proof. intros s. reflexivity. Qed.

Lemma keepsHistory_removeFile (target : ref) (l : list node) :
  keepsHistory (removeFile target l).
Proof.
  intros s. pose proof (removeFile_spec target l s) as H.
  destruct (removeFile target l s) as [[[[|] l']|] s']; simpl.
  - apply H.
  - apply H.
  - apply H.
Qed.

Lemma keepsHistory_reconstructConnections (saved : list savedConnection)
    (loadedFiles : list node) :
  keepsHistory (reconstructConnections saved loadedFiles).
Proof.
  induction saved as [|c rest IH]; simpl.
  - apply keepsHistory_ret.
  - apply keepsHistory_bind; [apply keepsHistory_gets|intros hp].
    destruct (findComponentByProperties hp _ (s_from c)); [|exact IH].
    destruct (findComponentByProperties hp _ (s_to c)); [|exact IH].
    apply keepsHistory_bind; [apply keepsHistory_alloc|intros r].
    apply keepsHistory_bind; [exact IH|intros others; apply keepsHistory_ret].
Qed.

Lemma keepsHistory_deepCloneComponent (n : node) : keepsHistory (deepCloneComponent n).
Proof.
  intros s. pose proof (deepCloneComponent_heapOnly n s) as H.
  apply heapOnly_history. exact H.
Qed.

Ltac history_step :=
  first
    [ apply keepsHistory_ret
    | apply keepsHistory_throw
    | apply keepsHistory_gets
    | apply keepsHistory_alloc
    | apply keepsHistory_removeFile
    | apply keepsHistory_deepCloneComponent
    | apply keepsHistory_when
    | apply keepsHistory_forEach; intros ?
    | apply keepsHistory_modify; intros ?; reflexivity
    | apply keepsHistory_bind; [|intros ?]
    | match goal with
      | |- keepsHistory (match ?x with _ => _ end) => destruct x
      end ].

Lemma keepsHistory_draw (drawnBox : scene -> ref -> box) : keepsHistory (draw drawnBox).
Proof. intros s. reflexivity. Qed.

Section HistoryLayout.
Variable totalHeight : scene -> ref -> Z.

Lemma keepsHistory_updateParentHeight (p : ref) :
  keepsHistory (updateParentHeight totalHeight p).
Proof. intros s. reflexivity. Qed.

Lemma keepsHistory_reposition (n : node) :
  keepsHistory (repositionChildrenInParent totalHeight n).
Proof. apply keepsHistory_heapStep, heapStep_repositionChildrenInParent. Qed.

Lemma keepsHistory_withNode (r : ref) :
  keepsHistory (withNode r (repositionChildrenInParent totalHeight)).
Proof. apply keepsHistory_heapStep, heapStep_reposition. Qed.

Lemma keepsHistory_updateAllParentHeights (l : list node) :
  keepsHistory (updateAllParentHeights totalHeight l).
Proof.
  unfold updateAllParentHeights. pattern l.
  apply forest_ind with
    (P := fun n => keepsHistory (updateAllParentHeights_file totalHeight n)); clear l.
  - intros r. simpl. apply keepsHistory_bind; [apply keepsHistory_gets|intros e].
    destruct e; [|apply keepsHistory_ret].
    apply keepsHistory_bind;
      [apply keepsHistory_updateParentHeight|intros; apply keepsHistory_throw].
  - intros r l IH. simpl. apply keepsHistory_bind; [apply keepsHistory_gets|intros e].
    destruct e; [|apply keepsHistory_ret].
    apply keepsHistory_bind; [apply keepsHistory_updateParentHeight|intros _; exact IH].
  - apply keepsHistory_ret.
  - intros n l Hn Hl. simpl. apply keepsHistory_bind; [exact Hn|intros _; exact Hl].
Qed.

Lemma keepsHistory_toggleAt (mx my : Z) (l : list node) :
  keepsHistory (toggleAt totalHeight mx my l).
Proof.
  induction l as [|file rest IH]; simpl.
  - apply keepsHistory_ret.
  - apply keepsHistory_bind; [apply keepsHistory_gets|intros s].
    destruct (includes (files s) (oid file) && inToggleArea (store s (oid file)) mx my);
      [|exact IH].
    apply keepsHistory_bind; [apply keepsHistory_modify; intros; reflexivity|intros _].
    apply keepsHistory_bind.
    + destruct (negb (expanded (store s (oid file)))); [|apply keepsHistory_ret].
      destruct (children file) as [[|c cs]|];
        [apply keepsHistory_ret|apply keepsHistory_reposition|apply keepsHistory_throw].
    + intros _. apply keepsHistory_bind; [apply keepsHistory_gets|intros fs].
      apply keepsHistory_bind;
        [apply keepsHistory_updateAllParentHeights|intros; apply keepsHistory_ret].
Qed.

End HistoryLayout.

Ltac history_auto :=
  repeat first
    [ apply keepsHistory_draw
    | apply keepsHistory_updateParentHeight
    | apply keepsHistory_withNode
    | apply keepsHistory_reposition
    | apply keepsHistory_updateAllParentHeights
    | apply keepsHistory_toggleAt
    | history_step ].

Lemma keepsHistory_duplicateComponent (drawnBox : scene -> ref -> box)
    (originalFile : node) (mx my : Z) :
  keepsHistory (duplicateComponent drawnBox originalFile mx my).
Proof. unfold duplicateComponent, setObject. history_auto. Qed.

Lemma keepsHistory_mousemove (drawnBox : scene -> ref -> box)
    (onPath : scene -> connection -> Z -> Z -> bool) (mx my : Z) :
  keepsHistory (mousemove drawnBox onPath mx my).
Proof.
  unfold mousemove, findConnectionAtPosition, movePosition, setObject. history_auto.
Qed.

Lemma keepsHistory_dropInto (totalHeight : scene -> ref -> Z) (D dropTarget : node) :
  keepsHistory (dropInto totalHeight D dropTarget).
Proof. unfold dropInto. history_auto. Qed.

Lemma keepsHistory_promote (totalHeight : scene -> ref -> Z) (D : node) (mx my : Z) :
  keepsHistory (promote totalHeight D mx my).
Proof. unfold promote, setObject. history_auto. Qed.

Lemma keepsHistory_deleteComponent (totalHeight : scene -> ref -> Z) (component : ref) :
  keepsHistory (deleteComponent totalHeight component).
Proof. unfold deleteComponent. history_auto. Qed.

Lemma keepsHistory_toggleConnectionMode (drawnBox : scene -> ref -> box) :
  keepsHistory (toggleConnectionMode drawnBox).
Proof. unfold toggleConnectionMode, resetConnectionMode. history_auto. Qed.

Lemma keepsHistory_escape (drawnBox : scene -> ref -> box) :
  keepsHistory (escape drawnBox).
Proof. unfold escape, resetConnectionMode. history_auto. Qed.

Lemma always_bind {A B : Type} (I : scene -> Prop) (m : handler A) (k : A -> handler B) :
  always I m -> (forall a, always I (k a)) -> always I (bind m k).
Proof.
  intros Hm Hk s Hs. unfold bind. specialize (Hm s Hs).
  destruct (m s) as [[a|] s']; simpl in *; [|exact Hm].
  apply Hk. exact Hm.
Qed.

Lemma always_when (I : scene -> Prop) (b : bool) (m : handler unit) :
  always I m -> always I (when b m).
Proof. destruct b; [auto|intros _ s Hs; exact Hs]. Qed.

Lemma always_keepsHistory {A : Type} (m : handler A) :
  keepsHistory m -> always historyBounded m.
Proof. intros H s Hs. unfold historyBounded. rewrite H. exact Hs. Qed.

Lemma trim_bounded (l : list state) :
  List.length l <= S maxHistorySize -> List.length (trim l) <= maxHistorySize.
Proof.
  unfold trim. destruct (Nat.ltb maxHistorySize (List.length l)) eqn:E.
  - destruct l; simpl in *; lia.
  - apply Nat.ltb_ge in E. lia.
Qed.

Lemma always_saveState : always historyBounded saveState.
Proof.
  intros s Hs. destruct (saveState_spec s) as (copies & s1 & (Hfr & _) & ->).
  unfold historyBounded in *. cbn. apply trim_bounded.
  rewrite length_app, (heapOnly_history Hfr). simpl. lia.
Qed.

Lemma pop_length {A : Type} (l : list A) (a : A) (older : list A) :
  pop l = Some (a, older) -> List.length l = S (List.length older).
Proof. intros H. apply pop_Some in H. subst. rewrite length_app. simpl. lia. Qed.

Ltac bounded_auto :=
  repeat first
    [ assumption
    | apply always_saveState
    | apply always_keepsHistory; solve [auto]
    | apply always_keepsHistory; solve [history_auto; auto]
    | apply always_when
    | apply always_bind; [|intros ?]
    | match goal with
      | |- always _ (match ?x with _ => _ end) => destruct x
      end ].

Lemma always_undo (drawnBox : scene -> ref -> box) : always historyBounded (undo drawnBox).
Proof.
  unfold undo. intros s Hs. cbv [bind gets].
  destruct (pop (history s)) as [[previousState older]|] eqn:E; [|exact Hs].
  apply pop_length in E. cbv [modify].
  set (s1 := set_files (st_files previousState) (set_history older s)).
  assert (H1 : history s1 = older) by reflexivity. clearbody s1.
  pose proof (keepsHistory_reconstructConnections (st_connections previousState)
                (st_files previousState) s1) as Hrec.
  destruct (reconstructConnections _ _ s1) as [[conns|] s2]; simpl in *;
    unfold historyBounded in *; cbn; rewrite Hrec, H1; lia.
Qed.

Section HistoryBound.
Variable totalHeight : scene -> ref -> Z.
Variable drawnBox : scene -> ref -> box.
Variable onPath : scene -> connection -> Z -> Z -> bool.

Lemma always_mousedown (mx my : Z) (ctrl : bool) (now : Z) :
  always historyBounded (mousedown drawnBox onPath mx my ctrl now).
Proof.
  unfold mousedown, mousedownConnecting, findConnectionAtPosition, clearSelection,
    resetConnectionMode, isComponentSelected, startDragging, addToMultiSelection,
    removeFromMultiSelection.
  bounded_auto.
Qed.

Lemma always_mouseup (mx my : Z) (ctrl : bool) (detachedChildren : option (list node)) :
  always historyBounded (mouseup totalHeight drawnBox mx my ctrl detachedChildren).
Proof.
  pose proof (keepsHistory_dropInto totalHeight) as Hd.
  pose proof (keepsHistory_promote totalHeight) as Hp.
  unfold mouseup, clearSelection, addToMultiSelection, endDragging, draggedObject.
  bounded_auto.
Qed.

Lemma always_click (mx my : Z) (ctrl shift : bool) :
  always historyBounded (click totalHeight drawnBox mx my ctrl shift).
Proof.
  pose proof (keepsHistory_duplicateComponent drawnBox) as Hd.
  unfold click. bounded_auto.
Qed.

Lemma always_finishInput (name0 : string) (px py : Z) :
  always historyBounded (finishInput drawnBox name0 px py).
Proof. unfold finishInput, setObject. bounded_auto. Qed.

Lemma always_createEventBox (type0 : string) (dy : Z) (name0 : string) (now : Z) :
  always historyBounded (createEventBox drawnBox type0 dy name0 now).
Proof. unfold createEventBox, setObject. bounded_auto. Qed.

Lemma always_removeConnectedHook (connectionId : Z) :
  always historyBounded (removeConnectedHook drawnBox connectionId).
Proof. unfold removeConnectedHook. bounded_auto. Qed.

Lemma always_clearCanvas : always historyBounded (clearCanvas drawnBox).
Proof. unfold clearCanvas, clearSelection. bounded_auto. Qed.

Lemma always_deleteSelection : always historyBounded (deleteSelection totalHeight drawnBox).
Proof.
  pose proof (keepsHistory_deleteComponent totalHeight) as Hd.
  unfold deleteSelection, clearSelection. bounded_auto.
Qed.

Lemma always_keydown (key : string) (ctrl : bool) :
  always historyBounded (keydown totalHeight drawnBox key ctrl).
Proof.
  pose proof (always_undo drawnBox) as Hu. pose proof always_deleteSelection as Hd.
  pose proof (keepsHistory_toggleConnectionMode drawnBox) as Ht.
  pose proof (keepsHistory_escape drawnBox) as He.
  unfold keydown. bounded_auto.
Qed.

Lemma always_handle (e : event) :
  always historyBounded (handle totalHeight drawnBox onPath e).
Proof.
  destruct e; cbn [handle].
  - apply always_mousedown.
  - apply always_keepsHistory, keepsHistory_mousemove.
  - apply always_mouseup.
  - apply always_click.
  - apply always_keydown.
  - apply always_finishInput.
  - unfold createHookFromInput. apply always_createEventBox.
  - unfold createTriggerFromInput. apply always_createEventBox.
  - apply always_removeConnectedHook.
  - apply always_clearCanvas.
  - apply always_keepsHistory, keepsHistory_toggleConnectionMode.
Qed.
End HistoryBound.

(** X10.  The history is a bounded queue: along every sequence of events,
    from a scene that has at most 30 entries, the history never holds more
    than 30 entries, whether the handlers return or throw. *)
Theorem history_bounded
    (totalHeight : scene -> ref -> Z) (drawnBox : scene -> ref -> box)
    (onPath : scene -> connection -> Z -> Z -> bool)
    (events : list event) (s : scene) :
  List.length (history s) <= 30 ->
  List.length (history (run totalHeight drawnBox onPath events s)) <= 30.
Proof.
  revert s. unfold run. induction events as [|e events IH]; intros s Hs; [exact Hs|].
  simpl. apply IH. apply (always_handle totalHeight drawnBox onPath e s Hs).
Qed.

Lemma history_bounded_witness :
  List.length
    (history (run keepHeight keepBox offPath
                [FinishInput "Gamma" 50 300; KeyDown "z" true; ClearCanvas] twoComponents))
  <= 30.
Proof.
  apply (history_bounded keepHeight keepBox offPath
           [FinishInput "Gamma" 50 300; KeyDown "z" true; ClearCanvas] twoComponents).
  simpl. lia.
Defined.

(** ** Undo *)

Lemma set_next_twice (n m : ref) (s : scene) : set_next n (set_next m s) = set_next n s.
Proof. destruct s; reflexivity. Qed.

Lemma set_next_same (s : scene) : set_next (next s) s = s.
Proof. destruct s; reflexivity. Qed.

Lemma reconstructConnections_spec (saved : list savedConnection) (loadedFiles : list node) :
  forall s, exists conns,
    reconstructConnections saved loadedFiles s
    = (Returned conns, set_next (next s + List.length conns) s)
    /\ List.length conns <= List.length saved
    /\ Forall (fun c => In (from c) (refs loadedFiles) /\ In (to c) (refs loadedFiles)
                        /\ In (id c) (map s_id saved)) conns.
Proof.
  induction saved as [|sc rest IH]; intros s.
  - exists []. cbn [reconstructConnections List.length]. rewrite Nat.add_0_r, set_next_same.
    split; [reflexivity|]. split; [lia|constructor].
  - cbn [reconstructConnections]. cbv [bind gets].
    assert (Hweak : forall conns,
              Forall (fun c => In (from c) (refs loadedFiles) /\ In (to c) (refs loadedFiles)
                               /\ In (id c) (map s_id rest)) conns ->
              Forall (fun c => In (from c) (refs loadedFiles) /\ In (to c) (refs loadedFiles)
                               /\ In (id c) (map s_id (sc :: rest))) conns).
    { intros conns H. eapply Forall_impl; [|exact H]. cbn. intros c (H1 & H2 & H3). auto. }
    destruct (findComponentByProperties (store s) _ (s_from sc)) as [a|] eqn:Ea.
    + destruct (findComponentByProperties (store s) _ (s_to sc)) as [b|] eqn:Eb.
      * cbv [alloc]. destruct (IH (set_next (S (next s)) s)) as (conns & Hrun & Hlen & Hall).
        rewrite Hrun, set_next_twice.
        exists ({| cref := next s; id := s_id sc; from := oid a; to := oid b |} :: conns).
        split; [|split].
        -- cbv [ret]. cbn [List.length]. do 2 f_equal.
           change (next (set_next (S (next s)) s)) with (S (next s)). lia.
        -- cbn [List.length]. lia.
        -- constructor; [|apply Hweak; exact Hall].
           apply find_some in Ea, Eb. destruct Ea as [Ha _], Eb as [Hb _]. cbn.
           split; [apply in_flatten_refs; exact Ha|].
           split; [apply in_flatten_refs; exact Hb|]. left. reflexivity.
      * destruct (IH s) as (conns & Hrun & Hlen & Hall). exists conns.
        split; [exact Hrun|]. split; [cbn [List.length]; lia|apply Hweak; exact Hall].
    + destruct (IH s) as (conns & Hrun & Hlen & Hall). exists conns.
      split; [exact Hrun|]. split; [cbn [List.length]; lia|apply Hweak; exact Hall].
Qed.

(** X11.  [undo] never throws.  On an empty history it changes nothing.
    Otherwise it takes the newest entry off the history and installs the
    forest and the selection of the entry; every arrow it rebuilds joins two
    objects of the installed forest and carries the id of a saved arrow, and
    no more arrows are rebuilt than were saved. *)
Theorem undo_installs_entry (drawnBox : scene -> ref -> box) (s : scene) :
  fst (undo drawnBox s) = Returned tt
  /\ (history s = [] -> undo drawnBox s = (Returned tt, s))
  /\ (forall older entry, history s = older ++ [entry] ->
        let s' := snd (undo drawnBox s) in
        history s' = older
        /\ files s' = st_files entry
        /\ selectedFile s' = st_selectedFile entry
        /\ selectedChild s' = st_selectedChild entry
        /\ multiSelectedFiles s' = st_multiSelectedFiles entry
        /\ List.length (connections s') <= List.length (st_connections entry)
        /\ Forall (fun c => In (from c) (refs (files s')) /\ In (to c) (refs (files s'))
                            /\ In (id c) (map s_id (st_connections entry)))
                  (connections s')).
Proof.
  unfold undo. cbv [bind gets].
  destruct (pop (history s)) as [[previousState older']|] eqn:E.
  - cbv [modify].
    destruct (reconstructConnections_spec (st_connections previousState)
                (st_files previousState)
                (set_files (st_files previousState) (set_history older' s)))
      as (conns & Hrun & Hlen & Hall).
    rewrite Hrun. cbn. split; [reflexivity|]. split.
    + intros H. rewrite H in E. discriminate.
    + intros older entry H. apply pop_Some in E. rewrite E in H.
      apply app_inj_tail in H. destruct H as [-> ->]. auto 10.
  - split; [reflexivity|]. split; [reflexivity|].
    intros older entry H. rewrite H in E. unfold pop in E. rewrite rev_app_distr in E.
    discriminate.
Qed.

Lemma undo_installs_entry_witness :
  undo keepBox twoComponents = (Returned tt, twoComponents)
  /\ history (snd (undo keepBox (snd (clearCanvas keepBox joined)))) = []
  /\ files (snd (undo keepBox (snd (clearCanvas keepBox joined))))
     = [Node 3 (Some []); Node 4 (Some [])]
  /\ List.length (connections (snd (undo keepBox (snd (clearCanvas keepBox joined))))) <= 1.
Proof.
  split.
  - apply (proj1 (proj2 (undo_installs_entry keepBox twoComponents))). reflexivity.
  - pose proof
      (proj2 (proj2 (undo_installs_entry keepBox (snd (clearCanvas keepBox joined))))
         []
         {| st_files := [Node 3 (Some []); Node 4 (Some [])];
            st_connections :=
              [{| s_id := 1%Z;
                  s_from := {| e_name := "Alpha"; e_x := Some 50%Z; e_y := Some 50%Z;
                               e_type := "Component" |};
                  s_to := {| e_name := "Beta"; e_x := Some 300%Z; e_y := Some 50%Z;
                             e_type := "Component" |} |}];
            st_selectedFile := None;
            st_selectedChild := None;
            st_multiSelectedFiles := [] |}
         ltac:(vm_compute; reflexivity)) as H.
    cbv zeta in H.
    split; [exact (proj1 H)|]. split; [exact (proj1 (proj2 H))|].
    exact (proj1 (proj2 (proj2 (proj2 (proj2 (proj2 H)))))).
Defined.

(** ** Undo after a snapshot *)

Lemma layoutOnly_bind {A B : Type} (m : handler A) (k : A -> handler B) :
  layoutOnly m -> (forall a, layoutOnly (k a)) -> layoutOnly (bind m k).
Proof.
  intros Hm Hk s. unfold bind. destruct (Hm s) as (H1 & H2 & H3).
  destruct (m s) as [[a|] s']; simpl in *; [|auto].
  destruct (Hk a s') as (K1 & K2 & K3). split; [congruence|]. split; [lia|].
  intros r Hr. rewrite K3; [apply H3; exact Hr|lia].
Qed.

Lemma layoutOnly_state {A : Type} (m : handler A) :
  (forall s, history (snd (m s)) = history s /\ next s <= next (snd (m s))
             /\ store (snd (m s)) = store s) ->
  layoutOnly m.
Proof.
  intros H s. destruct (H s) as (H1 & H2 & H3). rewrite H3. auto.
Qed.

Lemma layoutOnly_ret {A : Type} (a : A) : layoutOnly (ret a).
Proof. apply layoutOnly_state. intros s. simpl. auto. Qed.

Lemma layoutOnly_gets {A : Type} (f : scene -> A) : layoutOnly (gets f).
Proof. apply layoutOnly_state. intros s. simpl. auto. Qed.

Lemma layoutOnly_throw {A : Type} : layoutOnly (@throwTypeError A).
Proof. apply layoutOnly_state. intros s. simpl. auto. Qed.

Lemma layoutOnly_alloc : layoutOnly alloc.
Proof. apply layoutOnly_state. intros s. simpl. auto. Qed.

Lemma layoutOnly_modify (f : scene -> scene) :
  (forall s, history (f s) = history s /\ next (f s) = next s /\ store (f s) = store s) ->
  layoutOnly (modify f).
Proof.
  intros H. apply layoutOnly_state. intros s. simpl. destruct (H s) as (H1 & H2 & H3).
  rewrite H2. auto.
Qed.

Lemma layoutOnly_when (b : bool) (m : handler unit) : layoutOnly m -> layoutOnly (when b m).
Proof. destruct b; [auto|intros; apply layoutOnly_ret]. Qed.

Lemma layoutOnly_forEach {A : Type} (body : A -> handler unit) (l : list A) :
  (forall a, layoutOnly (body a)) -> layoutOnly (forEach body l).
Proof.
  intros H. induction l as [|a l IH]; simpl.
  - apply layoutOnly_ret.
  - apply layoutOnly_bind; auto.
Qed.

Lemma layoutOnly_forEach_in {A : Type} (body : A -> handler unit) (l : list A) :
  Forall (fun a => layoutOnly (body a)) l -> layoutOnly (forEach body l).
Proof.
  induction 1 as [|a l Ha _ IH]; simpl.
  - apply layoutOnly_ret.
  - apply layoutOnly_bind; auto.
Qed.

Lemma unboxed_setBox (o : object) (b : box) : unboxed (setBox o b) = unboxed o.
Proof. reflexivity. Qed.

Lemma layoutOnly_draw (drawnBox : scene -> ref -> box) : layoutOnly (draw drawnBox).
Proof. intros s. simpl. auto. Qed.

Lemma layoutOnly_updateParentHeight (totalHeight : scene -> ref -> Z) (p : ref) :
  layoutOnly (updateParentHeight totalHeight p).
Proof.
  intros s. simpl. split; [reflexivity|]. split; [lia|].
  intros r _. unfold upd. destruct (Nat.eqb r p) eqn:E; [|reflexivity].
  apply Nat.eqb_eq in E. subst. reflexivity.
Qed.

(** A new object: the write goes to a reference that did not exist. *)
Lemma layoutOnly_new {B : Type} (o : object) (k : ref -> handler B) :
  (forall r, layoutOnly (k r)) ->
  layoutOnly (r <- alloc ;; setObject r o ;;; k r).
Proof.
  intros Hk s. cbv [bind alloc setObject modify].
  destruct (Hk (next s) (set_store (upd (store s) (next s) o) (set_next (S (next s)) s)))
    as (K1 & K2 & K3).
  simpl in *. split; [exact K1|]. split; [lia|].
  intros r Hr. rewrite K3; [|lia]. unfold upd.
  destruct (Nat.eqb r (next s)) eqn:E; [apply Nat.eqb_eq in E; lia|reflexivity].
Qed.

(** A move: the write changes the position of an object. *)
Lemma layoutOnly_move (r : ref) (px py : scene -> option Z) :
  layoutOnly (s <- gets (fun s => s) ;;
              setObject r (setPosition (store s r) (px s) (py s))).
Proof.
  intros s. simpl. split; [reflexivity|]. split; [lia|].
  intros q _. unfold upd. destruct (Nat.eqb q r) eqn:E; [|reflexivity].
  apply Nat.eqb_eq in E. subst. reflexivity.
Qed.

Lemma layoutOnly_removeFile (target : ref) (l : list node) :
  layoutOnly (removeFile target l).
Proof.
  apply layoutOnly_state. intros s. pose proof (removeFile_state target l s) as H.
  destruct (removeFile target l s) as [[[[|] l']|] s']; simpl; subst s'; auto.
  unfold forgetConnections, modify. cbn [snd].
  destruct (selectedConnection _) as [c|]; [destruct (_ || _)|]; auto.
Qed.

Lemma layoutOnly_reposition (totalHeight : scene -> ref -> Z) (n : node) :
  layoutOnly (repositionChildrenInParent totalHeight n).
Proof.
  induction n as [r | r l IH] using node_ind; simpl.
  - apply layoutOnly_bind; [apply layoutOnly_updateParentHeight|intros; apply layoutOnly_ret].
  - apply layoutOnly_bind; [apply layoutOnly_updateParentHeight|intros _].
    apply layoutOnly_forEach_in. eapply Forall_impl; [|exact IH].
    intros c Hc. destruct (nonEmpty (children c)); [exact Hc|apply layoutOnly_ret].
Qed.

Lemma layoutOnly_withNode (totalHeight : scene -> ref -> Z) (r : ref) :
  layoutOnly (withNode r (repositionChildrenInParent totalHeight)).
Proof.
  unfold withNode. apply layoutOnly_bind; [apply layoutOnly_gets|intros fs].
  destruct (findNode r fs); [apply layoutOnly_reposition|apply layoutOnly_ret].
Qed.

Ltac layout_step :=
  lazymatch goal with
  | |- layoutOnly (ret _) => apply layoutOnly_ret
  | |- layoutOnly throwTypeError => apply layoutOnly_throw
  | |- layoutOnly (draw _) => apply layoutOnly_draw
  | |- layoutOnly (updateParentHeight _ _) => apply layoutOnly_updateParentHeight
  | |- layoutOnly (withNode _ _) => apply layoutOnly_withNode
  | |- layoutOnly (removeFile _ _) => apply layoutOnly_removeFile
  | |- layoutOnly (gets _) => apply layoutOnly_gets
  | |- layoutOnly alloc => apply layoutOnly_alloc
  | |- layoutOnly (when _ _) => apply layoutOnly_when
  | |- layoutOnly (forEach _ _) => apply layoutOnly_forEach; intros ?
  | |- layoutOnly (modify _) => apply layoutOnly_modify; intros ?; repeat split
  | |- layoutOnly (bind alloc _) =>
      first [ apply layoutOnly_new; intros ?
            | apply layoutOnly_bind; [apply layoutOnly_alloc|intros ?] ]
  | |- layoutOnly (bind (gets _) _) =>
      first [ apply layoutOnly_move
            | apply layoutOnly_bind; [apply layoutOnly_gets|intros ?] ]
  | |- layoutOnly (bind _ _) => apply layoutOnly_bind; [|intros ?]
  | |- layoutOnly (match ?x with _ => _ end) => destruct x
  | |- layoutOnly _ => first [assumption | cbv zeta]
  end.

Ltac layout_auto := repeat layout_step.

Lemma layoutOnly_deleteComponent (totalHeight : scene -> ref -> Z) (component : ref) :
  layoutOnly (deleteComponent totalHeight component).
Proof. unfold deleteComponent. layout_auto. Qed.

Lemma layoutOnly_dropInto (totalHeight : scene -> ref -> Z) (D dropTarget : node) :
  layoutOnly (dropInto totalHeight D dropTarget).
Proof. unfold dropInto. layout_auto. Qed.

Lemma layoutOnly_promote (totalHeight : scene -> ref -> Z) (D : node) (mx my : Z) :
  layoutOnly (promote totalHeight D mx my).
Proof. unfold promote. layout_auto. Qed.

Lemma contents_map (g : object -> object) (read : ref -> object) (l : list node) :
  map (contents (fun r => g (read r))) l = map (itemMap g) (map (contents read) l).
Proof.
  pattern l.
  apply forest_ind with
    (P := fun n => contents (fun r => g (read r)) n = itemMap g (contents read n)); clear l.
  - reflexivity.
  - intros r l IH. simpl. rewrite IH. reflexivity.
  - reflexivity.
  - intros n l Hn Hl. simpl. rewrite Hn, Hl. reflexivity.
Qed.

Lemma pop_app {A : Type} (l : list A) (a : A) : pop (l ++ [a]) = Some (a, l).
Proof. unfold pop. rewrite rev_app_distr. simpl. rewrite rev_involutive. reflexivity. Qed.

Lemma trim_below (l : list state) :
  List.length l <= maxHistorySize -> trim l = l.
Proof.
  intros H. unfold trim. destruct (Nat.ltb maxHistorySize (List.length l)) eqn:E;
    [apply Nat.ltb_lt in E; lia|reflexivity].
Qed.

(** What [undo] leaves of an entry: the history, the forest, and the
    objects but for their boxes. *)
Lemma undo_fields (drawnBox : scene -> ref -> box) (s : scene)
    (older : list state) (entry : state) :
  history s = older ++ [entry] ->
  history (snd (undo drawnBox s)) = older
  /\ files (snd (undo drawnBox s)) = st_files entry
  /\ forall r, unboxed (store (snd (undo drawnBox s)) r) = unboxed (store s r).
Proof.
  intros H. unfold undo. cbv [bind gets]. rewrite H, pop_app. cbv [modify].
  destruct (reconstructConnections_spec (st_connections entry) (st_files entry)
              (set_files (st_files entry) (set_history older s)))
    as (conns & Hrec & _).
  rewrite Hrec. cbn. auto.
Qed.

(** Undo after a snapshot and a handler that writes only the layout. *)
Lemma undone_after_snapshot (drawnBox : scene -> ref -> box) (rest : handler unit)
    (s : scene) :
  allocated (next s) (files s) ->
  List.length (history s) < maxHistorySize ->
  layoutOnly rest ->
  undone drawnBox s (saveState ;;; rest).
Proof.
  intros Ha Hlen Hrest.
  destruct (cloneComponent_contents (files s) s)
    as (copies & s1 & Hrun & (Hfr & Hnext & Hrefs) & Hold & Hcont).
  assert (E : saveState s
              = (Returned tt, set_history (trim (history s1 ++ [snapshot copies s1])) s1)).
  { unfold saveState. cbv [bind gets modify]. rewrite Hrun. reflexivity. }
  rewrite (heapOnly_history Hfr), trim_below in E by (rewrite length_app; simpl; lia).
  remember (set_history (history s ++ [snapshot copies s1]) s1) as s2 eqn:Es2.
  assert (Hh2 : history s2 = history s ++ [snapshot copies s1]) by (subst s2; reflexivity).
  assert (Hn2 : next s2 = next s1) by (subst s2; reflexivity).
  assert (Hst2 : store s2 = store s1) by (subst s2; reflexivity).
  clear Es2.
  destruct (Hrest s2) as (R1 & R2 & R3).
  assert (Hsnd : (saveState ;;; rest) s = rest s2).
  { unfold bind. rewrite E. reflexivity. }
  unfold undone. rewrite Hsnd.
  remember (snd (rest s2)) as s3 eqn:Es3. clear Es3.
  rewrite Hh2 in R1.
  destruct (undo_fields drawnBox s3 (history s) (snapshot copies s1) R1) as (U1 & U2 & U3).
  split; [exact U1|]. unfold described. rewrite U2.
  change (st_files (snapshot copies s1)) with copies.
  transitivity (map (contents (fun r => unboxed (store s1 r))) copies).
  - apply contents_ext. intros r Hr. rewrite Hrefs in Hr. apply in_seq in Hr.
    rewrite U3, R3, Hst2; [reflexivity|lia].
  - rewrite (contents_map unboxed (store s1) copies), (Hcont Ha),
      <- (contents_map unboxed (store s) (files s)). reflexivity.
Qed.

Lemma undone_ext (drawnBox : scene -> ref -> box) (s : scene) (m m' : handler unit) :
  snd (m s) = snd (m' s) -> undone drawnBox s m' -> undone drawnBox s m.
Proof. unfold undone. intros ->. auto. Qed.

Lemma snd_bind_ret {A : Type} (m : handler A) (s : scene) :
  snd ((m ;;; ret tt) s) = snd (m s).
Proof. unfold bind. destruct (m s) as [[a|] s']; reflexivity. Qed.

Ltac layout_more :=
  repeat first
    [ apply layoutOnly_dropInto
    | apply layoutOnly_promote
    | apply layoutOnly_deleteComponent
    | progress unfold clearSelection, endDragging, draggedObject
    | layout_step ].

(** X12.  Undo gives back what the handler changed.  On a scene whose
    history is below its cap, Ctrl+Z after a new component, after clearing
    the canvas, after removing or creating a hook or trigger box, after the
    Delete key with something selected, and after a drag, restores the
    history and what the forest held before the handler ran: the same
    objects in the same nesting, with their names, types, flags and
    properties.  Positions and sizes are left to the layout. *)
Theorem undo_restores_forest
    (totalHeight : scene -> ref -> Z) (drawnBox : scene -> ref -> box) (s : scene) :
  allocated (next s) (files s) ->
  List.length (history s) < maxHistorySize ->
  (forall name0 px py, name0 <> ""%string ->
     undone drawnBox s (finishInput drawnBox name0 px py))
  /\ undone drawnBox s (clearCanvas drawnBox)
  /\ (forall connectionId, undone drawnBox s (removeConnectedHook drawnBox connectionId))
  /\ (selectedFile s <> None ->
      forall name0 now,
        undone drawnBox s (createHookFromInput drawnBox name0 now)
        /\ undone drawnBox s (createTriggerFromInput drawnBox name0 now))
  /\ (selectedConnection s <> None \/ multiSelectedFiles s <> [] \/ selectedFile s <> None ->
      undone drawnBox s (keydown totalHeight drawnBox "Delete" false))
  /\ (isAreaSelecting s = false -> draggingFile s <> None ->
      forall mx my ctrl detachedChildren,
        undone drawnBox s (mouseup totalHeight drawnBox mx my ctrl detachedChildren)).
Proof.
  intros Ha Hlen.
  pose proof (fun rest => undone_after_snapshot drawnBox rest s Ha Hlen) as Hundo.
  split; [|split; [|split; [|split; [|split]]]].
  - intros name0 px py Hname. unfold finishInput.
    destruct (String.eqb_spec name0 ""); [contradiction|].
    apply Hundo. layout_more.
  - unfold clearCanvas, clearSelection. apply Hundo. layout_more.
  - intros connectionId. unfold removeConnectedHook. apply Hundo. layout_more.
  - intros Hsel name0 now. unfold createHookFromInput, createTriggerFromInput.
    destruct (selectedFile s) as [selected|] eqn:E; [|contradiction].
    split.
    + eapply undone_ext; [|apply Hundo].
      * unfold createEventBox. unfold bind at 1. unfold gets at 1. rewrite E. reflexivity.
      * layout_more.
    + eapply undone_ext; [|apply Hundo].
      * unfold createEventBox. unfold bind at 1. unfold gets at 1. rewrite E. reflexivity.
      * layout_more.
  - intros Hsel.
    assert (Hkey : snd (keydown totalHeight drawnBox "Delete" false s)
                   = snd (deleteSelection totalHeight drawnBox s)).
    { change (keydown totalHeight drawnBox "Delete" false s)
        with ((deleteSelection totalHeight drawnBox ;;; ret tt) s).
      apply snd_bind_ret. }
    unfold deleteSelection in Hkey. unfold bind at 1 in Hkey. unfold gets at 1 in Hkey.
    destruct (selectedConnection s) as [sc|] eqn:E1.
    + eapply undone_ext; [exact Hkey|]. apply Hundo. layout_more.
    + destruct (multiSelectedFiles s) as [|c cs] eqn:E2.
      * destruct (selectedFile s) as [sel|] eqn:E3; [|intuition congruence].
        eapply undone_ext; [exact Hkey|]. apply Hundo. layout_more.
      * eapply undone_ext; [exact Hkey|]. apply Hundo. unfold clearSelection. layout_more.
  - intros Harea Hdrag mx my ctrl detachedChildren.
    destruct (draggingFile s) as [d|] eqn:E; [|contradiction].
    eapply undone_ext; [|apply Hundo].
    + unfold mouseup. unfold bind at 1. unfold gets at 1. rewrite Harea, E. reflexivity.
    + unfold endDragging, draggedObject. layout_more.
Qed.

Lemma undo_restores_forest_witness : undone keepBox twoComponents (clearCanvas keepBox).
Proof.
  apply (proj1 (proj2 (undo_restores_forest keepHeight keepBox twoComponents
                         ltac:(intros r; vm_compute; intros [<-|[<-|[]]]; repeat constructor)
                         ltac:(vm_compute; repeat constructor)))).
Defined.

(** ** Saving and resolving arrows *)

Lemma optZeqb_eq (a b : option Z) : optZeqb a b = true <-> a = b.
Proof.
  destruct a as [u|], b as [v|]; simpl; try (split; [discriminate|discriminate]).
  - rewrite Z.eqb_eq. split; [intros ->; reflexivity|intros [= ->]; reflexivity].
  - split; reflexivity.
Qed.

Lemma findComponentByProperties_key (hp : heap) (allComponents : list node) (n : node) :
  NoDup (map (fun m => endpointOf hp (oid m)) allComponents) ->
  In n allComponents ->
  findComponentByProperties hp allComponents (endpointOf hp (oid n)) = Some n.
Proof.
  unfold findComponentByProperties.
  induction allComponents as [|a l IH]; simpl; [tauto|].
  intros Hnd [->|Hin].
  - rewrite !String.eqb_refl. simpl.
    rewrite (proj2 (optZeqb_eq _ _) eq_refl), (proj2 (optZeqb_eq _ _) eq_refl).
    reflexivity.
  - inversion Hnd as [|? ? Hnotin Hnd']; subst.
    destruct (String.eqb (name (hp (oid a))) (name (hp (oid n)))
              && optZeqb (x (hp (oid a))) (x (hp (oid n)))
              && optZeqb (y (hp (oid a))) (y (hp (oid n)))
              && String.eqb (type (hp (oid a))) (type (hp (oid n)))) eqn:E.
    + exfalso. apply Hnotin.
      apply andb_prop in E. destruct E as [E E4].
      apply andb_prop in E. destruct E as [E E3].
      apply andb_prop in E. destruct E as [E1 E2].
      apply String.eqb_eq in E1, E4. apply optZeqb_eq in E2, E3.
      assert (Ek : endpointOf hp (oid a) = endpointOf hp (oid n)).
      { unfold endpointOf. rewrite E1, E2, E3, E4. reflexivity. }
      rewrite Ek. apply (in_map (fun m => endpointOf hp (oid m))). exact Hin.
    + auto.
Qed.

(** X13.  Arrows survive being saved by the properties of their ends.  When
    no two objects of the forest agree in name, position and type, resolving
    the saved form of a list of arrows between objects of the forest gives
    the same arrows again: the same ids between the same objects, in the same
    order; only the connection objects are new. *)
Theorem reconstructConnections_roundtrip (fs : list node) (conns : list connection)
    (s : scene) :
  NoDup (map (fun n => endpointOf (store s) (oid n)) (flattenComponents fs)) ->
  (forall c, In c conns -> In (from c) (refs fs) /\ In (to c) (refs fs)) ->
  exists conns',
    fst (reconstructConnections (map (saveConnection (store s)) conns) fs s)
    = Returned conns'
    /\ map (fun c => (id c, from c, to c)) conns'
       = map (fun c => (id c, from c, to c)) conns
    /\ store (snd (reconstructConnections (map (saveConnection (store s)) conns) fs s))
       = store s.
Proof.
  intros Hnd Hin.
  remember (store s) as hp eqn:Ehp.
  assert (Hgen : forall s0, store s0 = hp ->
            exists conns' s1,
              reconstructConnections (map (saveConnection hp) conns) fs s0
              = (Returned conns', s1)
              /\ map (fun c => (id c, from c, to c)) conns'
                 = map (fun c => (id c, from c, to c)) conns
              /\ store s1 = hp).
  { clear Ehp s. induction conns as [|c conns IH]; intros s0 Hs0.
    - exists [], s0. simpl. auto.
    - destruct (Hin c (or_introl eq_refl)) as [Hf Ht].
      apply in_refs_flatten in Hf, Ht.
      destruct Hf as (a & Ha & Ea), Ht as (b & Hb & Eb).
      destruct (IH (fun c' H => Hin c' (or_intror H)) (set_next (S (next s0)) s0) Hs0)
        as (conns' & s1 & Hrun & Hmap & Hst).
      exists ({| cref := next s0; id := id c; from := oid a; to := oid b |} :: conns'), s1.
      split; [|split; [|exact Hst]].
      + cbn [map reconstructConnections]. cbv [bind gets]. rewrite Hs0.
        unfold saveConnection at 1 2. cbn [s_from s_to s_id].
        rewrite <- Ea, <- Eb.
        rewrite (findComponentByProperties_key hp _ a Hnd Ha),
                (findComponentByProperties_key hp _ b Hnd Hb).
        cbv [alloc]. rewrite Hrun. reflexivity.
      + cbn [map id from to]. rewrite Hmap, Ea, Eb. reflexivity. }
  subst hp. destruct (Hgen s eq_refl) as (conns' & s1 & Hrun & Hmap & Hst).
  exists conns'. rewrite Hrun. auto.
Qed.

Lemma reconstructConnections_roundtrip_witness :
  exists conns',
    fst (reconstructConnections
           (map (saveConnection (store nestedWithArrow)) (connections nestedWithArrow))
           (files nestedWithArrow) nestedWithArrow)
    = Returned conns'
    /\ map (fun c => (id c, from c, to c)) conns'
       = map (fun c => (id c, from c, to c)) (connections nestedWithArrow)
    /\ store (snd (reconstructConnections
                     (map (saveConnection (store nestedWithArrow))
                        (connections nestedWithArrow))
                     (files nestedWithArrow) nestedWithArrow))
       = store nestedWithArrow.
Proof.
  apply (reconstructConnections_roundtrip (files nestedWithArrow)
           (connections nestedWithArrow) nestedWithArrow).
  - vm_compute. repeat constructor; simpl; intuition discriminate.
  - intros c [<-|[]]. vm_compute. auto.
Defined.

(** ** The Delete key *)

Lemma keydown_Delete (totalHeight : scene -> ref -> Z) (drawnBox : scene -> ref -> box)
    (s : scene) :
  keydown totalHeight drawnBox "Delete" false s
  = (deleteSelection totalHeight drawnBox ;;; ret tt) s.
Proof. reflexivity. Qed.

Lemma saveState_frame (s : scene) :
  exists s1, saveState s = (Returned tt, s1)
             /\ files s1 = files s /\ connections s1 = connections s
             /\ selectedFile s1 = selectedFile s
             /\ selectedConnection s1 = selectedConnection s
             /\ multiSelectedFiles s1 = multiSelectedFiles s.
Proof.
  destruct (saveState_spec s) as (copies & s1 & (Hfr & _) & E).
  eexists. split; [exact E|]. cbn. rewrite Hfr. cbn. auto.
Qed.

(** X14.  The Delete key.  With an arrow selected it removes that arrow and
    nothing else, whatever else is selected.  With one component selected in
    a tree, when the handler returns, the component is gone from the forest
    with everything below it, nothing is added, the forest is still a tree,
    no arrow starts or ends at a component that was in the forest, and
    nothing is selected.  With nothing selected the key does nothing. *)
Theorem keydown_Delete_removes (totalHeight : scene -> ref -> Z)
    (drawnBox : scene -> ref -> box) (s : scene) :
  (forall sc, selectedConnection s = Some sc ->
     let s' := snd (keydown totalHeight drawnBox "Delete" false s) in
     files s' = files s
     /\ connections s'
        = filter (fun conn => negb (Nat.eqb (cref conn) (cref sc))) (connections s)
     /\ selectedConnection s' = None
     /\ selectedFile s' = selectedFile s)
  /\ (forall sel, selectedConnection s = None -> multiSelectedFiles s = [] ->
        selectedFile s = Some sel -> tree (files s) ->
        fst (keydown totalHeight drawnBox "Delete" false s) = Returned tt ->
        let s' := snd (keydown totalHeight drawnBox "Delete" false s) in
        ~ In sel (refs (files s'))
        /\ (forall r, In r (refs (files s')) -> In r (refs (files s)))
        /\ tree (files s')
        /\ (In sel (refs (files s)) ->
            Forall (fun c => from c <> sel /\ to c <> sel) (connections s'))
        /\ selectedFile s' = None /\ multiSelectedFiles s' = [])
  /\ (selectedConnection s = None -> multiSelectedFiles s = [] -> selectedFile s = None ->
      keydown totalHeight drawnBox "Delete" false s = (Returned tt, s)).
Proof.
  rewrite keydown_Delete. unfold deleteSelection.
  destruct (saveState_frame s) as (s1 & Esave & Hf & Hc & Hsf & Hsc & Hm).
  split; [|split].
  - intros sc E. cbv [bind gets]. rewrite E, Esave. cbn.
    rewrite Hf, Hc, Hsf. auto.
  - intros sel E1 E2 E3 Ht. cbv [bind gets]. rewrite E1, E2, E3, Esave.
    cbn [fst snd]. rewrite Hf.
    pose proof (removeFile_spec sel (files s) s1) as Hspec.
    pose proof (removeFile_state sel (files s) s1) as Hstate.
    destruct (removeFile sel (files s) s1) as [[[[|] l']|] s2].
    + intros _. cbn.
      destruct Hspec as [Hrem _].
      destruct (removedFrom_tree sel (files s) l' Ht Hrem) as [Ht' Hsub].
      destruct Hrem as (removed & Ho & Hin & Hp).
      assert (Hnd : NoDup (refs [removed] ++ refs l')).
      { eapply Permutation_NoDup; [exact Hp|exact Ht]. }
      split.
      { intros Hin'. eapply (NoDup_app_disjoint _ _ _ Hnd); [|exact Hin'].
        rewrite <- Ho. apply oid_in_refs. }
      split; [exact Hsub|]. split; [exact Ht'|]. split; [intros _|auto].
      subst s2. unfold forgetConnections, modify. cbn [snd].
      assert (Hfil : Forall (fun c => from c <> sel /\ to c <> sel)
                       (filter (fun c => negb (Nat.eqb (from c) sel)
                                         && negb (Nat.eqb (to c) sel)) (connections s1))).
      { apply Forall_forall. intros c Hc'. apply filter_In in Hc'.
        destruct Hc' as [_ Hc']. apply andb_prop in Hc'. destruct Hc' as [H1 H2].
        apply negb_true_iff in H1, H2. apply Nat.eqb_neq in H1, H2. auto. }
      destruct (selectedConnection _) as [c|]; [destruct (_ || _)|]; exact Hfil.
    + intros _. cbn. destruct Hspec as (-> & Habs & _). subst s2.
      split; [exact Habs|]. split; [auto|]. split; [exact Ht|]. split; [|auto].
      intros Hin. contradiction.
    + cbn. discriminate.
  - intros E1 E2 E3. cbv [bind gets]. rewrite E1, E2, E3. reflexivity.
Qed.

Lemma keydown_Delete_removes_witness :
  connections
    (snd (keydown keepHeight keepBox "Delete" false
            (set_selectedConnection (Some {| cref := 2; id := 1%Z; from := 0; to := 1 |})
               joined)))
  = filter (fun conn => negb (Nat.eqb (cref conn) 2)) (connections joined)
  /\ ~ In 1 (refs (files (snd (keydown keepHeight keepBox "Delete" false
                                 (selecting 1 false nestedWithArrow)))))
  /\ keydown keepHeight keepBox "Delete" false twoComponents = (Returned tt, twoComponents).
Proof.
  split; [|split].
  - exact (proj1 (proj2
             (proj1 (keydown_Delete_removes keepHeight keepBox
                       (set_selectedConnection
                          (Some {| cref := 2; id := 1%Z; from := 0; to := 1 |}) joined))
                    {| cref := 2; id := 1%Z; from := 0; to := 1 |} eq_refl))).
  - apply (proj1 (proj2 (keydown_Delete_removes keepHeight keepBox
                           (selecting 1 false nestedWithArrow)))
             1 eq_refl eq_refl eq_refl).
    + unfold tree. vm_compute. repeat constructor; simpl; intuition discriminate.
    + vm_compute. reflexivity.
  - apply (proj2 (proj2 (keydown_Delete_removes keepHeight keepBox twoComponents)));
      reflexivity.
Defined.

(** ** Hook and trigger boxes *)

Lemma saveState_run (s : scene) :
  exists s1, saveState s = (Returned tt, s1)
             /\ heapOnly s (set_history (history s) s1)
             /\ next s1 = next s + size (files s)
             /\ (forall r, r < next s -> store s1 r = store s r).
Proof.
  destruct (cloneComponent_contents (files s) s)
    as (copies & s1 & Hrun & (Hfr & Hnext & Hrefs) & Hold & _).
  eexists. split.
  { unfold saveState. cbv [bind gets modify]. rewrite Hrun. reflexivity. }
  cbn. split; [|auto]. unfold heapOnly in *. rewrite Hfr. destruct s; reflexivity.
Qed.

Lemma createEventBox_fields (drawnBox : scene -> ref -> box) (type0 : string) (dy : Z)
    (name0 : string) (now : Z) (s : scene) (selected : ref) :
  selectedFile s = Some selected ->
  let r := next s + size (files s) in
  let s' := snd (createEventBox drawnBox type0 dy name0 now s) in
  fst (createEventBox drawnBox type0 dy name0 now s) = Returned tt
  /\ files s' = files s ++ [Node r None]
  /\ connections s'
     = connections s ++ [{| cref := S r; id := now; from := selected; to := r |}]
  /\ name (store s' r) = name0 /\ type (store s' r) = type0
  /\ isEventBox (store s' r) = true
  /\ (forall q, q < next s -> unboxed (store s' q) = unboxed (store s q))
  /\ selectedFile s' = Some selected.
Proof.
  intros Hsel r s'. subst r s'.
  destruct (saveState_run s) as (s1 & Esave & Hfr & Hnext & Hold).
  assert (Hf : files s1 = files s) by (apply (f_equal files) in Hfr; exact Hfr).
  assert (Hc : connections s1 = connections s)
    by (apply (f_equal connections) in Hfr; exact Hfr).
  assert (Hs : selectedFile s1 = selectedFile s)
    by (apply (f_equal selectedFile) in Hfr; exact Hfr).
  unfold createEventBox. cbv [bind gets]. rewrite Hsel, Esave.
  cbv [alloc setObject modify draw]. cbn.
  rewrite Hf, Hc, Hs, Hnext, Hsel. unfold upd. rewrite Nat.eqb_refl. cbn.
  repeat split.
  intros q Hq. destruct (Nat.eqb q (next s + size (files s))) eqn:E.
  - apply Nat.eqb_eq in E. lia.
  - rewrite (Hold q Hq). reflexivity.
Qed.

Lemma find_none_app {A : Type} (f : A -> bool) (l : list A) (a : A) :
  Forall (fun b => f b = false) l -> f a = true -> find f (l ++ [a]) = Some a.
Proof.
  intros Hl Ha. induction Hl as [|b l Hb _ IH]; simpl.
  - rewrite Ha. reflexivity.
  - rewrite Hb. exact IH.
Qed.

(** X15.  A hook or trigger box made from the drawer is linked to its
    owner.  With a component selected and every arrow ending at an object
    that exists, [createHookFromInput] and [createTriggerFromInput] append
    one new event box to the top-level list and one arrow from the selected
    component to the box; [getParentComponent] of the box is the component,
    [getConnectedEventBoxes] of the component lists the box with its arrow,
    and the box is hidden from hit testing exactly while the component is
    collapsed. *)
Theorem createEventBox_linked (drawnBox : scene -> ref -> box) (hook : bool)
    (name0 : string) (now : Z) (s : scene) (selected : ref) :
  selectedFile s = Some selected ->
  Forall (fun c => to c < next s) (connections s) ->
  let create := if hook then createHookFromInput drawnBox
                else createTriggerFromInput drawnBox in
  let type0 := if hook then "HOOK"%string else "TRIGGER"%string in
  let r := next s + size (files s) in
  let arrow := {| cref := S r; id := now; from := selected; to := r |} in
  let s' := snd (create name0 now s) in
  files s' = files s ++ [Node r None]
  /\ connections s' = connections s ++ [arrow]
  /\ isEventBox (store s' r) = true /\ type (store s' r) = type0
  /\ name (store s' r) = name0
  /\ getParentComponent (store s') (connections s') (Node r None) = Some selected
  /\ In (r, arrow) (getConnectedEventBoxes (store s') (connections s') selected type0)
  /\ hiddenEventBox (store s') (connections s') (Node r None)
     = negb (expanded (store s' selected)).
Proof.
  intros Hsel Hto create type0 r arrow s'.
  assert (H : files s' = files s ++ [Node r None]
              /\ connections s' = connections s ++ [arrow]
              /\ name (store s' r) = name0 /\ type (store s' r) = type0
              /\ isEventBox (store s' r) = true).
  { subst create type0 s' r arrow. unfold createHookFromInput, createTriggerFromInput.
    destruct hook.
    - destruct (createEventBox_fields drawnBox "HOOK" 0 name0 now s selected Hsel)
        as (_ & H1 & H2 & H3 & H4 & H5 & _). auto.
    - destruct (createEventBox_fields drawnBox "TRIGGER" 60 name0 now s selected Hsel)
        as (_ & H1 & H2 & H3 & H4 & H5 & _). auto. }
  destruct H as (Hf & Hc & Hn & Ht & He).
  assert (Hfind : find (fun conn => Nat.eqb (to conn) r) (connections s') = Some arrow).
  { rewrite Hc. apply find_none_app.
    - eapply Forall_impl; [|exact Hto]. intros c Hlt. cbv beta in Hlt.
      apply Nat.eqb_neq. unfold r. lia.
    - apply Nat.eqb_refl. }
  assert (Hparent : getParentComponent (store s') (connections s') (Node r None)
                    = Some selected).
  { unfold getParentComponent. cbn [oid]. rewrite He, Hfind. reflexivity. }
  split; [exact Hf|]. split; [exact Hc|]. split; [exact He|]. split; [exact Ht|].
  split; [exact Hn|]. split; [exact Hparent|]. split.
  - unfold getConnectedEventBoxes.
    apply (in_map (fun connection => (to connection, connection))
             (filter _ (connections s')) arrow).
    apply filter_In. split.
    + rewrite Hc. apply in_app_iff. right. left. reflexivity.
    + cbn [from to arrow]. rewrite Nat.eqb_refl, He, Ht, String.eqb_refl. reflexivity.
  - unfold hiddenEventBox. rewrite Hparent. cbn [oid]. rewrite He. reflexivity.
Qed.

Lemma createEventBox_linked_witness :
  let s := selecting 0 false twoComponents in
  let arrow := {| cref := 5; id := 7%Z; from := 0; to := 4 |} in
  let s' := snd (createHookFromInput keepBox "useData" 7 s) in
  files s' = files s ++ [Node 4 None]
  /\ connections s' = connections s ++ [arrow]
  /\ isEventBox (store s' 4) = true /\ type (store s' 4) = "HOOK"%string
  /\ name (store s' 4) = "useData"%string
  /\ getParentComponent (store s') (connections s') (Node 4 None) = Some 0
  /\ In (4, arrow) (getConnectedEventBoxes (store s') (connections s') 0 "HOOK")
  /\ hiddenEventBox (store s') (connections s') (Node 4 None)
     = negb (expanded (store s' 0)).
Proof.
  apply (createEventBox_linked keepBox true "useData" 7 (selecting 0 false twoComponents) 0).
  - reflexivity.
  - constructor.
Defined.

Lemma indexOf_last (r : ref) (l : list node) (c : option (list node)) :
  Forall (fun n => oid n <> r) l -> indexOf r (l ++ [Node r c]) = Some (List.length l).
Proof.
  induction 1 as [|n l Hn _ IH]; simpl.
  - rewrite Nat.eqb_refl. reflexivity.
  - apply Nat.eqb_neq in Hn. rewrite Hn, IH. reflexivity.
Qed.

Lemma splice1_last {A : Type} (l : list A) (a : A) :
  splice1 (List.length l) (l ++ [a]) = l.
Proof.
  unfold splice1. induction l as [|b l IH]; [reflexivity|].
  change (b :: firstn (List.length l) (l ++ [a]) ++ skipn (S (List.length l)) (l ++ [a])
          = b :: l).
  f_equal. exact IH.
Qed.

Lemma removeConnection_last (connectionId : Z) (l : list connection) (c : connection) :
  Forall (fun conn => id conn <> connectionId) l -> id c = connectionId ->
  removeConnection connectionId (l ++ [c]) = l.
Proof.
  intros Hl Hc. induction Hl as [|b l Hb _ IH]; simpl.
  - apply Z.eqb_eq in Hc. rewrite Hc. reflexivity.
  - apply Z.eqb_neq in Hb. rewrite Hb, IH. reflexivity.
Qed.

(** X16.  Removing a connected hook takes back its creation.  When the
    objects of the top-level list exist and no arrow carries the id of the
    new one, [removeConnectedHook] with the id of the arrow that
    [createHookFromInput] has just made leaves the forest and the arrows as
    they were before the box was created. *)
Theorem removeConnectedHook_takes_back (drawnBox : scene -> ref -> box)
    (name0 : string) (now : Z) (s : scene) (selected : ref) :
  selectedFile s = Some selected ->
  Forall (fun n => oid n < next s) (files s) ->
  Forall (fun c => id c <> now) (connections s) ->
  let s' := snd (createHookFromInput drawnBox name0 now s) in
  let s'' := snd (removeConnectedHook drawnBox now s') in
  fst (removeConnectedHook drawnBox now s') = Returned tt
  /\ files s'' = files s
  /\ connections s'' = connections s.
Proof.
  intros Hsel Hfiles Hids s' s''. subst s' s''. unfold createHookFromInput.
  destruct (createEventBox_fields drawnBox "HOOK" 0 name0 now s selected Hsel)
    as (_ & Hf & Hc & _).
  set (s' := snd (createEventBox drawnBox "HOOK" 0 name0 now s)) in *.
  set (r := next s + size (files s)) in *.
  destruct (saveState_run s') as (s1 & Esave & Hfr & _).
  assert (Hf1 : files s1 = files s ++ [Node r None])
    by (apply (f_equal files) in Hfr; cbn in Hfr; congruence).
  assert (Hc1 : connections s1
                = connections s ++ [{| cref := S r; id := now; from := selected; to := r |}])
    by (apply (f_equal connections) in Hfr; cbn in Hfr; congruence).
  unfold removeConnectedHook. cbv [bind gets]. rewrite Esave, Hc1.
  rewrite (find_none_app (fun conn => Z.eqb (id conn) now) (connections s)
             {| cref := S r; id := now; from := selected; to := r |}).
  - cbn [to]. rewrite Hf1, indexOf_last.
    + cbv [modify draw]. cbn. rewrite splice1_last, Hc1, removeConnection_last; auto.
    + eapply Forall_impl; [|exact Hfiles]. intros n Hn. cbv beta in Hn. unfold r. lia.
  - eapply Forall_impl; [|exact Hids]. intros c Hne. cbv beta in Hne.
    apply Z.eqb_neq. exact Hne.
  - apply Z.eqb_refl.
Qed.

Lemma removeConnectedHook_takes_back_witness :
  let s := selecting 0 false twoComponents in
  let s' := snd (createHookFromInput keepBox "useData" 7 s) in
  let s'' := snd (removeConnectedHook keepBox 7 s') in
  fst (removeConnectedHook keepBox 7 s') = Returned tt
  /\ files s'' = files s
  /\ connections s'' = connections s.
Proof.
  apply (removeConnectedHook_takes_back keepBox "useData" 7
           (selecting 0 false twoComponents) 0).
  - reflexivity.
  - repeat constructor.
  - constructor.
Defined.

(** ** Connection mode *)

Lemma saveState_fields (s : scene) :
  exists s1, saveState s = (Returned tt, s1)
             /\ s1 = set_history (history s1) (set_store (store s1) (set_next (next s1) s)).
Proof.
  destruct (saveState_spec s) as (copies & s1 & (Hfr & _) & E).
  eexists. split; [exact E|]. unfold heapOnly in Hfr. cbn.
  rewrite <- Hfr. reflexivity.
Qed.

(** X17.  [toggleConnectionMode] flips the mode and drops a pending start.
    Entering the mode deselects the single selection and the selected arrow
    and keeps the multi-selection; leaving it keeps every selection.  Two
    presses in a row give back the mode, and the forest, the arrows and the
    history are never touched. *)
Theorem toggleConnectionMode_twice (drawnBox : scene -> ref -> box) (s : scene) :
  let s1 := snd (toggleConnectionMode drawnBox s) in
  let s2 := snd (toggleConnectionMode drawnBox s1) in
  isConnecting s1 = negb (isConnecting s) /\ connectionStart s1 = None
  /\ (if isConnecting s
      then selectedFile s1 = selectedFile s /\ selectedChild s1 = selectedChild s
           /\ selectedConnection s1 = selectedConnection s
      else selectedFile s1 = None /\ selectedChild s1 = None
           /\ selectedConnection s1 = None)
  /\ multiSelectedFiles s1 = multiSelectedFiles s
  /\ files s1 = files s /\ connections s1 = connections s /\ history s1 = history s
  /\ isConnecting s2 = isConnecting s
  /\ files s2 = files s /\ connections s2 = connections s /\ history s2 = history s.
Proof.
  intros s1 s2. subst s1 s2. unfold toggleConnectionMode, resetConnectionMode.
  cbv [bind gets modify draw]. cbn.
  destruct (isConnecting s); cbn; auto 20.
Qed.

(** X18.  A click in connection mode only works on the arrows and the mode:
    the forest and the selection stay as they are.  On the empty canvas it
    leaves the mode; on a first object it records the start; on the start
    object again it changes nothing; on another object it leaves the mode,
    with or without a new arrow.  It never makes an arrow from an object to
    itself. *)
Theorem mousedown_connecting (drawnBox : scene -> ref -> box)
    (onPath : scene -> connection -> Z -> Z -> bool) (mx my : Z) (ctrl : bool) (now : Z)
    (s : scene) :
  isConnecting s = true ->
  let s' := snd (mousedown drawnBox onPath mx my ctrl now s) in
  let hit := findFileAtPosition (store s) (connections s) mx my (files s) in
  files s' = files s
  /\ selectedFile s' = selectedFile s /\ multiSelectedFiles s' = multiSelectedFiles s
  /\ selectedConnection s' = selectedConnection s
  /\ (hit = None ->
      isConnecting s' = false /\ connectionStart s' = None
      /\ connections s' = connections s /\ history s' = history s)
  /\ (forall clickedFile, hit = Some clickedFile -> connectionStart s = None ->
        isConnecting s' = true /\ connectionStart s' = Some (oid clickedFile)
        /\ connections s' = connections s /\ history s' = history s)
  /\ (forall clickedFile, hit = Some clickedFile ->
        connectionStart s = Some (oid clickedFile) ->
        isConnecting s' = true /\ connectionStart s' = Some (oid clickedFile)
        /\ connections s' = connections s /\ history s' = history s)
  /\ (forall clickedFile start, hit = Some clickedFile -> connectionStart s = Some start ->
        oid clickedFile <> start ->
        isConnecting s' = false /\ connectionStart s' = None)
  /\ (Forall (fun c => from c <> to c) (connections s) ->
      Forall (fun c => from c <> to c) (connections s')).
Proof.
  intros Hmode s' hit. subst s' hit.
  assert (Hm : mousedown drawnBox onPath mx my ctrl now s
               = mousedownConnecting drawnBox mx my now s).
  { unfold mousedown. unfold bind at 1. unfold gets at 1. rewrite Hmode. reflexivity. }
  rewrite Hm. clear Hm.
  unfold mousedownConnecting. cbv [bind gets].
  destruct (findFileAtPosition (store s) (connections s) mx my (files s)) as [clickedFile|].
  - destruct (connectionStart s) as [start|] eqn:Es.
    + destruct (Nat.eqb (oid clickedFile) start) eqn:E; cbn [negb].
      * apply Nat.eqb_eq in E. subst start. cbn.
        repeat split; auto; try congruence.
      * apply Nat.eqb_neq in E.
        destruct (find _ (connections s)) as [c|].
        -- cbn. repeat split; auto; try congruence.
        -- cbv [alloc modify].
           match goal with |- context [saveState ?t] =>
             destruct (saveState_fields t) as (s1 & Esave & Hs1) end.
           rewrite Esave. cbn. rewrite Hs1. cbn.
           repeat split; auto; try congruence.
           intros Hall. apply Forall_app. split; [exact Hall|].
           constructor; [|constructor]. cbn. auto.
    + cbn. repeat split; auto; try congruence.
  - cbn. repeat split; auto; try congruence.
Qed.

Lemma mousedown_connecting_witness :
  files (snd (mousedown keepBox offPath 310 60 false 7 (connectingFrom 0 twoComponents)))
  = files (connectingFrom 0 twoComponents).
Proof.
  apply (proj1 (mousedown_connecting keepBox offPath 310 60 false 7
                  (connectingFrom 0 twoComponents) eq_refl)).
Defined.

(** ** Expanding and collapsing *)

Lemma boxesOnly_bind {A B : Type} (m : handler A) (k : A -> handler B) :
  boxesOnly m -> (forall a, boxesOnly (k a)) -> boxesOnly (bind m k).
Proof.
  intros Hm Hk s. unfold bind. destruct (Hm s) as (H1 & H2 & H3 & H4).
  destruct (m s) as [[a|] s']; simpl in *; [|auto].
  destruct (Hk a s') as (K1 & K2 & K3 & K4).
  split; [congruence|]. split; [congruence|]. split; [congruence|].
  intros r. rewrite K4. apply H4.
Qed.

Lemma boxesOnly_ret {A : Type} (a : A) : boxesOnly (ret a).
Proof. intros s. simpl. auto. Qed.

Lemma boxesOnly_gets {A : Type} (f : scene -> A) : boxesOnly (gets f).
Proof. intros s. simpl. auto. Qed.

Lemma boxesOnly_throw {A : Type} : boxesOnly (@throwTypeError A).
Proof. intros s. simpl. auto. Qed.

Lemma boxesOnly_forEach_in {A : Type} (body : A -> handler unit) (l : list A) :
  Forall (fun a => boxesOnly (body a)) l -> boxesOnly (forEach body l).
Proof.
  induction 1 as [|a l Ha _ IH]; simpl.
  - apply boxesOnly_ret.
  - apply boxesOnly_bind; auto.
Qed.

Section BoxesOnly.
Variable totalHeight : scene -> ref -> Z.

Lemma boxesOnly_updateParentHeight (p : ref) : boxesOnly (updateParentHeight totalHeight p).
Proof.
  intros s. simpl. repeat split.
  intros r. unfold upd. destruct (Nat.eqb r p) eqn:E; [|reflexivity].
  apply Nat.eqb_eq in E. subst. reflexivity.
Qed.

Lemma boxesOnly_reposition (n : node) :
  boxesOnly (repositionChildrenInParent totalHeight n).
Proof.
  induction n as [r | r l IH] using node_ind; simpl.
  - apply boxesOnly_bind; [apply boxesOnly_updateParentHeight|intros; apply boxesOnly_ret].
  - apply boxesOnly_bind; [apply boxesOnly_updateParentHeight|intros _].
    apply boxesOnly_forEach_in. eapply Forall_impl; [|exact IH].
    intros c Hc. destruct (nonEmpty (children c)); [exact Hc|apply boxesOnly_ret].
Qed.

Lemma boxesOnly_updateAllParentHeights (l : list node) :
  boxesOnly (updateAllParentHeights totalHeight l).
Proof.
  unfold updateAllParentHeights. pattern l.
  apply forest_ind with
    (P := fun n => boxesOnly (updateAllParentHeights_file totalHeight n)); clear l.
  - intros r. simpl. apply boxesOnly_bind; [apply boxesOnly_gets|intros e].
    destruct e; [|apply boxesOnly_ret].
    apply boxesOnly_bind; [apply boxesOnly_updateParentHeight|intros; apply boxesOnly_throw].
  - intros r l IH. simpl. apply boxesOnly_bind; [apply boxesOnly_gets|intros e].
    destruct e; [|apply boxesOnly_ret].
    apply boxesOnly_bind; [apply boxesOnly_updateParentHeight|intros _; exact IH].
  - apply boxesOnly_ret.
  - intros n l Hn Hl. simpl. apply boxesOnly_bind; [exact Hn|intros _; exact Hl].
Qed.

(** What [toggleAt] does once it has found its object. *)
Lemma toggle_flips (file : node) (s : scene) :
  let flipped := negb (expanded (store s (oid file))) in
  let s' := snd ((setObject (oid file) (setExpanded (store s (oid file)) flipped) ;;;
                  (if flipped then
                     match children file with
                     | None => throwTypeError
                     | Some (_ :: _) => repositionChildrenInParent totalHeight file
                     | Some [] => ret tt
                     end
                   else ret tt) ;;;
                  fs <- gets files ;;
                  updateAllParentHeights totalHeight fs ;;;
                  ret true) s) in
  expanded (store s' (oid file)) = negb (expanded (store s (oid file)))
  /\ (forall r, r <> oid file -> unboxed (store s' r) = unboxed (store s r))
  /\ files s' = files s /\ history s' = history s /\ connections s' = connections s.
Proof.
  intros flipped s'.
  set (s1 := snd (setObject (oid file) (setExpanded (store s (oid file)) flipped) s)).
  assert (Hrest : boxesOnly
            ((if flipped then
                match children file with
                | None => throwTypeError
                | Some (_ :: _) => repositionChildrenInParent totalHeight file
                | Some [] => ret tt
                end
              else ret tt) ;;;
             fs <- gets files ;;
             updateAllParentHeights totalHeight fs ;;;
             ret true)).
  { apply boxesOnly_bind.
    - destruct flipped; [|apply boxesOnly_ret].
      destruct (children file) as [[|c cs]|];
        [apply boxesOnly_ret|apply boxesOnly_reposition|apply boxesOnly_throw].
    - intros _. apply boxesOnly_bind; [apply boxesOnly_gets|intros fs].
      apply boxesOnly_bind; [apply boxesOnly_updateAllParentHeights|].
      intros _. apply boxesOnly_ret. }
  destruct (Hrest s1) as (H1 & H2 & H3 & H4).
  assert (Es' : s' = snd (((if flipped then
                match children file with
                | None => throwTypeError
                | Some (_ :: _) => repositionChildrenInParent totalHeight file
                | Some [] => ret tt
                end
              else ret tt) ;;;
             fs <- gets files ;;
             updateAllParentHeights totalHeight fs ;;;
             ret true) s1)) by reflexivity.
  rewrite Es'. clear Es'. rewrite H1, H2, H3.
  assert (Hexp : forall r, expanded (store (snd (((if flipped then
                match children file with
                | None => throwTypeError
                | Some (_ :: _) => repositionChildrenInParent totalHeight file
                | Some [] => ret tt
                end
              else ret tt) ;;;
             fs <- gets files ;;
             updateAllParentHeights totalHeight fs ;;;
             ret true) s1)) r) = expanded (store s1 r)).
  { intros r. apply (f_equal expanded (H4 r)). }
  rewrite Hexp. subst s1. cbn. unfold upd. rewrite Nat.eqb_refl. cbn.
  split; [reflexivity|]. split; [|auto].
  intros r Hr. rewrite H4. cbn. unfold upd.
  apply Nat.eqb_neq in Hr. rewrite Hr. reflexivity.
Qed.
End BoxesOnly.

Lemma toggleAt_cons (totalHeight : scene -> ref -> Z) (mx my : Z) (file : node)
    (rest : list node) (s : scene) :
  toggleAt totalHeight mx my (file :: rest) s
  = if includes (files s) (oid file) && inToggleArea (store s (oid file)) mx my
    then (setObject (oid file)
            (setExpanded (store s (oid file)) (negb (expanded (store s (oid file))))) ;;;
          (if negb (expanded (store s (oid file))) then
             match children file with
             | None => throwTypeError
             | Some (_ :: _) => repositionChildrenInParent totalHeight file
             | Some [] => ret tt
             end
           else ret tt) ;;;
          fs <- gets files ;;
          updateAllParentHeights totalHeight fs ;;;
          ret true) s
    else toggleAt totalHeight mx my rest s.
Proof.
  cbn [toggleAt]. unfold bind at 1. unfold gets at 1. cbn beta iota.
  destruct (includes (files s) (oid file) && inToggleArea (store s (oid file)) mx my);
    reflexivity.
Qed.

Lemma bind_not_false {A : Type} (m : handler A) (k : A -> handler bool) (s : scene) :
  (forall a s', fst (k a s') <> Returned false) ->
  fst (bind m k s) <> Returned false.
Proof.
  intros Hk. unfold bind. destruct (m s) as [[a|] s']; [apply Hk|discriminate].
Qed.

(** X19.  [toggleAt] and [isToggleAt] agree.  When [isToggleAt] answers false
    for the point, [toggleAt] answers false and changes nothing.  When it
    answers true, [toggleAt] does not answer false: it flips the [expanded]
    flag of the first top-level object of the list whose toggle area holds
    the point, and of no other object; apart from the boxes nothing else is
    written, also when the call throws. *)
Theorem toggleAt_isToggleAt (totalHeight : scene -> ref -> Z) (mx my : Z) (l : list node)
    (s : scene) :
  (isToggleAt s mx my l = false ->
   toggleAt totalHeight mx my l s = (Returned false, s))
  /\ (isToggleAt s mx my l = true ->
      exists pre file post,
        l = pre ++ file :: post
        /\ Forall (fun f => includes (files s) (oid f)
                            && inToggleArea (store s (oid f)) mx my = false) pre
        /\ includes (files s) (oid file) = true
        /\ inToggleArea (store s (oid file)) mx my = true
        /\ fst (toggleAt totalHeight mx my l s) <> Returned false
        /\ let s' := snd (toggleAt totalHeight mx my l s) in
           expanded (store s' (oid file)) = negb (expanded (store s (oid file)))
           /\ (forall r, r <> oid file -> unboxed (store s' r) = unboxed (store s r))
           /\ files s' = files s /\ history s' = history s
           /\ connections s' = connections s).
Proof.
  induction l as [|file rest [IHf IHt]].
  - split; [reflexivity|discriminate].
  - rewrite toggleAt_cons. cbn [isToggleAt].
    destruct (includes (files s) (oid file) && inToggleArea (store s (oid file)) mx my)
      eqn:E.
    + split; [discriminate|]. intros _. exists [], file, rest.
      apply andb_prop in E. destruct E as [E1 E2].
      split; [reflexivity|]. split; [constructor|]. split; [exact E1|].
      split; [exact E2|].
      split; [|exact (toggle_flips totalHeight file s)].
      apply bind_not_false. intros _ s1.
      apply bind_not_false. intros _ s2.
      apply bind_not_false. intros fs s3.
      apply bind_not_false. intros _ s4. discriminate.
    + split; [exact IHf|]. intros H.
      destruct (IHt H) as (pre & f & post & -> & Hpre & H1 & H2 & H3 & H4).
      exists (file :: pre), f, post. split; [reflexivity|].
      split; [constructor; [exact E|exact Hpre]|]. auto.
Qed.

Lemma toggleAt_isToggleAt_witness :
  toggleAt keepHeight 0 0 (files twoComponents) twoComponents
  = (Returned false, twoComponents)
  /\ fst (toggleAt keepHeight 60 60 (files twoComponents) twoComponents) <> Returned false
  /\ files (snd (toggleAt keepHeight 60 60 (files twoComponents) twoComponents))
     = files twoComponents.
Proof.
  split.
  - apply (proj1 (toggleAt_isToggleAt keepHeight 0 0 (files twoComponents) twoComponents)).
    reflexivity.
  - destruct (proj2 (toggleAt_isToggleAt keepHeight 60 60 (files twoComponents)
                       twoComponents) eq_refl)
      as (pre & file & post & _ & _ & _ & _ & Hret & Hstate).
    split; [exact Hret|]. exact (proj1 (proj2 (proj2 Hstate))).
Defined.

(** ** Deleting a multi-selection *)

Lemma set_store_twice (hp hp' : heap) (s : scene) :
  set_store hp (set_store hp' s) = set_store hp s.
Proof. destruct s. reflexivity. Qed.

Lemma set_store_same (s : scene) : set_store (store s) s = s.
Proof. destruct s. reflexivity. Qed.

Lemma storeOnly_ret : storeOnly (ret tt).
Proof. intros s. exists (store s). rewrite set_store_same. reflexivity. Qed.

Lemma storeOnly_bind (m : handler unit) (k : unit -> handler unit) :
  storeOnly m -> (forall u, storeOnly (k u)) -> storeOnly (bind m k).
Proof.
  intros Hm Hk s. unfold bind. destruct (Hm s) as [hp ->].
  destruct (Hk tt (set_store hp s)) as [hp' ->]. exists hp'.
  rewrite set_store_twice. reflexivity.
Qed.

Lemma storeOnly_forEach_in {A : Type} (body : A -> handler unit) (l : list A) :
  Forall (fun a => storeOnly (body a)) l -> storeOnly (forEach body l).
Proof.
  induction 1 as [|a l Ha _ IH]; simpl.
  - apply storeOnly_ret.
  - apply storeOnly_bind; auto.
Qed.

Lemma storeOnly_updateParentHeight (totalHeight : scene -> ref -> Z) (p : ref) :
  storeOnly (updateParentHeight totalHeight p).
Proof. intros s. eexists. reflexivity. Qed.

Lemma storeOnly_repositionChildrenInParent (totalHeight : scene -> ref -> Z) (n : node) :
  storeOnly (repositionChildrenInParent totalHeight n).
Proof.
  induction n as [r | r l IH] using node_ind; simpl.
  - apply storeOnly_bind; [apply storeOnly_updateParentHeight|intros; apply storeOnly_ret].
  - apply storeOnly_bind; [apply storeOnly_updateParentHeight|intros _].
    apply storeOnly_forEach_in. eapply Forall_impl; [|exact IH].
    intros c Hc. destruct (nonEmpty (children c)); [exact Hc|apply storeOnly_ret].
Qed.

Lemma storeOnly_reposition (totalHeight : scene -> ref -> Z) (r : ref) :
  storeOnly (withNode r (repositionChildrenInParent totalHeight)).
Proof.
  intros s. unfold withNode, bind, gets.
  destruct (findNode r (files s)).
  - apply storeOnly_repositionChildrenInParent.
  - apply storeOnly_ret.
Qed.

Lemma includes_indexOf (l : list node) (t : ref) :
  includes l t = true -> exists i, indexOf t l = Some i.
Proof.
  destruct (indexOf t l) as [i|] eqn:E; [eauto|].
  unfold includes. rewrite existsb_exists. intros (n & Hn & Hq).
  apply Nat.eqb_eq in Hq. exfalso. exact (indexOf_None t l E n Hn Hq).
Qed.

(** An object of the forest is in the top-level list or in the [children]
    array of an object of the forest. *)
Lemma in_refs_place (t : ref) (fs : list node) :
  In t (refs fs) ->
  includes fs t = true
  \/ exists p c, In (Node p (Some c)) (flattenComponents fs) /\ includes c t = true.
Proof.
  pattern fs.
  apply forest_ind with
    (P := fun n => In t (orefs (children n)) ->
                   exists p c, In (Node p (Some c)) (flattenComponent n)
                               /\ includes c t = true); clear fs.
  - intros r [].
  - intros r l IH H. simpl in H. destruct (IH H) as [Htop|(p & c & Hp & Hc)].
    + exists r, l. split; [|exact Htop]. rewrite flattenComponent_eq. left. reflexivity.
    + exists p, c. split; [|exact Hc]. rewrite flattenComponent_eq. right. exact Hp.
  - intros [].
  - intros n l Hn Hl H. rewrite refs_cons, in_app_iff in H.
    destruct n as [i c0]. rewrite refs_node in H. simpl in H.
    destruct H as [[->|H]|H].
    + left. simpl. rewrite Nat.eqb_refl. reflexivity.
    + right. destruct (Hn H) as (p & c & Hp & Hc). exists p, c.
      split; [|exact Hc]. rewrite flattenComponents_cons, in_app_iff. left. exact Hp.
    + destruct (Hl H) as [Htop|(p & c & Hp & Hc)].
      * left. simpl. rewrite Htop. apply orb_true_r.
      * right. exists p, c. split; [|exact Hc].
        rewrite flattenComponents_cons, in_app_iff. right. exact Hp.
Qed.

Lemma removed_absent (t : ref) (fs fs' : list node) (removed : node) :
  tree fs -> oid removed = t ->
  Permutation (refs fs) (refs [removed] ++ refs fs') ->
  tree fs' /\ (forall r, In r (refs fs') -> In r (refs fs)) /\ ~ In t (refs fs').
Proof.
  intros Ht Ho Hp.
  assert (Hnd : NoDup (refs [removed] ++ refs fs')).
  { eapply Permutation_NoDup; [exact Hp|exact Ht]. }
  split; [eapply NoDup_app_remove_l; exact Hnd|]. split.
  - intros r Hr. eapply Permutation_in; [symmetry; exact Hp|].
    rewrite in_app_iff. auto.
  - intros Hin. eapply (NoDup_app_disjoint _ _ _ Hnd); [|exact Hin].
    rewrite <- Ho. apply oid_in_refs.
Qed.

(** One round of the multi-delete, on a tree. *)
Lemma deleteComponent_spec (totalHeight : scene -> ref -> Z) (component : ref) (s : scene) :
  tree (files s) ->
  exists s2,
    deleteComponent totalHeight component s = (Returned tt, s2)
    /\ tree (files s2)
    /\ (forall r, In r (refs (files s2)) -> In r (refs (files s)))
    /\ ~ In component (refs (files s2))
    /\ connections s2 = filter (apartFrom component) (connections s)
    /\ history s2 = history s
    /\ selectedConnection s2 = selectedConnection s.
Proof.
  intros Ht. unfold deleteComponent.
  assert (Htop : forall fs', 
             tree fs' /\ (forall r, In r (refs fs') -> In r (refs (files s)))
             /\ ~ In component (refs fs') ->
             forall m : handler unit,
               (exists hp, m s = (Returned tt, set_files fs' (set_store hp s))) ->
               exists s2,
                 (m ;;; modify (fun s0 =>
                    set_connections
                      (filter (fun connection =>
                                 negb (Nat.eqb (from connection) component)
                                 && negb (Nat.eqb (to connection) component))
                              (connections s0)) s0)) s = (Returned tt, s2)
                 /\ tree (files s2)
                 /\ (forall r, In r (refs (files s2)) -> In r (refs (files s)))
                 /\ ~ In component (refs (files s2))
                 /\ connections s2 = filter (apartFrom component) (connections s)
                 /\ history s2 = history s
                 /\ selectedConnection s2 = selectedConnection s).
  { intros fs' (T & I & N) m [hp E]. unfold bind. rewrite E. cbn.
    eexists. split; [reflexivity|]. cbn.
    split; [exact T|]. split; [exact I|]. split; [exact N|].
    split; [reflexivity|]. split; reflexivity. }
  unfold bind at 1. unfold gets at 1. cbn beta iota.
  assert (Hflat : forall m : handler unit,
             (exists hp fs', m s = (Returned tt, set_files fs' (set_store hp s))
                /\ tree fs' /\ (forall r, In r (refs fs') -> In r (refs (files s)))
                /\ ~ In component (refs fs')) ->
             exists s2,
               bind m (fun _ => modify (fun s0 =>
                    set_connections
                      (filter (fun connection =>
                                 negb (Nat.eqb (from connection) component)
                                 && negb (Nat.eqb (to connection) component))
                              (connections s0)) s0)) s = (Returned tt, s2)
               /\ tree (files s2)
               /\ (forall r, In r (refs (files s2)) -> In r (refs (files s)))
               /\ ~ In component (refs (files s2))
               /\ connections s2 = filter (apartFrom component) (connections s)
               /\ history s2 = history s
               /\ selectedConnection s2 = selectedConnection s).
  { intros m (hp & fs' & E & H). apply (Htop fs' H m). exists hp. exact E. }
  apply Hflat. clear Htop Hflat.
  assert (Hroot : exists hp fs',
             match indexOf component (files s) with
             | Some fileIndex => modify (set_files (splice1 fileIndex (files s)))
             | None => ret tt
             end s = (Returned tt, set_files fs' (set_store hp s))
             /\ tree fs' /\ (forall r, In r (refs fs') -> In r (refs (files s)))
             /\ (includes (files s) component = true \/ ~ In component (refs (files s)) ->
                 ~ In component (refs fs'))).
  { destruct (indexOf component (files s)) as [i|] eqn:E.
    - exists (store s), (splice1 i (files s)). rewrite set_store_same.
      split; [reflexivity|].
      destruct (indexOf_removedFrom _ _ E) as (removed & Ho & _ & Hp).
      destruct (removed_absent _ _ _ removed Ht Ho Hp) as (T & I & N). auto.
    - exists (store s), (files s). split.
      { cbn. destruct s; reflexivity. }
      split; [exact Ht|]. split; [auto|].
      intros [Hinc|Hn]; [|exact Hn].
      destruct (includes_indexOf _ _ Hinc) as [i Hi]. congruence. }
  destruct (in_dec Nat.eq_dec component (refs (files s))) as [Hin|Hnin].
  - destruct (in_refs_place component (files s) Hin) as [Hinc|(p & c & Hp & Hinc)].
    + pose proof (findParentOfComponent_loop component (files s) (files s) Null Ht)
        as (_ & Hb & _).
      unfold findParentOfComponent, parentLoop. rewrite (Hb Hinc). cbn [parent inList].
      destruct Hroot as (hp & fs' & E & T & I & N). exists hp, fs'.
      split; [exact E|]. split; [exact T|]. split; [exact I|]. apply N. left. exact Hinc.
    + pose proof (findParentOfComponent_loop component (files s) (files s) Null Ht)
        as (_ & _ & Hc).
      unfold findParentOfComponent, parentLoop. rewrite (Hc p c Hp Hinc).
      cbn [parent inList].
      destruct (includes_indexOf _ _ Hinc) as [i Hi]. rewrite Hi.
      destruct (indexOf_removedFrom _ _ Hi) as (removed & Ho & _ & Hperm).
      pose proof (setChildren_perm p c (files s) Ht Hp (splice1 i c) (refs [removed]) Hperm)
        as Hperm'.
      destruct (removed_absent _ _ _ removed Ht Ho Hperm') as (T & I & N).
      unfold bind at 1. cbn [modify].
      destruct (storeOnly_bind _ _ (storeOnly_updateParentHeight totalHeight p)
                  (fun _ => storeOnly_reposition totalHeight p)
                  (set_files (setChildren p (splice1 i c) (files s)) s)) as [hp E].
      rewrite E. exists hp, (setChildren p (splice1 i c) (files s)).
      split; [destruct s; reflexivity|]. auto.
  - pose proof (findParentOfComponent_loop component (files s) (files s) Null Ht)
      as (Ha & _ & _).
    unfold findParentOfComponent, parentLoop. rewrite (Ha Hnin). cbn [notFound parent inList].
    destruct Hroot as (hp & fs' & E & T & I & N). exists hp, fs'.
    split; [exact E|]. split; [exact T|]. split; [exact I|]. apply N. right. exact Hnin.
Qed.

Lemma filter_filter {A : Type} (f g : A -> bool) (l : list A) :
  filter g (filter f l) = filter (fun a => f a && g a) l.
Proof.
  induction l as [|a l IH]; simpl; [reflexivity|].
  destruct (f a); simpl; [|exact IH].
  destruct (g a); rewrite IH; reflexivity.
Qed.

Lemma deleteLoop_spec (totalHeight : scene -> ref -> Z) (components : list ref) :
  forall s, tree (files s) ->
  exists s2,
    forEach (deleteComponent totalHeight) components s = (Returned tt, s2)
    /\ tree (files s2)
    /\ (forall r, In r (refs (files s2)) -> In r (refs (files s)))
    /\ (forall r, In r components -> ~ In r (refs (files s2)))
    /\ connections s2
       = filter (fun c => forallb (fun r => apartFrom r c) components) (connections s)
    /\ history s2 = history s
    /\ selectedConnection s2 = selectedConnection s.
Proof.
  induction components as [|c cs IH]; intros s Ht.
  - exists s. split; [reflexivity|]. split; [exact Ht|]. split; [auto|].
    split; [intros r []|]. split; [|auto].
    simpl. induction (connections s) as [|a l IHl]; [reflexivity|].
    simpl. rewrite <- IHl. reflexivity.
  - destruct (deleteComponent_spec totalHeight c s Ht)
      as (s1 & E1 & T1 & I1 & N1 & C1 & H1 & S1).
    destruct (IH s1 T1) as (s2 & E2 & T2 & I2 & N2 & C2 & H2 & S2).
    exists s2. cbn [forEach]. unfold bind. rewrite E1, E2.
    split; [reflexivity|]. split; [exact T2|]. split; [auto|].
    split.
    { intros r [<-|Hr]; [|exact (N2 r Hr)]. intros Hin. exact (N1 (I2 _ Hin)). }
    split; [|split; congruence].
    rewrite C2, C1, filter_filter. reflexivity.
Qed.

(** X20.  The Delete key on a multi-selection.  With no arrow selected and
    some components multi-selected in a tree, the handler returns; none of
    the selected components is in the forest afterwards, nothing is added and
    the forest is still a tree; the arrows that remain are those that neither
    start nor end at a selected component, in their order; the history is
    the one [saveState] leaves, and nothing is selected any more. *)
Theorem keydown_Delete_multiSelection (totalHeight : scene -> ref -> Z)
    (drawnBox : scene -> ref -> box) (s : scene) :
  selectedConnection s = None -> multiSelectedFiles s <> [] -> tree (files s) ->
  let s' := snd (keydown totalHeight drawnBox "Delete" false s) in
  fst (keydown totalHeight drawnBox "Delete" false s) = Returned tt
  /\ tree (files s')
  /\ (forall r, In r (refs (files s')) -> In r (refs (files s)))
  /\ (forall r, In r (multiSelectedFiles s) -> ~ In r (refs (files s')))
  /\ connections s'
     = filter (fun c => forallb (fun r => apartFrom r c) (multiSelectedFiles s))
         (connections s)
  /\ history s' = history (snd (saveState s))
  /\ selectedFile s' = None /\ multiSelectedFiles s' = [].
Proof.
  intros Hsc Hm Ht. rewrite keydown_Delete. unfold deleteSelection.
  destruct (saveState_frame s) as (s1 & Esave & Hf & Hc & Hsf & Hsc1 & Hm1).
  destruct (multiSelectedFiles s) as [|c cs] eqn:Em; [contradiction|].
  rewrite <- Hf in Ht.
  destruct (deleteLoop_spec totalHeight (c :: cs) s1 Ht)
    as (s2 & E2 & T2 & I2 & N2 & C2 & H2 & S2).
  cbv [bind gets]. rewrite Hsc, Em, Esave, E2. cbn.
  rewrite Hf in I2. rewrite Hc in C2.
  split; [reflexivity|]. split; [exact T2|]. split; [exact I2|]. split; [exact N2|].
  split; [exact C2|]. split; [exact H2|]. split; reflexivity.
Qed.

Lemma keydown_Delete_multiSelection_witness :
  fst (keydown keepHeight keepBox "Delete" false
         (set_multiSelectedFiles [2; 0] nestedWithArrow)) = Returned tt.
Proof.
  apply (proj1 (keydown_Delete_multiSelection keepHeight keepBox
                  (set_multiSelectedFiles [2; 0] nestedWithArrow)
                  eq_refl
                  ltac:(discriminate)
                  ltac:(unfold tree; vm_compute; repeat constructor;
                        simpl; intuition discriminate))).
Defined.

(** ** Drag and drop *)

Lemma forgetConnections_run (target : ref) (s : scene) :
  exists s1, forgetConnections target s = (Returned tt, s1)
             /\ files s1 = files s
             /\ connections s1 = filter (apartFrom target) (connections s).
Proof.
  unfold forgetConnections, modify. eexists. split; [reflexivity|].
  cbn. destruct (selectedConnection s) as [c|]; [|split; reflexivity].
  destruct (Nat.eqb (from c) target || Nat.eqb (to c) target); split; reflexivity.
Qed.

Lemma removeFile_found (target : ref) (l : list node) (i : nat) (s : scene) :
  indexOf target l = Some i ->
  removeFile target l s
  = (Returned (true, splice1 i l), snd (forgetConnections target s)).
Proof. intros E. unfold removeFile, removeFrom. rewrite E. reflexivity. Qed.

Lemma splice1_flatten (target : ref) (l : list node) (i : nat) :
  indexOf target l = Some i ->
  forall n, In n (flattenComponents (splice1 i l)) -> In n (flattenComponents l).
Proof.
  intros E n. destruct (indexOf_split _ _ E) as (pre & removed & post & -> & _ & ->).
  rewrite !flattenComponents_app, flattenComponents_cons, !in_app_iff. tauto.
Qed.

(** Where an object of a tree sits, and what is left when it is spliced out
    of the array that holds it. *)
Lemma place_cases (D : node) (fs : list node) :
  tree fs -> In D (flattenComponents fs) ->
  (includes fs (oid D) = true
   /\ findParentOfComponent (oid D) fs = {| parent := Null; inList := Some fs |}
   /\ exists i, indexOf (oid D) fs = Some i
                /\ Permutation (refs fs) (refs [D] ++ refs (splice1 i fs)))
  \/ (includes fs (oid D) = false
      /\ exists p c i,
           findParentOfComponent (oid D) fs = {| parent := Obj p; inList := Some c |}
           /\ In (Node p (Some c)) (flattenComponents fs)
           /\ indexOf (oid D) c = Some i
           /\ Permutation (refs fs) (refs [D] ++ refs (setChildren p (splice1 i c) fs))).
Proof.
  intros Ht HD.
  pose proof (findParentOfComponent_loop (oid D) fs fs Null Ht) as (_ & Hb & Hc).
  assert (Hsame : forall l removed,
             (forall n, In n (flattenComponents l) -> In n (flattenComponents fs)) ->
             oid removed = oid D -> In removed (flattenComponents l) -> removed = D).
  { intros l removed Hl Ho Hin. eapply tree_unique; eauto. }
  destruct (includes fs (oid D)) eqn:Einc.
  - left. split; [reflexivity|]. split.
    { unfold findParentOfComponent, parentLoop. rewrite (Hb eq_refl). reflexivity. }
    destruct (includes_indexOf _ _ Einc) as [i Hi]. exists i. split; [exact Hi|].
    destruct (indexOf_removedFrom _ _ Hi) as (removed & Ho & Hin & Hp).
    rewrite (Hsame fs removed (fun n H => H) Ho Hin) in Hp. exact Hp.
  - right. split; [reflexivity|].
    destruct (in_refs_place (oid D) fs (in_flatten_refs _ _ HD))
      as [Htop|(p & c & Hp & Hinc)]; [congruence|].
    destruct (includes_indexOf _ _ Hinc) as [i Hi]. exists p, c, i.
    split.
    { unfold findParentOfComponent, parentLoop. rewrite (Hc p c Hp Hinc). reflexivity. }
    split; [exact Hp|]. split; [exact Hi|].
    destruct (indexOf_removedFrom _ _ Hi) as (removed & Ho & Hin & Hperm).
    rewrite (Hsame c removed (flatten_below fs p c Hp) Ho Hin) in Hperm.
    exact (setChildren_perm p c fs Ht Hp (splice1 i c) (refs [D]) Hperm).
Qed.

(** A write to a [children] array takes the [children] field of no object
    away. *)
Lemma setChildren_shape (p : ref) (l' fs : list node) :
  forall n', In n' (flattenComponents (setChildren p l' fs)) ->
    In n' (flattenComponents l')
    \/ exists n0, In n0 (flattenComponents fs) /\ oid n0 = oid n'
                  /\ (children n' = None -> children n0 = None).
Proof.
  unfold setChildren. pattern fs.
  apply forest_ind with
    (P := fun n => forall n', In n' (flattenComponent (withChildren p (fun _ => Some l') n)) ->
            In n' (flattenComponents l')
            \/ exists n0, In n0 (flattenComponent n) /\ oid n0 = oid n'
                          /\ (children n' = None -> children n0 = None));
    clear fs.
  - intros r n'. simpl. destruct (Nat.eqb r p) eqn:E; simpl.
    + intros [<-|H].
      * right. exists (Node r None). simpl. auto.
      * left. exact H.
    + intros [<-|[]]. right. exists (Node r None). simpl. auto.
  - intros r l IH n'.
    change (withChildren p (fun _ => Some l') (Node r (Some l)))
      with (if Nat.eqb r p then Node r (Some l')
            else Node r (Some (map (withChildren p (fun _ => Some l')) l))).
    destruct (Nat.eqb r p); rewrite flattenComponent_eq; simpl; intros [<-|H].
    + right. exists (Node r (Some l)). split; [left; reflexivity|].
      split; [reflexivity|discriminate].
    + left. exact H.
    + right. exists (Node r (Some l)). split; [left; reflexivity|].
      split; [reflexivity|discriminate].
    + destruct (IH n' H) as [Hl|(n0 & Hn0 & Ho & Hc)]; [left; exact Hl|].
      right. exists n0. split; [right; exact Hn0|auto].
  - intros n' [].
  - intros n l Hn Hl n'. simpl map. rewrite flattenComponents_cons, in_app_iff.
    intros [H|H].
    + destruct (Hn n' H) as [H'|(n0 & Hn0 & Ho & Hc)]; [left; exact H'|].
      right. exists n0. split; [|auto]. rewrite flattenComponents_cons, in_app_iff. auto.
    + destruct (Hl n' H) as [H'|(n0 & Hn0 & Ho & Hc)]; [left; exact H'|].
      right. exists n0. split; [|auto]. rewrite flattenComponents_cons, in_app_iff. auto.
Qed.

(** In a tree, a write to the [children] array of [p] shows at the place of
    [p]. *)
Lemma withChildren_flatten (p : ref) (f : option (list node) -> option (list node))
    (c : option (list node)) (fs : list node) :
  tree fs -> In (Node p c) (flattenComponents fs) ->
  In (Node p (f c)) (flattenComponents (map (withChildren p f) fs)).
Proof.
  pattern fs.
  apply forest_ind with
    (P := fun n => tree [n] -> In (Node p c) (flattenComponent n) ->
                   In (Node p (f c)) (flattenComponent (withChildren p f n))); clear fs.
  - intros r _ [[= <- <-]|[]]. simpl. rewrite Nat.eqb_refl. left. reflexivity.
  - intros r l IH Ht H.
    change (withChildren p f (Node r (Some l)))
      with (if Nat.eqb r p then Node r (f (Some l))
            else Node r (Some (map (withChildren p f) l))).
    unfold tree in Ht. rewrite refs_single in Ht. simpl in Ht.
    inversion Ht as [|? ? Hnot Hl]; subst.
    rewrite flattenComponent_eq in H. simpl in H. destruct H as [[= <- <-]|H].
    + rewrite Nat.eqb_refl. rewrite flattenComponent_eq. left. reflexivity.
    + destruct (Nat.eqb r p) eqn:E.
      * apply Nat.eqb_eq in E. subst r. exfalso. apply Hnot.
        apply (in_flatten_refs (Node p c) l H).
      * rewrite flattenComponent_eq. right. simpl. apply IH; assumption.
  - intros _ [].
  - intros n l Hn Hl Ht H. unfold tree in Ht. rewrite refs_cons in Ht.
    simpl map. rewrite flattenComponents_cons, in_app_iff in *.
    destruct H as [H|H].
    + left. apply Hn; [|exact H]. exact (NoDup_app_remove_r _ _ Ht).
    + right. apply Hl; [|exact H]. exact (NoDup_app_remove_l _ _ Ht).
Qed.

Lemma bind_run {A B : Type} (m : handler A) (k : A -> handler B) (s s1 : scene) (a : A) :
  m s = (Returned a, s1) -> bind m k s = k a s1.
Proof. intros E. unfold bind. rewrite E. reflexivity. Qed.

(** The second half of a drop: the dragged object, taken out of the forest
    [fs], is pushed onto the [children] array of the drop target. *)
Lemma push_run (totalHeight : scene -> ref -> Z) (D T : node) (fs : list node)
    (s1 : scene) :
  tree fs -> In T (flattenComponents fs) ->
  oid T <> oid D -> isDescendantOf (oid T) D = false ->
  Permutation (refs fs) (refs [D] ++ refs (files s1)) ->
  (forall n', In n' (flattenComponents (files s1)) -> oid n' = oid T ->
     children n' = None -> children T = None) ->
  (children T = None ->
   fst ((match children T with
         | None => throwTypeError
         | Some _ => modify (fun s => set_files (pushChild (oid T) D (files s)) s)
         end ;;;
         withNode (oid T) (repositionChildrenInParent totalHeight)) s1) = Threw)
  /\ (children T <> None ->
      exists s',
        (match children T with
         | None => throwTypeError
         | Some _ => modify (fun s => set_files (pushChild (oid T) D (files s)) s)
         end ;;;
         withNode (oid T) (repositionChildrenInParent totalHeight)) s1 = (Returned tt, s')
        /\ Permutation (refs (files s')) (refs fs)
        /\ (exists c, In (Node (oid T) (Some (c ++ [D]))) (flattenComponents (files s')))
        /\ connections s' = connections s1).
Proof.
  intros Ht HT Hne Hdesc Hp Hshape. split.
  - intros E. rewrite E. reflexivity.
  - intros E. destruct (children T) as [ct|] eqn:Ect; [clear E|congruence].
    assert (Hnd : NoDup (refs [D] ++ refs (files s1))).
    { eapply Permutation_NoDup; [exact Hp|exact Ht]. }
    assert (Ht1 : tree (files s1)) by (eapply NoDup_app_remove_l; exact Hnd).
    assert (HnD : ~ In (oid T) (refs [D])).
    { destruct D as [d cd]. rewrite refs_single. simpl. intros [H|H]; [auto|].
      apply (proj2 (isDescendantOf_iff (oid T) (Node d cd))) in H. congruence. }
    assert (HT1 : In (oid T) (refs (files s1))).
    { pose proof (Permutation_in _ Hp (in_flatten_refs _ _ HT)) as H.
      rewrite in_app_iff in H. tauto. }
    destruct (withChildren_refs (oid T) (files s1) Ht1 HT1)
      as (c & pre & post & Hc & E1 & E2).
    destruct c as [lt|]; [|discriminate (Hshape _ Hc eq_refl eq_refl)].
    unfold bind at 1. unfold modify at 1. cbn beta iota.
    destruct (storeOnly_reposition totalHeight (oid T)
                (set_files (pushChild (oid T) D (files s1)) s1)) as [hp E].
    rewrite E. eexists. split; [reflexivity|].
    assert (Ef : files (set_store hp (set_files (pushChild (oid T) D (files s1)) s1))
                 = pushChild (oid T) D (files s1)) by (destruct s1; reflexivity).
    rewrite Ef. split; [|split].
    + unfold pushChild. rewrite E2. simpl orefs. rewrite refs_app.
      symmetry. etransitivity; [exact Hp|]. rewrite E1. simpl orefs.
      symmetry. etransitivity; [|apply perm_move].
      apply Permutation_app_head. constructor. apply Permutation_app_tail.
      apply Permutation_app_comm.
    + exists lt. unfold pushChild.
      exact (withChildren_flatten (oid T) (option_map (fun l => l ++ [D])) (Some lt)
               (files s1) Ht1 Hc).
    + destruct s1; reflexivity.
Qed.

(** The first half of a drop into a target: the dragged object is taken out
    of the array that holds it, with the arrows at it. *)
Lemma dropInto_takeOut (totalHeight : scene -> ref -> Z) (D T : node) (s : scene) :
  tree (files s) -> In D (flattenComponents (files s)) ->
  In T (flattenComponents (files s)) ->
  exists s1,
    dropInto totalHeight D T s
    = (match children T with
       | None => throwTypeError
       | Some _ => modify (fun s => set_files (pushChild (oid T) D (files s)) s)
       end ;;;
       withNode (oid T) (repositionChildrenInParent totalHeight)) s1
    /\ Permutation (refs (files s)) (refs [D] ++ refs (files s1))
    /\ connections s1 = filter (apartFrom (oid D)) (connections s)
    /\ (forall n', In n' (flattenComponents (files s1)) -> oid n' = oid T ->
          children n' = None -> children T = None).
Proof.
  intros Ht HD HT.
  assert (Hsame : forall n', In n' (flattenComponents (files s)) -> oid n' = oid T ->
                    children n' = None -> children T = None).
  { intros n' Hn Ho Hc. assert (En : n' = T) by (eapply tree_unique; eauto).
    rewrite <- En. exact Hc. }
  unfold dropInto. unfold bind at 1. unfold gets at 1. cbn beta iota.
  destruct (forgetConnections_run (oid D) s) as (sF & EF & FF & CF).
  destruct (place_cases D (files s) Ht HD)
    as [(Hinc & Efp & i & Hi & Hp)|(Hinc & p & c & i & Efp & HP & Hi & Hp)];
    rewrite Efp; cbn [parent inList].
  - exists (set_files (splice1 i (files s)) sF).
    assert (E1 : (r <- removeFile (oid D) (files s) ;; modify (set_files (snd r))) s
                 = (Returned tt, set_files (splice1 i (files s)) sF)).
    { rewrite (bind_run _ _ _ _ _ (removeFile_found _ _ _ s Hi)). rewrite EF. reflexivity. }
    rewrite (bind_run _ _ _ _ _ E1).
    split; [reflexivity|]. split; [exact Hp|]. split; [exact CF|].
    intros n' Hn. apply Hsame. exact (splice1_flatten _ _ _ Hi n' Hn).
  - destruct (storeOnly_bind _ _ (storeOnly_updateParentHeight totalHeight p)
                (fun _ => storeOnly_reposition totalHeight p)
                (set_files (setChildren p (splice1 i c) (files s)) sF)) as [hp Ehp].
    exists (set_store hp (set_files (setChildren p (splice1 i c) (files s)) sF)).
    assert (E1 : (r <- removeFile (oid D) c ;;
                  modify (fun s0 => set_files (setChildren p (snd r) (files s0)) s0) ;;;
                  updateParentHeight totalHeight p ;;;
                  withNode p (repositionChildrenInParent totalHeight)) s
                 = (Returned tt,
                    set_store hp (set_files (setChildren p (splice1 i c) (files s)) sF))).
    { rewrite (bind_run _ _ _ _ _ (removeFile_found _ _ _ s Hi)). rewrite EF.
      unfold bind at 1. unfold modify at 1. cbn beta iota. cbn [snd]. rewrite FF.
      exact Ehp. }
    rewrite (bind_run _ _ _ _ _ E1).
    split; [reflexivity|]. split; [exact Hp|]. split; [exact CF|].
    intros n' Hn Ho Hc. cbn in Hn.
    destruct (setChildren_shape p (splice1 i c) (files s) n' Hn)
      as [Hl|(n0 & Hn0 & Ho0 & Hc0)].
    + apply (Hsame n'); [|exact Ho|exact Hc].
      apply (flatten_below (files s) p c HP). exact (splice1_flatten _ _ _ Hi n' Hl).
    + apply (Hsame n0); [exact Hn0|congruence|auto].
Qed.

Lemma dropInto_run (totalHeight : scene -> ref -> Z) (D T : node) (s : scene) :
  tree (files s) -> In D (flattenComponents (files s)) ->
  In T (flattenComponents (files s)) ->
  oid T <> oid D -> isDescendantOf (oid T) D = false ->
  (children T = None -> fst (dropInto totalHeight D T s) = Threw)
  /\ (children T <> None ->
      exists s',
        dropInto totalHeight D T s = (Returned tt, s')
        /\ Permutation (refs (files s')) (refs (files s))
        /\ (exists c, In (Node (oid T) (Some (c ++ [D]))) (flattenComponents (files s')))
        /\ connections s' = filter (apartFrom (oid D)) (connections s)).
Proof.
  intros Ht HD HT Hne Hdesc.
  destruct (dropInto_takeOut totalHeight D T s Ht HD HT) as (s1 & E & Hp & Hc & Hshape).
  rewrite E.
  destruct (push_run totalHeight D T (files s) s1 Ht HT Hne Hdesc Hp Hshape) as [H1 H2].
  split; [exact H1|]. intros HcT.
  destruct (H2 HcT) as (s' & E' & P' & N' & C'). exists s'.
  split; [exact E'|]. split; [exact P'|]. split; [exact N'|]. congruence.
Qed.

Lemma promote_run (totalHeight : scene -> ref -> Z) (D : node) (mx my : Z) (s : scene) :
  tree (files s) -> In D (flattenComponents (files s)) ->
  (includes (files s) (oid D) = true ->
   promote totalHeight D mx my s = (Returned tt, s))
  /\ (includes (files s) (oid D) = false ->
      exists s' rest,
        promote totalHeight D mx my s = (Returned tt, s')
        /\ files s' = rest ++ [D]
        /\ Permutation (refs (files s')) (refs (files s))
        /\ connections s' = filter (apartFrom (oid D)) (connections s)).
Proof.
  intros Ht HD.
  split; intros Hinc; unfold promote; unfold bind at 1; unfold gets at 1; cbn beta iota;
    rewrite Hinc; cbn [negb]; [reflexivity|].
  destruct (forgetConnections_run (oid D) s) as (sF & EF & FF & CF).
  destruct (place_cases D (files s) Ht HD)
    as [(Hinc' & _)|(_ & p & c & i & Efp & HP & Hi & Hp)]; [congruence|].
  rewrite Efp; cbn [parent inList].
  rewrite (bind_run _ _ _ _ _ (removeFile_found _ _ _ s Hi)). rewrite EF.
  unfold bind at 1. unfold modify at 1. cbn beta iota.
  unfold bind at 1. unfold modify at 1. cbn beta iota. cbn [snd].
  destruct (storeOnly_updateParentHeight totalHeight p
              (set_files (files (set_files (setChildren p (splice1 i c) (files sF)) sF)
                            ++ [D])
                 (set_files (setChildren p (splice1 i c) (files sF)) sF))) as [hp1 E1].
  rewrite (bind_run _ _ _ _ _ E1).
  destruct (storeOnly_reposition totalHeight p
              (set_store hp1
                 (set_files (files (set_files (setChildren p (splice1 i c) (files sF)) sF)
                            ++ [D])
                 (set_files (setChildren p (splice1 i c) (files sF)) sF)))) as [hp2 E2].
  rewrite (bind_run _ _ _ _ _ E2).
  unfold bind, gets, setObject, modify.
  eexists. exists (setChildren p (splice1 i c) (files s)).
  split; [reflexivity|].
  split; [rewrite <- FF; destruct sF; reflexivity|].
  split; [|rewrite <- CF; destruct sF; reflexivity].
  assert (Ef : forall hp, files (set_store hp
                 (set_store hp2 (set_store hp1
                    (set_files (files (set_files (setChildren p (splice1 i c) (files sF)) sF)
                                ++ [D])
                       (set_files (setChildren p (splice1 i c) (files sF)) sF)))))
               = setChildren p (splice1 i c) (files s) ++ [D]).
  { intros hp. rewrite <- FF. destruct sF; reflexivity. }
  rewrite Ef, refs_app. symmetry. etransitivity; [exact Hp|]. apply Permutation_app_comm.
Qed.

Lemma findDropTarget_target (hp : heap) (mx my : Z) (D T : node) (l : list node) :
  findDropTarget hp mx my D l = Some T ->
  In T (flattenComponents l) /\ oid T <> oid D /\ isDescendantOf (oid T) D = false.
Proof.
  unfold findDropTarget. destruct (isEventBox (hp (oid D))); [discriminate|].
  intros H. split; [exact (proj1 (dropLoops_hit hp mx my D l T H))|].
  assert (Hv : validDropTarget hp D T).
  { eapply dropLoops_valid; [|exact H].
    apply Forall_forall. intros file _ t. apply findDropTarget_children_valid. }
  destruct Hv as (H1 & H2 & _). auto.
Qed.

(** The end of [mouseup] after the drop. *)
Lemma drop_tail (drawnBox : scene -> ref -> box) (m : handler unit) (s1 : scene) :
  (fst (m s1) = Threw -> fst ((m ;;; endDragging ;;; draw drawnBox) s1) = Threw)
  /\ (forall s2, m s1 = (Returned tt, s2) ->
        fst ((m ;;; endDragging ;;; draw drawnBox) s1) = Returned tt
        /\ files (snd ((m ;;; endDragging ;;; draw drawnBox) s1)) = files s2
        /\ connections (snd ((m ;;; endDragging ;;; draw drawnBox) s1)) = connections s2).
Proof.
  unfold bind at 1 3 5 7. split.
  - destruct (m s1) as [[[]|] s2]; [discriminate|reflexivity].
  - intros s2 ->. repeat split.
Qed.

(** X21.  Drag and drop moves a component and loses none.  When the pointer
    goes up over a drop target while one component of the tree is dragged
    and nothing is multi-selected, the handler throws if the target has no
    [children] array; otherwise it returns, the objects of the forest are
    those of before, rearranged, the dragged component is the last child of
    the target, and the arrows that start or end at the dragged component
    are removed, the others kept.  Without a drop target a top-level
    component stays where it is and the arrows are kept; a nested component
    becomes the last top-level component, and its arrows are removed.  The
    drop target is looked up in the scene that [saveState] leaves. *)
Theorem mouseup_drop (totalHeight : scene -> ref -> Z) (drawnBox : scene -> ref -> box)
    (mx my : Z) (ctrl : bool) (detachedChildren : option (list node)) (s : scene)
    (D : node) :
  isAreaSelecting s = false -> draggingFile s = Some (oid D) ->
  multiSelectedFiles s = [] ->
  tree (files s) -> In D (flattenComponents (files s)) ->
  let target :=
    if isEventBox (store (snd (saveState s)) (oid D)) then None
    else findDropTarget (store (snd (saveState s))) mx my D (files s) in
  let result := mouseup totalHeight drawnBox mx my ctrl detachedChildren s in
  (forall T, target = Some T -> children T = None -> fst result = Threw)
  /\ (forall T, target = Some T -> children T <> None ->
        fst result = Returned tt
        /\ Permutation (refs (files (snd result))) (refs (files s))
        /\ (exists c, In (Node (oid T) (Some (c ++ [D])))
                         (flattenComponents (files (snd result))))
        /\ connections (snd result) = filter (apartFrom (oid D)) (connections s))
  /\ (target = None -> includes (files s) (oid D) = true ->
        fst result = Returned tt
        /\ files (snd result) = files s
        /\ connections (snd result) = connections s)
  /\ (target = None -> includes (files s) (oid D) = false ->
        fst result = Returned tt
        /\ (exists rest, files (snd result) = rest ++ [D])
        /\ Permutation (refs (files (snd result))) (refs (files s))
        /\ connections (snd result) = filter (apartFrom (oid D)) (connections s)).
Proof.
  intros Ha Hd Hm Ht HD.
  destruct (saveState_frame s) as (s1 & Esave & Hf & Hc & _).
  assert (Es1 : snd (saveState s) = s1) by (rewrite Esave; reflexivity).
  rewrite Es1. intros target result.
  assert (Emu : result
                = ((match target with
                    | Some dropTarget => dropInto totalHeight D dropTarget
                    | None => promote totalHeight D mx my
                    end ;;; endDragging ;;; draw drawnBox) s1)).
  { subst result target. unfold mouseup. unfold bind at 1. unfold gets at 1.
    cbn beta iota. rewrite Ha, Hd. rewrite (bind_run _ _ _ _ _ Esave). rewrite Hm.
    unfold bind at 1. unfold draggedObject. unfold gets at 1. cbn beta iota.
    rewrite Hf, (findNode_unique D Ht HD).
    unfold bind at 1. unfold gets at 1. cbn beta iota. rewrite Hf. reflexivity. }
  rewrite Emu. clear Emu result.
  assert (Ht1 : tree (files s1)) by (rewrite Hf; exact Ht).
  assert (HD1 : In D (flattenComponents (files s1))) by (rewrite Hf; exact HD).
  assert (HT : forall T, target = Some T ->
                 In T (flattenComponents (files s1)) /\ oid T <> oid D
                 /\ isDescendantOf (oid T) D = false).
  { intros T ET. subst target. destruct (isEventBox (store s1 (oid D))); [discriminate|].
    rewrite Hf. exact (findDropTarget_target _ _ _ _ _ _ ET). }
  split; [|split; [|split]].
  - intros T ET HcT. rewrite ET. destruct (HT T ET) as (H1 & H2 & H3).
    apply (proj1 (drop_tail drawnBox _ s1)).
    exact (proj1 (dropInto_run totalHeight D T s1 Ht1 HD1 H1 H2 H3) HcT).
  - intros T ET HcT. rewrite ET. destruct (HT T ET) as (H1 & H2 & H3).
    destruct (proj2 (dropInto_run totalHeight D T s1 Ht1 HD1 H1 H2 H3) HcT)
      as (s2 & E2 & P2 & N2 & C2).
    destruct (proj2 (drop_tail drawnBox _ s1) s2 E2) as (R & F & C).
    rewrite F, C, C2. rewrite Hf in P2. rewrite Hc. auto.
  - intros ET Hinc. rewrite ET. rewrite <- Hf in Hinc.
    pose proof (proj1 (promote_run totalHeight D mx my s1 Ht1 HD1) Hinc) as E2.
    destruct (proj2 (drop_tail drawnBox _ s1) s1 E2) as (R & F & C).
    rewrite F, C. auto.
  - intros ET Hinc. rewrite ET. rewrite <- Hf in Hinc.
    destruct (proj2 (promote_run totalHeight D mx my s1 Ht1 HD1) Hinc)
      as (s2 & rest & E2 & F2 & P2 & C2).
    destruct (proj2 (drop_tail drawnBox _ s1) s2 E2) as (R & F & C).
    rewrite F, C, C2. rewrite Hf in P2. rewrite Hc.
    split; [exact R|]. split; [exists rest; exact F2|]. auto.
Qed.

Lemma mouseup_drop_witness :
  fst (mouseup keepHeight keepBox 310 60 false None
         (set_draggingFile (Some 0) twoComponents)) = Returned tt.
Proof.
  apply (proj1 (proj1 (proj2
           (mouseup_drop keepHeight keepBox 310 60 false None
              (set_draggingFile (Some 0) twoComponents) (Node 0 (Some []))
              eq_refl eq_refl eq_refl
              ltac:(unfold tree; vm_compute; repeat constructor;
                    simpl; intuition discriminate)
              ltac:(vm_compute; left; reflexivity)))
           (Node 1 (Some [])) eq_refl ltac:(discriminate))).
Defined.
